(** * npm-needs-publish: the semantic comparison engine

    A shallow embedding of the comparators of npm-needs-publish
    (version-specifier.ts, dependency.ts, package-json.ts, file-content.ts)
    and of the orchestrator needs-publish.ts, followed by the properties
    proved about them.

    Conventions of the embedding.
    - A JavaScript string is a [string] (one character per code unit).
    - [undefined] is [None]; a value that may be [undefined] is an [option].
    - A library call that may throw returns an [option] ([None] = it threw),
      and a [try]/[catch] of the source is the [match] on that option.
    - An object used as an ordered map is an association list in the order
      of [Object.keys], each key occurring once.  Keys are taken not to
      clash with the members of [Object.prototype]. *)

From Stdlib Require Import String Ascii List Bool Arith ZArith Lia.
From Stdlib Require Import DecimalString.
Import ListNotations.

Set Warnings "-register-all".
Local Open Scope string_scope.
Local Open Scope list_scope.

(* ===================================================================== *)
(** ** JavaScript primitives used by the sources *)
(* ===================================================================== *)

Module Js.

(** [s.startsWith(p)] *)
Definition startsWith (s p : string) : bool := String.prefix p s.

(** [s.slice(n)] for [0 <= n] *)
Definition slice (s : string) (n : nat) : string :=
  String.substring n (String.length s - n) s.

(** [s.substring(0, n)] *)
Definition take (s : string) (n : nat) : string :=
  String.substring 0 (Nat.min n (String.length s)) s.

(** White space stripped by [trim] (the ASCII part of it). *)
Definition isSpace (c : ascii) : bool :=
  let n := nat_of_ascii c in
  Nat.eqb n 32 || (Nat.leb 9 n && Nat.leb n 13).

Fixpoint trimStart (s : string) : string :=
  match s with
  | EmptyString => EmptyString
  | String c r => if isSpace c then trimStart r else s
  end.

Fixpoint trimEnd (s : string) : string :=
  match s with
  | EmptyString => EmptyString
  | String c r =>
      let r' := trimEnd r in
      if isSpace c && String.eqb r' "" then "" else String c r'
  end.

(** [s.trim()] *)
Definition trim (s : string) : string := trimEnd (trimStart s).

(** [s.indexOf(sub)]: the first position of [sub] in [s], or [-1]. *)
Definition indexOf (s sub : string) : Z :=
  match String.index 0 sub s with
  | Some i => Z.of_nat i
  | None => (-1)%Z
  end.

(** [s.includes(sub)] *)
Definition includes (s sub : string) : bool :=
  match String.index 0 sub s with
  | Some _ => true
  | None => false
  end.

(** [s.length] as the number the source computes with. *)
Definition lengthZ (s : string) : Z := Z.of_nat (String.length s).

(** [/[xX*]/.test(s)] *)
Fixpoint testXStar (s : string) : bool :=
  match s with
  | EmptyString => false
  | String c r =>
      Ascii.eqb c "x"%char || Ascii.eqb c "X"%char || Ascii.eqb c "*"%char
      || testXStar r
  end.

(** Truthiness of a possibly undefined string. *)
Definition truthyStr (o : option string) : bool :=
  match o with
  | Some s => negb (String.eqb s "")
  | None => false
  end.

(** [o || d] where [o] is a possibly undefined string. *)
Definition orStr (o : option string) (d : string) : string :=
  match o with
  | Some s => if String.eqb s "" then d else s
  | None => d
  end.

(** Truthiness of a possibly undefined boolean. *)
Definition isTrue (o : option bool) : bool :=
  match o with
  | Some b => b
  | None => false
  end.

(** [o || undefined] *)
Definition orUndefined (o : option string) : option string :=
  if truthyStr o then o else None.

(** [String(n)] for a non-negative integer. *)
Definition ofNat (n : nat) : string :=
  NilEmpty.string_of_uint (Nat.to_uint n).

(** [`${x}`] of a possibly undefined string. *)
Definition template (o : option string) : string :=
  match o with
  | Some s => s
  | None => "undefined"
  end.

(** [parts.join(sep)] *)
Fixpoint join (sep : string) (parts : list string) : string :=
  match parts with
  | [] => ""
  | [p] => p
  | p :: rest => (p ++ sep ++ join sep rest)%string
  end.

(** [s.split(sep)] for a one-character separator: the pieces, in order. *)
Fixpoint splitChar (sep : ascii) (s : string) : list string :=
  match s with
  | EmptyString => [""]
  | String c r =>
      if Ascii.eqb c sep then "" :: splitChar sep r
      else match splitChar sep r with
           | [] => [String c ""]
           | p :: ps => String c p :: ps
           end
  end.

(** [xs.indexOf(x) >= 0] on an array of strings. *)
Definition inArray (x : string) (xs : list string) : bool :=
  existsb (String.eqb x) xs.

(** Lookup of an own property in an object kept as an association list. *)
Fixpoint assoc {A : Type} (k : string) (kvs : list (string * A)) : option A :=
  match kvs with
  | [] => None
  | (k', v) :: rest => if String.eqb k k' then Some v else assoc k rest
  end.

(** [k in obj] *)
Definition hasKey {A : Type} (k : string) (kvs : list (string * A)) : bool :=
  match assoc k kvs with
  | Some _ => true
  | None => false
  end.

(** [Object.keys(obj)] *)
Definition keys {A : Type} (kvs : list (string * A)) : list string :=
  map fst kvs.

(** [set[k] = true] on an object used as an ordered set of names. *)
Definition setAdd (ks : list string) (k : string) : list string :=
  if inArray k ks then ks else ks ++ [k].

(** [delete set[k]] *)
Definition setRemove (ks : list string) (k : string) : list string :=
  filter (fun k' => negb (String.eqb k k')) ks.

(** *** JSON values, as [JSON.parse] yields them *)

Inductive JSON : Type :=
| JNull
| JBool (b : bool)
| JNum (n : Z)
| JStr (s : string)
| JArr (items : list JSON)
| JObj (members : list (string * JSON)).

(** Truthiness of a possibly undefined JSON value. *)
Definition truthy (v : option JSON) : bool :=
  match v with
  | None => false
  | Some JNull => false
  | Some (JBool b) => b
  | Some (JNum n) => negb (Z.eqb n 0)
  | Some (JStr s) => negb (String.eqb s "")
  | Some (JArr _) => true
  | Some (JObj _) => true
  end.

(** [v === s] for a text [s] *)
Definition strictEqualStr (v : option JSON) (s : string) : bool :=
  match v with
  | Some (JStr x) => String.eqb x s
  | _ => false
  end.

(** [v == null] *)
Definition isNullish (v : option JSON) : bool :=
  match v with
  | None => true
  | Some JNull => true
  | Some _ => false
  end.

(** Element [k] of an array, [k] being the decimal text of an index. *)
Fixpoint arrayGet (k : string) (i : nat) (items : list JSON) : option JSON :=
  match items with
  | [] => None
  | x :: rest => if String.eqb k (ofNat i) then Some x else arrayGet k (S i) rest
  end.

(** [v[k]] for an object or an array [v]. *)
Definition getProp (v : JSON) (k : string) : option JSON :=
  match v with
  | JObj members => assoc k members
  | JArr items =>
      if String.eqb k "length" then Some (JNum (Z.of_nat (List.length items)))
      else arrayGet k 0 items
  | _ => None
  end.

(** [Object.keys(v)] for an object or an array [v]. *)
Definition keysOf (v : JSON) : list string :=
  match v with
  | JObj members => keys members
  | JArr items => map ofNat (seq 0 (List.length items))
  | _ => []
  end.

End Js.

(* ===================================================================== *)
(** ** The external libraries: semver and npm-package-arg *)
(* ===================================================================== *)

Module Lib.

(** The part of a [semver.SemVer] the sources read. *)
Record SemVer : Type := mkSemVer {
  major : nat;
  minor : nat;
  patch : nat
}.

(** [parsed.type] of an npm-package-arg result. *)
Inductive NpaType : Type :=
| npa_version
| npa_range
| npa_tag
| npa_git
| npa_remote
| npa_file
| npa_directory
| npa_alias
| npa_other.

(** The fields of an npm-package-arg result the sources read;
    [subSpecRaw] is [parsed.subSpec.rawSpec]. *)
Record NpaResult : Type := mkNpa {
  npaType : NpaType;
  fetchSpec : option string;
  saveSpec : option string;
  gitCommittish : option string;
  gitRange : option string;
  subSpecRaw : option string
}.

(** The two libraries as injected capabilities.
    - [newRange s] is [new semver.Range(s, {loose: true})];
    - [rangeText r] is [r.range];
    - [minVersion r] is [semver.minVersion(r)], [None] for [null] or a throw
      (the one caller treats both alike);
    - [subset a b] is [semver.subset(a, b, {includePrerelease: true})];
    - [intersects a b] is [a.intersects(b)];
    - [valid s] is whether [semver.valid(s)] is not [null];
    - [resolve name spec where] is [npa.resolve(name, spec, where)].
    An alias names a sub-specifier that is a proper part of the aliased
    text ([npm:name@sub]), which is what [resolve_alias_shorter] records. *)
Class Engine : Type := {
  Range : Type;
  newRange : string -> option Range;
  rangeText : Range -> string;
  minVersion : Range -> option SemVer;
  subset : Range -> Range -> option bool;
  intersects : Range -> Range -> bool;
  valid : string -> bool;
  resolve : string -> string -> option string -> option NpaResult;
  resolve_alias_shorter :
    forall name spec where_ r sub,
      resolve name spec where_ = Some r ->
      npaType r = npa_alias ->
      subSpecRaw r = Some sub ->
      String.length sub < String.length spec
}.

End Lib.

(* ===================================================================== *)
(** ** version-specifier.ts *)
(* ===================================================================== *)

Module VersionSpecifier.
Import Js Lib.

Inductive VersionSpecifierType : Type :=
| exact
| caret
| tilde
| range
| x_range
| hyphen
| or
| git
| file
| alias
| workspace
| tag
| url.

Record GitInfo : Type := mkGitInfo {
  gitUrl : string;
  committish : option string;
  semverRange : option string
}.

Inductive ParsedVersionSpecifier : Type := mkParsed {
  type : VersionSpecifierType;
  raw : string;
  normalized : string;
  gitInfo : option GitInfo;
  aliasTarget : option ParsedVersionSpecifier;
  workspaceRange : option string
}.

Inductive Relation : Type :=
| identical
| normalized_equal
| semantically_equal
| same_major_caret
| same_minor_tilde
| narrowed
| widened
| partially_overlapping
| disjoint
| incompatible_types
| unknown_type.

Record SpecifierComparison : Type := mkComparison {
  equivalent : bool;
  relation : Relation;
  detail : option string
}.

Inductive SemanticChange : Type :=
| sc_none
| sc_equivalent
| sc_narrowed
| sc_widened
| sc_incompatible.

Record CompareSpecifierOptions : Type := mkCompareSpecifierOptions {
  where_ : option string
}.

Record SemanticChangeOptions : Type := mkSemanticChangeOptions {
  treatNarrowingAsEquivalent : option bool
}.

Definition VersionSpecifierType_eqb (a b : VersionSpecifierType) : bool :=
  match a, b with
  | exact, exact | caret, caret | tilde, tilde | range, range
  | x_range, x_range | hyphen, hyphen | or, or | git, git | file, file
  | alias, alias | workspace, workspace | tag, tag | url, url => true
  | _, _ => false
  end.

(** A parsed specifier with only the three common fields. *)
Definition plain (t : VersionSpecifierType) (spec norm : string)
  : ParsedVersionSpecifier :=
  mkParsed t spec norm None None None.

(** [getSpecCategory] *)
Inductive SpecCategory : Type :=
| cat_semver | cat_git | cat_file | cat_tag | cat_url | cat_alias
| cat_workspace.

Definition getSpecCategory (t : VersionSpecifierType) : SpecCategory :=
  match t with
  | exact | caret | tilde | range | x_range | hyphen | or => cat_semver
  | git => cat_git
  | file => cat_file
  | tag => cat_tag
  | url => cat_url
  | alias => cat_alias
  | workspace => cat_workspace
  end.

Definition SpecCategory_eqb (a b : SpecCategory) : bool :=
  match a, b with
  | cat_semver, cat_semver | cat_git, cat_git | cat_file, cat_file
  | cat_tag, cat_tag | cat_url, cat_url | cat_alias, cat_alias
  | cat_workspace, cat_workspace => true
  | _, _ => false
  end.

Definition result (e : bool) (r : Relation) : SpecifierComparison :=
  mkComparison e r None.

Definition resultWith (e : bool) (r : Relation) (d : string)
  : SpecifierComparison :=
  mkComparison e r (Some d).

Section WithEngine.
Context {E : Engine}.

(** [detectRangeSubtype] *)
Definition detectRangeSubtype (spec : string) : VersionSpecifierType :=
  let trimmed := trim spec in
  if startsWith trimmed "^" then caret
  else if startsWith trimmed "~" then tilde
  else if includes trimmed " - " then hyphen
  else if includes trimmed "||" then or
  else if testXStar trimmed || String.eqb trimmed "" then x_range
  else if valid trimmed then exact
  else range.

(** The two inner [try { new semver.Range(spec) ... } catch { tag }]
    blocks of [parseVersionSpecifier] (they are the same text). *)
Definition parseAsRangeOrTag (spec : string) : ParsedVersionSpecifier :=
  match newRange spec with
  | Some r => plain (detectRangeSubtype spec) spec (orStr (Some (rangeText r)) spec)
  | None => plain tag spec spec
  end.

(** [parseVersionSpecifier], the recursion on an alias target counted by
    [fuel]; [None] only when the fuel is used up. *)
Fixpoint parse_fuel (fuel : nat) (spec : string) (where_ : option string)
  : option ParsedVersionSpecifier :=
  match fuel with
  | O => None
  | S fuel' =>
      if startsWith spec "workspace:" then
        Some (mkParsed workspace spec spec None None
                (Some (orStr (Some (slice spec 10)) "*")))
      else if String.eqb spec "" then
        Some (plain x_range spec "*")
      else
        match resolve "pkg" spec where_ with
        | None => Some (parseAsRangeOrTag spec)
        | Some parsed =>
            match npaType parsed with
            | npa_version =>
                Some (plain exact spec (orStr (fetchSpec parsed) spec))
            | npa_range =>
                let rangeType := detectRangeSubtype spec in
                let normalized :=
                  match newRange (orStr (fetchSpec parsed) spec) with
                  | Some r => orStr (Some (rangeText r)) spec
                  | None => spec
                  end in
                Some (plain rangeType spec normalized)
            | npa_tag =>
                Some (plain tag spec (orStr (fetchSpec parsed) spec))
            | npa_git =>
                Some (mkParsed git spec (orStr (saveSpec parsed) spec)
                        (Some (mkGitInfo (orStr (fetchSpec parsed) "")
                                 (orUndefined (gitCommittish parsed))
                                 (orUndefined (gitRange parsed))))
                        None None)
            | npa_remote =>
                Some (plain url spec (orStr (fetchSpec parsed) spec))
            | npa_file | npa_directory =>
                Some (plain file spec (orStr (saveSpec parsed) spec))
            | npa_alias =>
                match subSpecRaw parsed with
                | Some sub =>
                    match parse_fuel fuel' sub where_ with
                    | Some target =>
                        Some (mkParsed alias spec spec None (Some target) None)
                    | None => None
                    end
                | None => Some (plain alias spec spec)
                end
            | npa_other => Some (parseAsRangeOrTag spec)
            end
        end
  end.

(** [parseVersionSpecifier(spec, where)].  The fuel given always suffices
    ([parse_fuel_enough] below), so the last branch is never taken. *)
Definition parseVersionSpecifier (spec : string) (where_ : option string)
  : ParsedVersionSpecifier :=
  match parse_fuel (S (String.length spec)) spec where_ with
  | Some p => p
  | None => plain tag spec spec
  end.

(** [extractMajorMinor] *)
Definition extractMajorMinor (spec : string) : option (nat * nat) :=
  match newRange spec with
  | None => None
  | Some r =>
      match minVersion r with
      | None => None
      | Some v => Some (major v, minor v)
      end
  end.

(** A thrown [semver.subset] leaves the flag [false]. *)
Definition subsetOrFalse (a b : Range) : bool :=
  match subset a b with
  | Some b' => b'
  | None => false
  end.

(** [compareSemverSpecs] *)
Definition compareSemverSpecs (specA specB : string) : SpecifierComparison :=
  match newRange specA, newRange specB with
  | Some rangeA, Some rangeB =>
      if String.eqb (rangeText rangeA) (rangeText rangeB) then
        result true normalized_equal
      else
        let caretHit :=
          if startsWith (trim specA) "^" && startsWith (trim specB) "^" then
            match extractMajorMinor specA, extractMajorMinor specB with
            | Some (majA, _), Some (majB, _) => Nat.eqb majA majB
            | _, _ => false
            end
          else false in
        if caretHit then result true same_major_caret
        else
          let tildeHit :=
            if startsWith (trim specA) "~" && startsWith (trim specB) "~" then
              match extractMajorMinor specA, extractMajorMinor specB with
              | Some (majA, minA), Some (majB, minB) =>
                  Nat.eqb majA majB && Nat.eqb minA minB
              | _, _ => false
              end
            else false in
          if tildeHit then result true same_minor_tilde
          else
            let aSubsetB := subsetOrFalse rangeA rangeB in
            let bSubsetA := subsetOrFalse rangeB rangeA in
            if aSubsetB && bSubsetA then result true semantically_equal
            else if bSubsetA then
              resultWith false narrowed "new range is subset of old"
            else if aSubsetB then
              resultWith false widened "old range is subset of new"
            else
              result false
                (if intersects rangeA rangeB then partially_overlapping
                 else disjoint)
  | _, _ => result false incompatible_types
  end.

(** [compareGitSpecs] *)
Definition compareGitSpecs (parsedA parsedB : ParsedVersionSpecifier)
  : SpecifierComparison :=
  match gitInfo parsedA, gitInfo parsedB with
  | Some gitA, Some gitB =>
      if negb (String.eqb (gitUrl gitA) (gitUrl gitB)) then
        resultWith false disjoint "Different git URLs"
      else if truthyStr (committish gitA) && truthyStr (committish gitB) then
        if String.eqb (template (committish gitA)) (template (committish gitB))
        then result true identical
        else resultWith false disjoint "Different committish"
      else if truthyStr (semverRange gitA) && truthyStr (semverRange gitB) then
        compareSemverSpecs (template (semverRange gitA))
                           (template (semverRange gitB))
      else result false incompatible_types
  | _, _ => result false incompatible_types
  end.

(** [compareFileSpecs] *)
Definition compareFileSpecs (parsedA parsedB : ParsedVersionSpecifier)
  : SpecifierComparison :=
  if String.eqb (normalized parsedA) (normalized parsedB)
  then result true identical
  else resultWith false disjoint "Different file paths".

(** [compareWorkspaceSpecs] *)
Definition compareWorkspaceSpecs (parsedA parsedB : ParsedVersionSpecifier)
  : SpecifierComparison :=
  if negb (VersionSpecifierType_eqb (type parsedA) workspace)
     || negb (VersionSpecifierType_eqb (type parsedB) workspace)
  then result false incompatible_types
  else
    let rangeA := orStr (workspaceRange parsedA) "*" in
    let rangeB := orStr (workspaceRange parsedB) "*" in
    if String.eqb rangeA rangeB then result true identical
    else resultWith false disjoint "Different workspace specifiers".

(** [compareTagSpecs] *)
Definition compareTagSpecs (parsedA parsedB : ParsedVersionSpecifier)
  : SpecifierComparison :=
  if String.eqb (normalized parsedA) (normalized parsedB)
  then result true identical
  else resultWith false disjoint "Different tags".

(** [compareUrlSpecs] *)
Definition compareUrlSpecs (parsedA parsedB : ParsedVersionSpecifier)
  : SpecifierComparison :=
  if String.eqb (normalized parsedA) (normalized parsedB)
  then result true identical
  else resultWith false disjoint "Different URLs".

(** [compareAliasSpecs]; [recur] is the call back into
    [compareVersionSpecifiers]. *)
Definition compareAliasSpecs
  (recur : string -> string -> option SpecifierComparison)
  (parsedA parsedB : ParsedVersionSpecifier) : option SpecifierComparison :=
  let isAliasA := VersionSpecifierType_eqb (type parsedA) alias in
  let isAliasB := VersionSpecifierType_eqb (type parsedB) alias in
  match isAliasA && isAliasB, aliasTarget parsedA, aliasTarget parsedB with
  | true, Some targetA, Some targetB => recur (raw targetA) (raw targetB)
  | _, _, _ =>
      match isAliasA, aliasTarget parsedA with
      | true, Some targetA => recur (raw targetA) (raw parsedB)
      | _, _ =>
          match isAliasB, aliasTarget parsedB with
          | true, Some targetB => recur (raw parsedA) (raw targetB)
          | _, _ => Some (result false incompatible_types)
          end
      end
  end.

(** [compareVersionSpecifiers], the recursion through [compareAliasSpecs]
    counted by [fuel]; [None] only when the fuel is used up. *)
Fixpoint compare_fuel (fuel : nat) (specA specB : string)
  (options : option CompareSpecifierOptions) : option SpecifierComparison :=
  match fuel with
  | O => None
  | S fuel' =>
      if String.eqb specA specB then Some (result true identical)
      else
        let w := match options with Some o => where_ o | None => None end in
        let parsedA := parseVersionSpecifier specA w in
        let parsedB := parseVersionSpecifier specB w in
        if VersionSpecifierType_eqb (type parsedA) workspace
           || VersionSpecifierType_eqb (type parsedB) workspace then
          Some (compareWorkspaceSpecs parsedA parsedB)
        else if VersionSpecifierType_eqb (type parsedA) alias
                || VersionSpecifierType_eqb (type parsedB) alias then
          compareAliasSpecs (fun a b => compare_fuel fuel' a b options)
            parsedA parsedB
        else if negb (SpecCategory_eqb (getSpecCategory (type parsedA))
                        (getSpecCategory (type parsedB))) then
          Some (result false incompatible_types)
        else
          Some
            match type parsedA with
            | exact | caret | tilde | range | x_range | hyphen | or =>
                compareSemverSpecs specA specB
            | git => compareGitSpecs parsedA parsedB
            | file => compareFileSpecs parsedA parsedB
            | tag => compareTagSpecs parsedA parsedB
            | url => compareUrlSpecs parsedA parsedB
            | alias | workspace => result false unknown_type
            end
  end.

(** [compareVersionSpecifiers(specA, specB, options)].  The fuel given
    always suffices ([compare_fuel_enough] below). *)
Definition compareVersionSpecifiers (specA specB : string)
  (options : option CompareSpecifierOptions) : SpecifierComparison :=
  match compare_fuel (S (String.length specA + String.length specB))
          specA specB options with
  | Some c => c
  | None => result false unknown_type
  end.

End WithEngine.

(** [comparisonToSemanticChange] *)
Definition comparisonToSemanticChange (comparison : SpecifierComparison)
  (options : option SemanticChangeOptions) : SemanticChange :=
  let treatNarrowing :=
    match options with
    | Some o =>
        match treatNarrowingAsEquivalent o with
        | Some false => false
        | _ => true
        end
    | None => true
    end in
  if equivalent comparison then
    match relation comparison with
    | identical => sc_none
    | _ => sc_equivalent
    end
  else
    match relation comparison with
    | narrowed => if treatNarrowing then sc_equivalent else sc_narrowed
    | widened => sc_widened
    | _ => sc_incompatible
    end.

End VersionSpecifier.

(* ===================================================================== *)
(** ** types.ts: the manifest *)
(* ===================================================================== *)

Module Manifest.
Import Js.

(** A [PackageJson] is the parsed object: its own members in order. *)
Definition PackageJson : Type := list (string * JSON).

(** [pkg[field]] *)
Definition field (pkg : PackageJson) (f : string) : option JSON := assoc f pkg.

(** A member typed [string] by the [PackageJson] interface. *)
Definition stringField (pkg : PackageJson) (f : string) : option string :=
  match field pkg f with
  | Some (JStr s) => Some s
  | _ => None
  end.

(** [pkg.name], typed [string] and required by the interface. *)
Definition name (pkg : PackageJson) : string :=
  match stringField pkg "name" with
  | Some s => s
  | None => ""
  end.

(** The entries of a member typed [Record<string, string>]. *)
Fixpoint stringEntries (members : list (string * JSON))
  : list (string * string) :=
  match members with
  | [] => []
  | (k, JStr s) :: rest => (k, s) :: stringEntries rest
  | _ :: rest => stringEntries rest
  end.

(** The items of a member typed [string[]]. *)
Fixpoint stringItems (items : list JSON) : list string :=
  match items with
  | [] => []
  | JStr s :: rest => s :: stringItems rest
  | _ :: rest => stringItems rest
  end.

End Manifest.

(* ===================================================================== *)
(** ** dependency.ts *)
(* ===================================================================== *)

Module Dependency.
Import Js Lib Manifest.

Inductive SignificantDepType : Type :=
| dependencies
| peerDependencies
| optionalDependencies
| bundledDependencies.

Definition depTypeName (t : SignificantDepType) : string :=
  match t with
  | dependencies => "dependencies"
  | peerDependencies => "peerDependencies"
  | optionalDependencies => "optionalDependencies"
  | bundledDependencies => "bundledDependencies"
  end.

Definition SIGNIFICANT_DEP_TYPES : list SignificantDepType :=
  [dependencies; peerDependencies; optionalDependencies; bundledDependencies].

Inductive Action : Type :=
| added
| removed
| changed.

Record DependencyChange : Type := mkDependencyChange {
  depName : string;
  depType : SignificantDepType;
  action : Action;
  oldSpec : option string;
  newSpec : option string;
  semanticChange : VersionSpecifier.SemanticChange
}.

Record DependencyCompareOptions : Type := mkDependencyCompareOptions {
  includeOptionalDeps : option bool;
  treatNarrowingAsEquivalent : option bool
}.

Record DependencyComparison : Type := mkDependencyComparison {
  hasChanges : bool;
  changes : list DependencyChange;
  significantChanges : list DependencyChange
}.

Definition Action_eqb (a b : Action) : bool :=
  match a, b with
  | added, added | removed, removed | changed, changed => true
  | _, _ => false
  end.

(** [c.semanticChange !== 'equivalent' && c.semanticChange !== 'none'] *)
Definition isSignificant (c : DependencyChange) : bool :=
  match semanticChange c with
  | VersionSpecifier.sc_equivalent | VersionSpecifier.sc_none => false
  | _ => true
  end.

Section WithEngine.
Context {E : Engine}.

(** The body of the first loop of [compareDependencyObject] for one
    name of the local map; [if (!registrySpec)] holds for a missing name
    and for the empty text. *)
Definition addedOrChanged (registryDeps : list (string * string))
  (depType : SignificantDepType)
  (semanticOpts : option VersionSpecifier.SemanticChangeOptions)
  (entry : string * string) : list DependencyChange :=
  let (name, localSpec) := entry in
  let addition :=
    [mkDependencyChange name depType added None (Some localSpec)
       VersionSpecifier.sc_incompatible] in
  match assoc name registryDeps with
  | None => addition
  | Some registrySpec =>
      if String.eqb registrySpec "" then addition
      else if negb (String.eqb localSpec registrySpec) then
        let comparison :=
          VersionSpecifier.compareVersionSpecifiers registrySpec localSpec None in
        [mkDependencyChange name depType changed (Some registrySpec)
           (Some localSpec)
           (VersionSpecifier.comparisonToSemanticChange comparison semanticOpts)]
      else []
  end.

(** The body of the second loop, for one name of the registry map.  The
    lookups of both loops are lookups of members: the names that every
    object inherits from [Object.prototype], which [registryDeps[name]]
    and [name in localDeps] also find, are left to the hypotheses of the
    theorems they matter to. *)
Definition removedEntry (localDeps : list (string * string))
  (depType : SignificantDepType) (entry : string * string)
  : list DependencyChange :=
  let (name, registrySpec) := entry in
  if negb (hasKey name localDeps) then
    [mkDependencyChange name depType removed (Some registrySpec) None
       VersionSpecifier.sc_incompatible]
  else [].

(** [compareDependencyObject] *)
Definition compareDependencyObject (localDeps registryDeps : list (string * string))
  (depType : SignificantDepType)
  (semanticOpts : option VersionSpecifier.SemanticChangeOptions)
  : list DependencyChange :=
  flat_map (addedOrChanged registryDeps depType semanticOpts) localDeps
  ++ flat_map (removedEntry localDeps depType) registryDeps.

(** [pkg.bundledDependencies || pkg.bundleDependencies || []] *)
Definition bundledArray (pkg : PackageJson) : list string :=
  let chosen :=
    if truthy (field pkg "bundledDependencies")
    then field pkg "bundledDependencies"
    else if truthy (field pkg "bundleDependencies")
    then field pkg "bundleDependencies"
    else None in
  match chosen with
  | Some (JArr items) => stringItems items
  | _ => []
  end.

(** [compareBundledDeps] *)
Definition compareBundledDeps (local registry : PackageJson)
  : list DependencyChange :=
  let localBundledArray := bundledArray local in
  let registryBundledArray := bundledArray registry in
  flat_map (fun name =>
              if negb (inArray name registryBundledArray) then
                [mkDependencyChange name bundledDependencies added None None
                   VersionSpecifier.sc_incompatible]
              else []) localBundledArray
  ++ flat_map (fun name =>
                 if negb (inArray name localBundledArray) then
                   [mkDependencyChange name bundledDependencies removed None None
                      VersionSpecifier.sc_incompatible]
                 else []) registryBundledArray.

(** [(pkg[depType] as Record<string, string>) || {}] *)
Definition depsOf (pkg : PackageJson) (depType : SignificantDepType)
  : list (string * string) :=
  match field pkg (depTypeName depType) with
  | Some (JObj members) => stringEntries members
  | _ => []
  end.

(** [compareDependencies] *)
Definition compareDependencies (local registry : PackageJson)
  (options : option DependencyCompareOptions) : DependencyComparison :=
  let includeOptional :=
    match options with
    | Some o => match includeOptionalDeps o with
                | Some false => false
                | _ => true
                end
    | None => true
    end in
  let depTypes :=
    filter (fun t => match t with
                     | optionalDependencies => includeOptional
                     | _ => true
                     end) SIGNIFICANT_DEP_TYPES in
  let semanticOpts :=
    Some (VersionSpecifier.mkSemanticChangeOptions
            (match options with
             | Some o => treatNarrowingAsEquivalent o
             | None => None
             end)) in
  let changes :=
    flat_map (fun depType =>
                match depType with
                | bundledDependencies => compareBundledDeps local registry
                | _ =>
                    compareDependencyObject (depsOf local depType)
                      (depsOf registry depType) depType semanticOpts
                end) depTypes in
  let significantChanges := filter isSignificant changes in
  mkDependencyComparison (negb (Nat.eqb (List.length significantChanges) 0))
    changes significantChanges.

End WithEngine.

(** [getDependencyChangeSummary] *)
Definition getDependencyChangeSummary (changes : list DependencyChange)
  : string :=
  if Nat.eqb (List.length changes) 0 then "No dependency changes"
  else
    let count (p : DependencyChange -> bool) := List.length (filter p changes) in
    let nAdded := count (fun c => Action_eqb (action c) added) in
    let nRemoved := count (fun c => Action_eqb (action c) removed) in
    let changedOnes := filter (fun c => Action_eqb (action c) changed) changes in
    let nSignificant := count isSignificant in
    let nSemantically := List.length (filter isSignificant changedOnes) in
    let nEquivalent :=
      List.length (filter (fun c => negb (isSignificant c)) changedOnes) in
    let parts :=
      (if Nat.ltb 0 nAdded then [(ofNat nAdded ++ " added")%string] else [])
      ++ (if Nat.ltb 0 nRemoved then [(ofNat nRemoved ++ " removed")%string]
          else [])
      ++ (if Nat.ltb 0 (List.length changedOnes) then
            (if Nat.ltb 0 nSemantically
             then [(ofNat nSemantically ++ " significantly changed")%string]
             else [])
            ++ (if Nat.ltb 0 nEquivalent
                then [(ofNat nEquivalent ++ " equivalent changes")%string]
                else [])
          else []) in
    ("Dependencies: " ++ join ", " parts ++ " (" ++ ofNat nSignificant
     ++ " significant)")%string.

End Dependency.

(* ===================================================================== *)
(** ** package-json.ts *)
(* ===================================================================== *)

Module PackageJsonComparator.
Import Js Lib Manifest.

Inductive Significance : Type :=
| critical
| significant
| informational.

Record FieldChange : Type := mkFieldChange {
  fieldName : string;
  oldValue : option JSON;
  newValue : option JSON;
  significance : Significance
}.

Record CompareOptions : Type := mkCompareOptions {
  includeOptionalDeps : option bool;
  additionalSignificantFields : option (list string);
  ignoreFields : option (list string);
  treatNarrowingAsEquivalent : option bool
}.

Record PackageJsonComparison : Type := mkPackageJsonComparison {
  hasSignificantChanges : bool;
  fieldChanges : list FieldChange;
  dependencyChanges : list Dependency.DependencyChange;
  summary : string
}.

(** The names of [SIGNIFICANT_FIELDS], in the order of the literal. *)
Definition SIGNIFICANT_FIELDS : list string :=
  ["name"; "version"; "main"; "module"; "browser"; "exports"; "types";
   "typings"; "type"; "bin"; "files"; "engines"; "os"; "cpu";
   "peerDependenciesMeta"; "packageManager"].

Definition CRITICAL_FIELDS : list string :=
  ["name"; "version"; "main"; "module"; "exports"; "bin"; "types"; "typings"].

Definition NEVER_SIGNIFICANT_FIELDS : list string :=
  ["devDependencies"; "scripts"; "repository"; "homepage"; "bugs"; "author";
   "contributors"; "license"; "keywords"; "description"; "readme";
   "readmeFilename"; "private"; "_id"; "_from"; "_resolved"; "_integrity";
   "_nodeVersion"; "_npmVersion"; "_npmUser"; "dist"; "gitHead"; "_shasum";
   "_npmOperationalInternal"].

Definition isCritical (s : Significance) : bool :=
  match s with critical => true | _ => false end.

Definition isSignificantLevel (s : Significance) : bool :=
  match s with significant => true | _ => false end.

(** [deepEqual] on two defined values. *)
Fixpoint deepEqualValue (a b : JSON) {struct a} : bool :=
  match a with
  | JNull => match b with JNull => true | _ => false end
  | JBool x => match b with JBool y => Bool.eqb x y | _ => false end
  | JNum x => match b with JNum y => Z.eqb x y | _ => false end
  | JStr x => match b with JStr y => String.eqb x y | _ => false end
  | JArr itemsA =>
      match b with
      | JArr itemsB =>
          Nat.eqb (List.length itemsA) (List.length itemsB)
          && (fix pairwise (xs ys : list JSON) : bool :=
                match xs, ys with
                | x :: xs', y :: ys' => deepEqualValue x y && pairwise xs' ys'
                | _, _ => true
                end) itemsA itemsB
      | JObj _ =>
          Nat.eqb (List.length itemsA) (List.length (keysOf b))
          && (fix each (i : nat) (xs : list JSON) : bool :=
                match xs with
                | [] => true
                | x :: xs' =>
                    match getProp b (ofNat i) with
                    | Some y => deepEqualValue x y
                    | None => false
                    end && each (S i) xs'
                end) 0 itemsA
      | _ => false
      end
  | JObj membersA =>
      match b with
      | JArr _ | JObj _ =>
          Nat.eqb (List.length membersA) (List.length (keysOf b))
          && (fix each (ms : list (string * JSON)) : bool :=
                match ms with
                | [] => true
                | (key, x) :: ms' =>
                    match getProp b key with
                    | Some y => deepEqualValue x y
                    | None => false
                    end && each ms'
                end) membersA
      | _ => false
      end
  end.

(** [deepEqual] *)
Definition deepEqual (a b : option JSON) : bool :=
  match a, b with
  | None, None => true
  | Some x, Some y => deepEqualValue x y
  | _, _ => false
  end.

(** [normalizeExports] *)
Definition normalizeExports (exports : JSON) : JSON :=
  match exports with
  | JStr _ => JObj [(".", exports)]
  | JArr _ => JObj [(".", exports)]
  | _ => exports
  end.

(** [compareExports(...).hasSignificantDifference] *)
Definition compareExports (localExports registryExports : option JSON) : bool :=
  if isNullish localExports && isNullish registryExports then false
  else if isNullish localExports || isNullish registryExports then true
  else
    match localExports, registryExports with
    | Some l, Some r =>
        negb (deepEqual (Some (normalizeExports l)) (Some (normalizeExports r)))
    | _, _ => true
    end.

(** [normalizeBin] *)
Definition normalizeBin (bin : option JSON) (packageName : string)
  : option JSON :=
  match bin with
  | None | Some JNull => None
  | Some (JStr b) =>
      let binName :=
        if startsWith packageName "@"
        then template (nth_error (splitChar "/"%char packageName) 1)
        else packageName in
      Some (JObj [(binName, JStr b)])
  | Some (JObj members) => Some (JObj members)
  | Some (JArr items) => Some (JArr items)
  | Some _ => None
  end.

(** [getFieldSignificance] *)
Definition getFieldSignificance (field : string)
  (additionalSignificantFields : option (list string)) : Significance :=
  if inArray field CRITICAL_FIELDS then critical
  else if inArray field SIGNIFICANT_FIELDS then significant
  else
    match additionalSignificantFields with
    | Some extra => if inArray field extra then significant else informational
    | None => informational
    end.

(** [xs || []] *)
Definition orEmpty (xs : option (list string)) : list string :=
  match xs with
  | Some l => l
  | None => []
  end.

(** The names [comparePackageJson] looks at: the significant ones, then the
    caller's additions, less the caller's [ignoreFields]. *)
Definition fieldsToCheck (options : option CompareOptions) : list string :=
  let additionalFields :=
    orEmpty (match options with
             | Some o => additionalSignificantFields o
             | None => None
             end) in
  let ignored :=
    orEmpty (match options with
             | Some o => ignoreFields o
             | None => None
             end) in
  fold_left setRemove ignored
    (fold_left setAdd additionalFields (fold_left setAdd SIGNIFICANT_FIELDS [])).

(** One turn of the loop over the names to check. *)
Definition compareField (local registry : PackageJson)
  (options : option CompareOptions) (f : string) : list FieldChange :=
  let localValue := field local f in
  let registryValue := field registry f in
  if deepEqual localValue registryValue then []
  else if String.eqb f "exports" then
    if compareExports localValue registryValue
    then [mkFieldChange f registryValue localValue critical]
    else []
  else if String.eqb f "bin"
          && deepEqual (normalizeBin localValue (name local))
                       (normalizeBin registryValue (name registry))
  then []
  else
    [mkFieldChange f registryValue localValue
       (getFieldSignificance f
          (match options with
           | Some o => additionalSignificantFields o
           | None => None
           end))].

(** [generateSummary] *)
Definition generateSummary (fieldChanges : list FieldChange)
  (dependencyChanges : list Dependency.DependencyChange) : string :=
  let criticalFields := filter (fun c => isCritical (significance c)) fieldChanges in
  let significantFields :=
    filter (fun c => isSignificantLevel (significance c)) fieldChanges in
  let parts :=
    (if Nat.ltb 0 (List.length criticalFields)
     then [("Critical field changes: "
            ++ join ", " (map fieldName criticalFields))%string]
     else [])
    ++ (if Nat.ltb 0 (List.length significantFields)
        then [("Significant field changes: "
               ++ join ", " (map fieldName significantFields))%string]
        else [])
    ++ (if Nat.ltb 0 (List.length dependencyChanges)
        then [Dependency.getDependencyChangeSummary dependencyChanges]
        else []) in
  if Nat.eqb (List.length parts) 0 then "No significant changes"
  else join "; " parts.

Section WithEngine.
Context {E : Engine}.

(** [comparePackageJson] *)
Definition comparePackageJson (local registry : PackageJson)
  (options : option CompareOptions) : PackageJsonComparison :=
  let fieldChanges :=
    flat_map (compareField local registry options) (fieldsToCheck options) in
  let depComparison :=
    Dependency.compareDependencies local registry
      (Some (Dependency.mkDependencyCompareOptions
               (match options with
                | Some o => includeOptionalDeps o
                | None => None
                end)
               (match options with
                | Some o => treatNarrowingAsEquivalent o
                | None => None
                end))) in
  let hasSignificantFieldChanges :=
    existsb (fun c => isCritical (significance c)
                      || isSignificantLevel (significance c)) fieldChanges in
  mkPackageJsonComparison
    (hasSignificantFieldChanges || Dependency.hasChanges depComparison)
    fieldChanges
    (Dependency.changes depComparison)
    (generateSummary fieldChanges (Dependency.changes depComparison)).

End WithEngine.


End PackageJsonComparator.

(* ===================================================================== *)
(** ** file-content.ts *)
(* ===================================================================== *)

Module FileContent.
Import Js Manifest.

Definition Buffer : Type := list Byte.byte.

(** A file tree in memory: [Record<string, Buffer>]. *)
Definition Files : Type := list (string * Buffer).

(** A rejected promise or a thrown error, with the two members read. *)
Record JsError : Type := mkJsError {
  code : option string;
  message : option string
}.

(** The archive codecs and the hash, as injected capabilities.
    - [hashBuffer b] is the SHA-512 digest of [b] in base64;
    - [extractTarball b] gunzips and untars [b] into memory;
    - [parseJson b] is [JSON.parse(b.toString('utf8'))]. *)
Class Archive : Type := {
  hashBuffer : Buffer -> string;
  extractTarball : Buffer -> JsError + Files;
  parseJson : Buffer -> JsError + PackageJson
}.

Inductive FileAction : Type :=
| added
| removed
| modified.

Record FileChange : Type := mkFileChange {
  path : string;
  action : FileAction
}.

Record FileComparison : Type := mkFileComparison {
  identical : bool;
  fileChanges : list FileChange;
  packageJsonOnly : bool
}.

(** [crypto.timingSafeEqual] on buffers of one length. *)
Fixpoint timingSafeEqual (a b : Buffer) : bool :=
  match a, b with
  | [], [] => true
  | x :: a', y :: b' => Byte.eqb x y && timingSafeEqual a' b'
  | _, _ => false
  end.

(** [buffersEqual] *)
Definition buffersEqual (a b : Buffer) : bool :=
  if negb (Nat.eqb (List.length a) (List.length b)) then false
  else timingSafeEqual a b.

(** The test the sources use for the manifest's path:
    [p === 'package/package.json' ||
     p.indexOf('/package.json') === p.length - 13]. *)
Definition isPackageJsonPath (p : string) : bool :=
  String.eqb p "package/package.json"
  || Z.eqb (indexOf p "/package.json") (lengthZ p - 13).

(** The union of the two key sets, in the order the loops insert them. *)
Definition allPaths (localFiles registryFiles : Files) : list string :=
  fold_left setAdd (keys registryFiles) (fold_left setAdd (keys localFiles) []).

(** One turn of the loop over [allPaths]. *)
Definition compareFile (localFiles registryFiles : Files) (filePath : string)
  : list FileChange :=
  match assoc filePath registryFiles with
  | None => [mkFileChange filePath added]
  | Some registryContent =>
      match assoc filePath localFiles with
      | None => [mkFileChange filePath removed]
      | Some localContent =>
          if negb (buffersEqual localContent registryContent)
          then [mkFileChange filePath modified]
          else []
      end
  end.

(** [comparePackageFiles] from the two extracted trees on (lines 56-97). *)
Definition compareExtracted (localFiles registryFiles : Files)
  : FileComparison :=
  let changes :=
    flat_map (compareFile localFiles registryFiles)
             (allPaths localFiles registryFiles) in
  let onlyPackageJsonDiffers :=
    forallb (fun c => isPackageJsonPath (path c)) changes in
  mkFileComparison (Nat.eqb (List.length changes) 0) changes
    (onlyPackageJsonDiffers && Nat.ltb 0 (List.length changes)).

Section WithArchive.
Context {A : Archive}.

(** [comparePackageFiles] *)
Definition comparePackageFiles (localTarball registryTarball : Buffer)
  : JsError + FileComparison :=
  if String.eqb (hashBuffer localTarball) (hashBuffer registryTarball) then
    inr (mkFileComparison true [] false)
  else
    match extractTarball localTarball with
    | inl e => inl e
    | inr localFiles =>
        match extractTarball registryTarball with
        | inl e => inl e
        | inr registryFiles => inr (compareExtracted localFiles registryFiles)
        end
    end.

(** [extractPackageJson] *)
Definition extractPackageJson (tarball : Buffer) : JsError + PackageJson :=
  match extractTarball tarball with
  | inl e => inl e
  | inr files =>
      match find isPackageJsonPath (keys files) with
      | None => inl (mkJsError None (Some "package.json not found in tarball"))
      | Some pkgJsonPath =>
          match (if String.eqb pkgJsonPath "" then None
                 else assoc pkgJsonPath files) with
          | None =>
              inl (mkJsError None (Some "package.json not found in tarball"))
          | Some content => parseJson content
          end
      end
  end.

End WithArchive.

(** [getFileChangeSummary] *)
Definition getFileChangeSummary (changes : list FileChange) : string :=
  if Nat.eqb (List.length changes) 0 then "No file changes"
  else
    let count (wanted : FileAction -> bool) :=
      List.length (filter (fun c => wanted (action c)) changes) in
    let nAdded := count (fun a => match a with added => true | _ => false end) in
    let nRemoved :=
      count (fun a => match a with removed => true | _ => false end) in
    let nModified :=
      count (fun a => match a with modified => true | _ => false end) in
    let parts :=
      (if Nat.ltb 0 nAdded then [(ofNat nAdded ++ " added")%string] else [])
      ++ (if Nat.ltb 0 nRemoved then [(ofNat nRemoved ++ " removed")%string]
          else [])
      ++ (if Nat.ltb 0 nModified then [(ofNat nModified ++ " modified")%string]
          else []) in
    ("Files: " ++ join ", " parts ++ " (" ++ ofNat (List.length changes)
     ++ " total)")%string.

(** [isOnlyPackageJsonChange] *)
Definition isOnlyPackageJsonChange (changes : list FileChange) : bool :=
  if Nat.eqb (List.length changes) 0 then false
  else forallb (fun c => isPackageJsonPath (path c)) changes.

End FileContent.

(* ===================================================================== *)
(** ** needs-publish.ts *)
(* ===================================================================== *)

Module NeedsPublish.
Import Js Lib Manifest FileContent.

Record NeedsPublishOptions : Type := mkOptions {
  cwd : option string;
  package : option PackageJson;
  registry : option string;
  includeOptionalDeps : option bool;
  additionalSignificantFields : option (list string);
  ignoreFields : option (list string);
  packageJsonOnly : option bool;
  treatNarrowingAsEquivalent : option bool
}.

Inductive ChangeType : Type :=
| change_version
| change_dependency
| change_field
| change_file
| change_first_publish.

Record ChangeDetail : Type := mkChangeDetail {
  changeType : ChangeType;
  changeField : option string;
  changeOldValue : option JSON;
  changeNewValue : option JSON;
  changeSignificance : PackageJsonComparator.Significance
}.

Record NeedsPublishResult : Type := mkResult {
  needsPublish_ : bool;
  reason : string;
  changes : option (list ChangeDetail)
}.

(** What the callback receives: [(null, result)] or [(error)]. *)
Inductive Outcome : Type :=
| Resolved (r : NeedsPublishResult)
| Rejected (e : JsError).

(** The part of a packument that is read. *)
Record Packument : Type := mkPackument {
  distTagsLatest : option string;
  versions : list (string * PackageJson)
}.

(** The calls that leave the process; a working directory of [None] is
    [process.cwd()].
    - [ReadLocalManifest]: [JSON.parse(fs.readFileSync(.../package.json))];
    - [NpmConfigGet key]: the output of [npm config get key], [None] when
      the command fails;
    - [FetchPackument]: [pacote.packument(name, {registry})];
    - [FetchTarball]: [pacote.tarball(url, {integrity})];
    - [PackLocal]: [npa(cwd)], [pacote.manifest] and [pacote.tarball] on
      the working directory. *)
Inductive Request : Type -> Type :=
| ReadLocalManifest (dir : option string) : Request (JsError + PackageJson)
| NpmConfigGet (key : string) : Request (option string)
| FetchPackument (name : string) (registry : option string)
    : Request (JsError + Packument)
| FetchTarball (url : string) (integrity : option string)
    : Request (JsError + Buffer)
| PackLocal (dir : option string) : Request (JsError + Buffer).

(** A computation that ends with an [R] after finitely many requests. *)
Inductive Prog (R : Type) : Type :=
| Done (r : R)
| Call {X : Type} (q : Request X) (k : X -> Prog R).

Arguments Done {R} r.
Arguments Call {R X} q k.

Inductive RequestKind : Type :=
| read_local_manifest
| npm_config_get
| fetch_packument
| fetch_tarball
| pack_local.

Definition kindOf {X : Type} (q : Request X) : RequestKind :=
  match q with
  | ReadLocalManifest _ => read_local_manifest
  | NpmConfigGet _ => npm_config_get
  | FetchPackument _ _ => fetch_packument
  | FetchTarball _ _ => fetch_tarball
  | PackLocal _ => pack_local
  end.

(** The outside world: an answer to every request. *)
Record World : Type := mkWorld {
  answer : forall X : Type, Request X -> X
}.

(** Running a computation against a world: its result and the requests
    made, in order. *)
Fixpoint run {R : Type} (w : World) (p : Prog R) : R * list RequestKind :=
  match p with
  | Done r => (r, [])
  | Call q k =>
      let (r, trace) := run w (k (answer w _ q)) in
      (r, kindOf q :: trace)
  end.

(** Modelled from the spec: compat.ts is not among the sources; its
    [stringStartsWith] is the portability shim of [String.startsWith]. *)
Definition stringStartsWith (s p : string) : bool := startsWith s p.

(** The text of the TypeError raised by [registryPkg.dist] on an
    undefined [registryPkg]. *)
Definition undefinedDistMessage : string :=
  "Cannot read properties of undefined (reading 'dist')".

Definition firstPublish : list ChangeDetail :=
  [mkChangeDetail change_first_publish None None None
     PackageJsonComparator.critical].

(** The [catch] of step 1. *)
Definition registryFailure (error : JsError) : Outcome :=
  if match code error with
     | Some c => String.eqb c "E404"
     | None => false
     end
  then
    Resolved (mkResult true "Package not found in registry (first publish)"
                (Some firstPublish))
  else
    Resolved (mkResult true
                ("Error checking registry: "
                 ++ orStr (message error) "Unknown error")%string
                None).

(** The TypeError of a call of a name bound to [undefined]. *)
Definition notAFunction (callee : string) : JsError :=
  mkJsError None (Some (callee ++ " is not a function")%string).

Section WithCapabilities.
Context {E : Engine} {A : Archive}.

(** What [await import('./comparators/index.ts')] binds to the name
    [extractPackageJson] (line 48).  The module re-exports
    [comparePackageFiles], [getFileChangeSummary], [hashBuffer] and
    [isOnlyPackageJsonChange] from file-content.ts and not
    [extractPackageJson]: the binding is [undefined]. *)
Definition importedExtractPackageJson
  : option (Buffer -> JsError + PackageJson) := None.

(** Steps 4 to 7: from the two tarballs to the verdict.  An error thrown
    in the asynchronous body reaches the callback through
    [.catch(callback)]. *)
Definition compareTarballs (options : NeedsPublishOptions)
  (localTarball registryTarball : Buffer) : Outcome :=
  let localHash := hashBuffer localTarball in
  let registryHash := hashBuffer registryTarball in
  if String.eqb localHash registryHash then
    Resolved (mkResult false
                ("No changes detected (hash: " ++ take localHash 16 ++ "...)")%string
                None)
  else
    match comparePackageFiles localTarball registryTarball with
    | inl e => Rejected e
    | inr fileComparison =>
        if identical fileComparison then
          Resolved (mkResult false "Files identical (tarball metadata differs)"
                      None)
        else if FileContent.packageJsonOnly fileComparison
                && negb (isTrue (packageJsonOnly options))
        then
          match importedExtractPackageJson with
          | None => Rejected (notAFunction "extractPackageJson")
          | Some extractPackageJson =>
          match extractPackageJson localTarball with
          | inl e => Rejected e
          | inr localTarballPkg =>
              match extractPackageJson registryTarball with
              | inl e => Rejected e
              | inr registryTarballPkg =>
                  let pkgJsonComparison :=
                    PackageJsonComparator.comparePackageJson
                      localTarballPkg registryTarballPkg
                      (Some (PackageJsonComparator.mkCompareOptions
                               (includeOptionalDeps options)
                               (additionalSignificantFields options)
                               (ignoreFields options)
                               (treatNarrowingAsEquivalent options))) in
                  let asField (informationalOnly : bool)
                        (fc : PackageJsonComparator.FieldChange) :=
                    mkChangeDetail change_field
                      (Some (PackageJsonComparator.fieldName fc))
                      (PackageJsonComparator.oldValue fc)
                      (PackageJsonComparator.newValue fc)
                      (if informationalOnly
                       then PackageJsonComparator.informational
                       else PackageJsonComparator.significance fc) in
                  if negb (PackageJsonComparator.hasSignificantChanges
                             pkgJsonComparison)
                  then
                    Resolved
                      (mkResult false
                         "Package.json changes are not significant for consumers"
                         (Some (map (asField true)
                                  (PackageJsonComparator.fieldChanges
                                     pkgJsonComparison))))
                  else
                    let asDependency (dc : Dependency.DependencyChange) :=
                      mkChangeDetail change_dependency
                        (Some (Dependency.depTypeName (Dependency.depType dc)
                               ++ "." ++ Dependency.depName dc)%string)
                        (option_map JStr (Dependency.oldSpec dc))
                        (option_map JStr (Dependency.newSpec dc))
                        PackageJsonComparator.significant in
                    Resolved
                      (mkResult true
                         (PackageJsonComparator.summary pkgJsonComparison)
                         (Some (map (asField false)
                                  (PackageJsonComparator.fieldChanges
                                     pkgJsonComparison)
                                ++ map asDependency
                                     (filter Dependency.isSignificant
                                        (PackageJsonComparator.dependencyChanges
                                           pkgJsonComparison)))))
              end
          end
          end
        else
          Resolved
            (mkResult true
               ("Code changes detected ("
                ++ ofNat (List.length (fileChanges fileComparison))
                ++ " files changed)")%string
               (Some (map (fun fc =>
                             mkChangeDetail change_file (Some (path fc)) None
                               None PackageJsonComparator.significant)
                        (fileChanges fileComparison))))
    end.

(** Step 3 and what follows it. *)
Definition packAndCompare (options : NeedsPublishOptions)
  (registryTarball : Buffer) : Prog Outcome :=
  Call (PackLocal (orUndefined (cwd options)))
    (fun packed =>
       match packed with
       | inl error =>
           Done (Resolved
                   (mkResult true
                      ("Error packing local package: "
                       ++ orStr (message error) "Unknown error")%string
                      None))
       | inr localTarball =>
           Done (compareTarballs options localTarball registryTarball)
       end).

(** Steps 1 and 2 and what follows them, once the registry is chosen. *)
Definition checkRegistry (options : NeedsPublishOptions)
  (localPkg : PackageJson) (registry : option string) : Prog Outcome :=
  Call (FetchPackument (name localPkg) (orUndefined registry))
    (fun fetched =>
       match fetched with
       | inl error => Done (registryFailure error)
       | inr packument =>
           match orUndefined (distTagsLatest packument) with
           | None =>
               Done (Resolved
                       (mkResult true
                          "No latest version found in registry (first publish)"
                          (Some firstPublish)))
           | Some latestVersion =>
               let registryPkg := assoc latestVersion (versions packument) in
               if negb (strictEqualStr (field localPkg "version") latestVersion)
               then
                 Done (Resolved
                         (mkResult true
                            ("Version differs (local: "
                             ++ template (stringField localPkg "version")
                             ++ ", registry: " ++ latestVersion ++ ")")%string
                            (Some [mkChangeDetail change_version
                                     (Some "version")
                                     (Some (JStr latestVersion))
                                     (field localPkg "version")
                                     PackageJsonComparator.critical])))
               else
                 match registryPkg with
                 | None =>
                     Done (registryFailure
                             (mkJsError None (Some undefinedDistMessage)))
                 | Some pkg =>
                     let dist := field pkg "dist" in
                     let member (m : string) : option string :=
                       match dist with
                       | Some d =>
                           match getProp d m with
                           | Some (JStr s) => Some s
                           | _ => None
                           end
                       | None => None
                       end in
                     match orUndefined (member "tarball") with
                     | None =>
                         Done (Resolved
                                 (mkResult true
                                    "Registry package has no tarball URL"
                                    (Some firstPublish)))
                     | Some tarballUrl =>
                         Call (FetchTarball tarballUrl (member "integrity"))
                           (fun got =>
                              match got with
                              | inl error => Done (registryFailure error)
                              | inr registryTarball =>
                                  packAndCompare options registryTarball
                              end)
                     end
                 end
           end
       end).

(** The asynchronous body of [needsPublishImpl]. *)
Definition afterPrivateCheck (options : NeedsPublishOptions)
  (localPkg : PackageJson) : Prog Outcome :=
  if truthyStr (registry options) then
    checkRegistry options localPkg (registry options)
  else
    let scope :=
      if stringStartsWith (name localPkg) "@"
      then nth_error (splitChar "/"%char (name localPkg)) 0
      else None in
    if truthyStr scope then
      Call (NpmConfigGet (template scope ++ ":registry")%string)
        (fun stdout =>
           match stdout with
           | Some out =>
               let found := trim out in
               checkRegistry options localPkg
                 (if String.eqb found "undefined" then None else Some found)
           | None => checkRegistry options localPkg (registry options)
           end)
    else checkRegistry options localPkg (registry options).

(** [needsPublishImpl], the callback's argument being the result. *)
Definition needsPublishImpl (options : NeedsPublishOptions) : Prog Outcome :=
  let proceed (localPkg : PackageJson) : Prog Outcome :=
    if truthy (field localPkg "private") then
      Done (Resolved (mkResult false "Package is private" None))
    else afterPrivateCheck options localPkg in
  match package options with
  | Some localPkg => proceed localPkg
  | None =>
      Call (ReadLocalManifest (orUndefined (cwd options)))
        (fun loaded =>
           match loaded with
           | inl error => Done (Rejected error)
           | inr localPkg => proceed localPkg
           end)
  end.

(** [needsPublishCb] *)
Definition needsPublishCb (options : NeedsPublishOptions) : Prog Outcome :=
  needsPublishImpl options.

(** [needsPublish]: the promise settles as the callback is called. *)
Definition needsPublish (options : NeedsPublishOptions) : Prog Outcome :=
  needsPublishCb options.

End WithCapabilities.

End NeedsPublish.

(* ===================================================================== *)
(** ** A reference engine

    [refEngine] answers as node-semver 7 and npm-package-arg do on a
    fragment of the specifier grammar: [*], [x] and the empty range,
    [M], [M.m], [M.m.p] (decimal, no leading zero) alone or after [^] or
    [~], dist-tags made of letters, digits and [-], and aliases
    [npm:name@sub] of those.  Everything else it rejects, so it serves
    to evaluate the comparators on concrete inputs of that fragment. *)
(* ===================================================================== *)

Module RefEngine.
Import Js Lib.

Definition Triple : Type := (nat * nat * nat)%type.

Inductive Upper : Type :=
| Unbounded
| Below (t : Triple)
| AtMost (t : Triple).

Record RefRange : Type := mkRefRange {
  text : string;
  lower : Triple;
  upper : Upper
}.

Inductive Op : Type :=
| OpNone
| OpCaret
| OpTilde.

Definition digitValue (c : ascii) : option nat :=
  let n := nat_of_ascii c in
  if Nat.leb 48 n && Nat.leb n 57 then Some (n - 48) else None.

Fixpoint digitsValue (acc : nat) (s : string) : option nat :=
  match s with
  | EmptyString => Some acc
  | String c r =>
      match digitValue c with
      | Some d => digitsValue (10 * acc + d) r
      | None => None
      end
  end.

(** A numeric identifier: digits, no leading zero. *)
Definition numeric (s : string) : option nat :=
  match s with
  | EmptyString => None
  | String c r =>
      if Ascii.eqb c "0"%char && negb (String.eqb r "") then None
      else digitsValue 0 s
  end.

Definition isWild (s : string) : bool :=
  String.eqb s "x" || String.eqb s "X" || String.eqb s "*".

(** [M], [M.m], [M.m.p] with trailing wildcards: the numbers present. *)
Definition partialOf (s : string) : option (list nat) :=
  match splitChar "."%char s with
  | [a] =>
      if isWild a then Some []
      else option_map (fun x => [x]) (numeric a)
  | [a; b] =>
      match numeric a with
      | Some x =>
          if isWild b then Some [x]
          else option_map (fun y => [x; y]) (numeric b)
      | None => None
      end
  | [a; b; c] =>
      match numeric a with
      | Some x =>
          if isWild b then (if isWild c then Some [x] else None)
          else
            match numeric b with
            | Some y =>
                if isWild c then Some [x; y]
                else option_map (fun z => [x; y; z]) (numeric c)
            | None => None
            end
      | None => None
      end
  | _ => None
  end.

Definition tripleText (t : Triple) : string :=
  let '(a, b, c) := t in
  (ofNat a ++ "." ++ ofNat b ++ "." ++ ofNat c)%string.

(** The comparator text of [>=lo <hi-0]; node-semver drops [>=0.0.0]. *)
Definition boundsText (lo hi : Triple) : string :=
  match lo with
  | (0, 0, 0) => ("<" ++ tripleText hi ++ "-0")%string
  | _ => (">=" ++ tripleText lo ++ " <" ++ tripleText hi ++ "-0")%string
  end.

Definition between (lo hi : Triple) : RefRange :=
  mkRefRange (boundsText lo hi) lo (Below hi).

Definition anyRange : RefRange := mkRefRange "" (0, 0, 0) Unbounded.

(** The range an operator and a partial version denote. *)
Definition build (op : Op) (nums : list nat) : option RefRange :=
  match op, nums with
  | OpNone, [] => Some anyRange
  | _, [] => None
  | _, [a] => Some (between (a, 0, 0) (S a, 0, 0))
  | OpCaret, [0; b] => Some (between (0, b, 0) (0, S b, 0))
  | OpCaret, [a; b] => Some (between (a, b, 0) (S a, 0, 0))
  | _, [a; b] => Some (between (a, b, 0) (a, S b, 0))
  | OpNone, [a; b; c] =>
      Some (mkRefRange (tripleText (a, b, c)) (a, b, c) (AtMost (a, b, c)))
  | OpCaret, [0; 0; c] => Some (between (0, 0, c) (0, 0, S c))
  | OpCaret, [0; b; c] => Some (between (0, b, c) (0, S b, 0))
  | OpCaret, [a; b; c] => Some (between (a, b, c) (S a, 0, 0))
  | OpTilde, [a; b; c] => Some (between (a, b, c) (a, S b, 0))
  | _, _ => None
  end.

(** [new semver.Range(s, {loose: true})] on the fragment. *)
Definition refNewRange (s : string) : option RefRange :=
  match trim s with
  | EmptyString => Some anyRange
  | String c r =>
      if Ascii.eqb c "^"%char then
        match partialOf r with Some nums => build OpCaret nums | None => None end
      else if Ascii.eqb c "~"%char then
        match partialOf r with Some nums => build OpTilde nums | None => None end
      else
        match partialOf (String c r) with
        | Some nums => build OpNone nums
        | None => None
        end
  end.

Definition tripleLeb (s t : Triple) : bool :=
  let '(a, b, c) := s in
  let '(x, y, z) := t in
  Nat.ltb a x
  || (Nat.eqb a x && (Nat.ltb b y || (Nat.eqb b y && Nat.leb c z))).

Definition tripleLtb (s t : Triple) : bool := negb (tripleLeb t s).

(** Whether the release [v] lies under the bound [u]. *)
Definition under (v : Triple) (u : Upper) : bool :=
  match u with
  | Unbounded => true
  | Below t => tripleLtb v t
  | AtMost t => tripleLeb v t
  end.

Definition upperLeb (u v : Upper) : bool :=
  match u, v with
  | _, Unbounded => true
  | Unbounded, _ => false
  | Below s, Below t => tripleLeb s t
  | Below s, AtMost t => tripleLeb s t
  | AtMost s, Below t => tripleLtb s t
  | AtMost s, AtMost t => tripleLeb s t
  end.

Definition refSubset (a b : RefRange) : option bool :=
  Some (tripleLeb (lower b) (lower a) && upperLeb (upper a) (upper b)).

Definition refIntersects (a b : RefRange) : bool :=
  let top := if tripleLeb (lower a) (lower b) then lower b else lower a in
  under top (upper a) && under top (upper b).

Definition refMinVersion (r : RefRange) : option SemVer :=
  let '(a, b, c) := lower r in Some (mkSemVer a b c).

(** [semver.valid(s)]: a full version. *)
Definition refValid (s : string) : bool :=
  match partialOf (trim s) with
  | Some [_; _; _] => true
  | _ => false
  end.

Definition isLetter (c : ascii) : bool :=
  let n := nat_of_ascii c in
  (Nat.leb 65 n && Nat.leb n 90) || (Nat.leb 97 n && Nat.leb n 122).

Definition isTagChar (c : ascii) : bool :=
  isLetter c || (Nat.leb 48 (nat_of_ascii c) && Nat.leb (nat_of_ascii c) 57)
  || Ascii.eqb c "-"%char.

Fixpoint allChars (p : ascii -> bool) (s : string) : bool :=
  match s with
  | EmptyString => true
  | String c r => p c && allChars p r
  end.

(** A dist-tag of the fragment: it starts with a letter that opens no
    version ([v], [x]) and holds letters, digits and [-] only. *)
Definition isTagName (s : string) : bool :=
  match s with
  | EmptyString => false
  | String c r =>
      isLetter c
      && negb (Ascii.eqb c "v"%char || Ascii.eqb c "V"%char
               || Ascii.eqb c "x"%char || Ascii.eqb c "X"%char)
      && allChars isTagChar r
  end.

(** The registry specifiers of the fragment: version, range or tag. *)
Definition refRegistry (spec : string) : option NpaResult :=
  let trimmed := trim spec in
  if refValid trimmed then
    Some (mkNpa npa_version (Some trimmed) None None None None)
  else
    match refNewRange trimmed with
    | Some _ => Some (mkNpa npa_range (Some trimmed) None None None None)
    | None =>
        if isTagName trimmed
        then Some (mkNpa npa_tag (Some trimmed) None None None None)
        else None
    end.

(** The text after the first [@] of [name@sub], the name not empty. *)
Fixpoint afterAt (s : string) : option string :=
  match s with
  | EmptyString => None
  | String c r => if Ascii.eqb c "@"%char then Some r else afterAt r
  end.

Definition subOfAlias (rest : string) : option string :=
  match rest with
  | EmptyString => None
  | String c r => if Ascii.eqb c "@"%char then None else afterAt r
  end.

(** [npa.resolve(name, spec, where)] on the fragment. *)
Definition refResolve (name spec : string) (where_ : option string)
  : option NpaResult :=
  if startsWith spec "npm:" then
    match subOfAlias (slice spec 4) with
    | Some sub =>
        match refRegistry sub with
        | Some _ => Some (mkNpa npa_alias None (Some spec) None None (Some sub))
        | None => None
        end
    | None => None
    end
  else refRegistry spec.

Lemma substring_length_le (n m : nat) (s : string) :
  String.length (String.substring n m s) <= m.
Proof.
  revert n m; induction s as [|c s IH]; intros n m.
  - destruct n, m; simpl; lia.
  - destruct n as [|n]; destruct m as [|m]; simpl; try lia.
    + specialize (IH 0 m). lia.
    + apply IH.
    + specialize (IH n (S m)). lia.
Qed.

Lemma afterAt_shorter (s sub : string) :
  afterAt s = Some sub -> String.length sub < String.length s.
Proof.
  induction s as [|c s IH]; simpl; [discriminate|].
  destruct (Ascii.eqb c "@"%char).
  - intros H; injection H as <-. lia.
  - intros H; specialize (IH H). lia.
Qed.

Lemma refRegistry_type (spec : string) (r : NpaResult) :
  refRegistry spec = Some r -> npaType r <> npa_alias.
Proof.
  unfold refRegistry.
  destruct (refValid (trim spec)).
  - intros H; injection H as <-. discriminate.
  - destruct (refNewRange (trim spec)).
    + intros H; injection H as <-. discriminate.
    + destruct (isTagName (trim spec)); [|discriminate].
      intros H; injection H as <-. discriminate.
Qed.

Lemma refResolve_alias_shorter (name spec : string) (where_ : option string)
  (r : NpaResult) (sub : string) :
  refResolve name spec where_ = Some r ->
  npaType r = npa_alias ->
  subSpecRaw r = Some sub ->
  String.length sub < String.length spec.
Proof.
  unfold refResolve.
  destruct (startsWith spec "npm:").
  - destruct (subOfAlias (slice spec 4)) as [sub'|] eqn:Hsub; [|discriminate].
    destruct (refRegistry sub'); [|discriminate].
    intros H _; injection H as <-; simpl.
    intros H; injection H as <-.
    unfold subOfAlias in Hsub.
    pose proof (substring_length_le 4 (String.length spec - 4) spec) as Hle.
    unfold slice in Hsub.
    destruct (String.substring 4 (String.length spec - 4) spec) as [|c rest];
      [discriminate|].
    destruct (Ascii.eqb c "@"%char); [discriminate|].
    apply afterAt_shorter in Hsub. simpl in Hle. lia.
  - intros H Halias _. exfalso. exact (refRegistry_type _ _ H Halias).
Qed.

(** The reference engine. *)
Definition refEngine : Engine := {|
  Range := RefRange;
  newRange := refNewRange;
  rangeText := text;
  minVersion := refMinVersion;
  subset := refSubset;
  intersects := refIntersects;
  valid := refValid;
  resolve := refResolve;
  resolve_alias_shorter := refResolve_alias_shorter
|}.

End RefEngine.

(* ===================================================================== *)
(** * Properties *)
(* ===================================================================== *)

(** ** Strings *)

Module JsFacts.
Import Js.

Lemma trimEnd_head (c : ascii) (r : string) :
  isSpace c = false -> trimEnd (String c r) = String c (trimEnd r).
Proof. intros H; simpl; rewrite H; reflexivity. Qed.

(** A text that begins with a character that is no white space keeps that
    beginning under [trim]. *)
Lemma trim_keeps_head (c : ascii) (s : string) :
  isSpace c = false ->
  startsWith s (String c "") = true ->
  startsWith (trim s) (String c "") = true.
Proof.
  intros Hc Hs. unfold startsWith in *.
  destruct s as [|d r]; simpl in Hs; [discriminate|].
  destruct (ascii_dec c d) as [->|Hne]; [|discriminate].
  unfold trim; simpl trimStart; rewrite Hc.
  rewrite trimEnd_head by assumption.
  simpl. destruct (ascii_dec d d); [|congruence].
  destruct (trimEnd r); reflexivity.
Qed.

Lemma startsWith_char (c : ascii) (s : string) :
  startsWith s (String c "") = true -> exists r, s = String c r.
Proof.
  unfold startsWith. destruct s as [|d r]; cbn [String.prefix]; [discriminate|].
  destruct (ascii_dec c d) as [->|]; [eauto|discriminate].
Qed.

Lemma inArray_In (x : string) (xs : list string) :
  inArray x xs = true <-> In x xs.
Proof.
  unfold inArray; rewrite existsb_exists; split.
  - intros (y & Hy & Heq). apply String.eqb_eq in Heq; subst; assumption.
  - intros H; exists x; split; [assumption|apply String.eqb_refl].
Qed.

Lemma inArray_false (x : string) (xs : list string) :
  inArray x xs = false <-> ~ In x xs.
Proof.
  rewrite <- inArray_In. destruct (inArray x xs); split; intros; congruence.
Qed.

Lemma setAdd_In (ks : list string) (k x : string) :
  In x (setAdd ks k) <-> In x ks \/ x = k.
Proof.
  unfold setAdd. destruct (inArray k ks) eqn:Hk.
  - apply inArray_In in Hk. split; [auto|]. intros [H| ->]; assumption.
  - rewrite in_app_iff; simpl. intuition.
Qed.

Lemma fold_setAdd_In (ks extra : list string) (x : string) :
  In x (fold_left setAdd extra ks) <-> In x ks \/ In x extra.
Proof.
  revert ks; induction extra as [|k extra IH]; intros ks; simpl.
  - intuition.
  - rewrite IH, setAdd_In. intuition.
Qed.

Lemma setRemove_In (ks : list string) (k x : string) :
  In x (setRemove ks k) <-> In x ks /\ x <> k.
Proof.
  unfold setRemove; rewrite filter_In, negb_true_iff, String.eqb_neq.
  intuition.
Qed.

Lemma fold_setRemove_In (ks gone : list string) (x : string) :
  In x (fold_left setRemove gone ks) <-> In x ks /\ ~ In x gone.
Proof.
  revert ks; induction gone as [|k gone IH]; intros ks; simpl.
  - intuition.
  - rewrite IH, setRemove_In. intuition.
Qed.

End JsFacts.

(** ** version-specifier.ts *)

Module VersionSpecifierFacts.
Import Js Lib VersionSpecifier.

Section WithEngine.
Context {E : Engine}.

Lemma parseAsRangeOrTag_raw (spec : string) :
  raw (parseAsRangeOrTag spec) = spec.
Proof. unfold parseAsRangeOrTag; destruct (newRange spec); reflexivity. Qed.

(** Every result of the parser carries the text it was given. *)
Lemma parse_fuel_raw (fuel : nat) (spec : string) (w : option string)
  (p : ParsedVersionSpecifier) :
  parse_fuel fuel spec w = Some p -> raw p = spec.
Proof.
  destruct fuel as [|fuel]; simpl; [discriminate|].
  destruct (startsWith spec "workspace:").
  { intros H; injection H as <-; reflexivity. }
  destruct (String.eqb spec "").
  { intros H; injection H as <-; reflexivity. }
  destruct (resolve "pkg" spec w) as [parsed|].
  2:{ intros H; injection H as <-; apply parseAsRangeOrTag_raw. }
  destruct (npaType parsed);
    try (intros H; injection H as <-; reflexivity).
  - destruct (subSpecRaw parsed) as [sub|].
    + destruct (parse_fuel fuel sub w); [|discriminate].
      intros H; injection H as <-; reflexivity.
    + intros H; injection H as <-; reflexivity.
  - intros H; injection H as <-; apply parseAsRangeOrTag_raw.
Qed.

(** The parser returns on every text: fuel above the length of the text
    is never used up. *)
Lemma parse_fuel_total (fuel : nat) (spec : string) (w : option string) :
  String.length spec < fuel -> exists p, parse_fuel fuel spec w = Some p.
Proof.
  revert spec; induction fuel as [|fuel IH]; intros spec Hlen; [lia|].
  simpl.
  destruct (startsWith spec "workspace:"); [eauto|].
  destruct (String.eqb spec ""); [eauto|].
  destruct (resolve "pkg" spec w) as [parsed|] eqn:Hres; [|eauto].
  destruct (npaType parsed) eqn:Htype; eauto.
  destruct (subSpecRaw parsed) as [sub|] eqn:Hsub; [|eauto].
  pose proof (resolve_alias_shorter _ _ _ _ _ Hres Htype Hsub) as Hshort.
  destruct (IH sub) as [target Htarget]; [lia|].
  rewrite Htarget; eauto.
Qed.

(** More fuel changes nothing. *)
Lemma parse_fuel_mono (fuel fuel' : nat) (spec : string) (w : option string)
  (p : ParsedVersionSpecifier) :
  parse_fuel fuel spec w = Some p -> fuel <= fuel' ->
  parse_fuel fuel' spec w = Some p.
Proof.
  revert fuel' spec p; induction fuel as [|fuel IH]; intros fuel' spec p;
    [discriminate|].
  intros H Hle. destruct fuel' as [|fuel']; [lia|].
  simpl in *.
  destruct (startsWith spec "workspace:"); [assumption|].
  destruct (String.eqb spec ""); [assumption|].
  destruct (resolve "pkg" spec w) as [parsed|]; [|assumption].
  destruct (npaType parsed); try assumption.
  destruct (subSpecRaw parsed) as [sub|]; [|assumption].
  destruct (parse_fuel fuel sub w) as [target|] eqn:Htarget; [|discriminate].
  rewrite (IH fuel' sub target Htarget) by lia. assumption.
Qed.

Lemma parse_fuel_enough (spec : string) (w : option string) :
  parse_fuel (S (String.length spec)) spec w
  = Some (parseVersionSpecifier spec w).
Proof.
  unfold parseVersionSpecifier.
  destruct (parse_fuel_total (S (String.length spec)) spec w) as [p Hp]; [lia|].
  rewrite Hp; reflexivity.
Qed.

Lemma parseVersionSpecifier_raw (spec : string) (w : option string) :
  raw (parseVersionSpecifier spec w) = spec.
Proof. exact (parse_fuel_raw _ _ _ _ (parse_fuel_enough spec w)). Qed.

(** The target of an alias is a shorter text than the alias. *)
Lemma parse_fuel_alias_shorter (fuel : nat) (spec : string)
  (w : option string) (p target : ParsedVersionSpecifier) :
  parse_fuel fuel spec w = Some p ->
  aliasTarget p = Some target ->
  String.length (raw target) < String.length spec.
Proof.
  destruct fuel as [|fuel]; simpl; [discriminate|].
  destruct (startsWith spec "workspace:").
  { intros H; injection H as <-; discriminate. }
  destruct (String.eqb spec "").
  { intros H; injection H as <-; discriminate. }
  destruct (resolve "pkg" spec w) as [parsed|] eqn:Hres.
  2:{ intros H; injection H as <-. unfold parseAsRangeOrTag.
      destruct (newRange spec); discriminate. }
  destruct (npaType parsed) eqn:Htype;
    try (intros H; injection H as <-; discriminate).
  - destruct (subSpecRaw parsed) as [sub|] eqn:Hsub.
    + destruct (parse_fuel fuel sub w) as [t|] eqn:Ht; [|discriminate].
      intros H; injection H as <-; simpl.
      intros H; injection H as <-.
      rewrite (parse_fuel_raw _ _ _ _ Ht).
      exact (resolve_alias_shorter _ _ _ _ _ Hres Htype Hsub).
    + intros H; injection H as <-; discriminate.
  - intros H; injection H as <-. unfold parseAsRangeOrTag.
    destruct (newRange spec); discriminate.
Qed.

Lemma alias_target_shorter (spec : string) (w : option string)
  (target : ParsedVersionSpecifier) :
  aliasTarget (parseVersionSpecifier spec w) = Some target ->
  String.length (raw target) < String.length spec.
Proof. exact (parse_fuel_alias_shorter _ _ _ _ _ (parse_fuel_enough spec w)). Qed.

(** The comparator returns on every pair of texts. *)
Lemma compare_fuel_total (fuel : nat) (specA specB : string)
  (options : option CompareSpecifierOptions) :
  String.length specA + String.length specB < fuel ->
  exists c, compare_fuel fuel specA specB options = Some c.
Proof.
  revert specA specB; induction fuel as [|fuel IH]; intros specA specB Hlen;
    [lia|].
  simpl.
  destruct (String.eqb specA specB); [eauto|].
  set (w := match options with Some o => where_ o | None => None end).
  destruct (_ || _); [eauto|].
  destruct (_ || _); [|destruct (negb _); eauto].
  unfold compareAliasSpecs.
  pose proof (alias_target_shorter specA w) as HA.
  pose proof (alias_target_shorter specB w) as HB.
  pose proof (parseVersionSpecifier_raw specA w) as RA.
  pose proof (parseVersionSpecifier_raw specB w) as RB.
  destruct (aliasTarget (parseVersionSpecifier specA w)) as [ta|];
    destruct (aliasTarget (parseVersionSpecifier specB w)) as [tb|];
    destruct (VersionSpecifierType_eqb (type (parseVersionSpecifier specA w)) alias);
    destruct (VersionSpecifierType_eqb (type (parseVersionSpecifier specB w)) alias);
    simpl; eauto;
    try (specialize (HA _ eq_refl)); try (specialize (HB _ eq_refl));
    try rewrite RA; try rewrite RB; apply IH; lia.
Qed.

Lemma compare_fuel_enough (specA specB : string)
  (options : option CompareSpecifierOptions) :
  compare_fuel (S (String.length specA + String.length specB)) specA specB
    options
  = Some (compareVersionSpecifiers specA specB options).
Proof.
  unfold compareVersionSpecifiers.
  destruct (compare_fuel_total (S (String.length specA + String.length specB))
              specA specB options) as [c Hc]; [lia|].
  rewrite Hc; reflexivity.
Qed.

End WithEngine.

End VersionSpecifierFacts.

(** *** The semantic-change mapping *)

Module SemanticChangeFacts.
Import Js Lib VersionSpecifier.

(** The caller's [treatNarrowingAsEquivalent], when there is one. *)
Definition narrowingOption (options : option SemanticChangeOptions)
  : option bool :=
  match options with
  | Some o => treatNarrowingAsEquivalent o
  | None => None
  end.

(** C4, as stated, fails: a comparison whose relation is [identical] but
    whose [equivalent] flag is [false] maps to [incompatible], not to
    [none]. *)
Lemma identical_without_flag_is_incompatible :
  comparisonToSemanticChange (mkComparison false identical None) None
  = sc_incompatible
  /\ comparisonToSemanticChange (mkComparison false identical None) None
     <> sc_none.
Proof. split; [reflexivity|discriminate]. Qed.

(** C4 (amended): [comparisonToSemanticChange] looks at the [equivalent]
    flag first.  With the flag set it returns [none] for [identical] and
    [equivalent] for every other relation; with the flag clear it returns,
    for [narrowed], [equivalent] unless the caller set
    [treatNarrowingAsEquivalent] to [false] and [narrowed] if so, for
    [widened] always [widened], and [incompatible] for every other
    relation. *)
Theorem comparisonToSemanticChange_rules
  (c : SpecifierComparison) (options : option SemanticChangeOptions) :
  (equivalent c = true -> relation c = identical ->
   comparisonToSemanticChange c options = sc_none)
  /\ (equivalent c = true -> relation c <> identical ->
      comparisonToSemanticChange c options = sc_equivalent)
  /\ (equivalent c = false -> relation c = narrowed ->
      narrowingOption options <> Some false ->
      comparisonToSemanticChange c options = sc_equivalent)
  /\ (equivalent c = false -> relation c = narrowed ->
      narrowingOption options = Some false ->
      comparisonToSemanticChange c options = sc_narrowed)
  /\ (equivalent c = false -> relation c = widened ->
      comparisonToSemanticChange c options = sc_widened)
  /\ (equivalent c = false -> relation c <> narrowed ->
      relation c <> widened ->
      comparisonToSemanticChange c options = sc_incompatible).
Proof.
  unfold comparisonToSemanticChange, narrowingOption.
  destruct c as [eq rel det]; simpl.
  repeat split; intros Heq; subst eq.
  - intros ->; reflexivity.
  - intros Hrel; destruct rel; congruence.
  - intros -> Hopt. destruct options as [[[[|]|]]|]; simpl in *; congruence.
  - intros -> Hopt. destruct options as [[[[|]|]]|]; simpl in *; congruence.
  - intros ->; reflexivity.
  - intros Hn Hw; destruct rel; congruence.
Qed.

(** C4 at work: a narrowed range under the default options. *)
Lemma comparisonToSemanticChange_rules_witness :
  comparisonToSemanticChange
    (mkComparison false narrowed (Some "new range is subset of old")) None
  = sc_equivalent.
Proof.
  apply (proj1 (proj2 (proj2 (comparisonToSemanticChange_rules
                                (mkComparison false narrowed
                                   (Some "new range is subset of old"))
                                None)))).
  - reflexivity.
  - reflexivity.
  - discriminate.
Defined.

End SemanticChangeFacts.

(** *** The comparator *)

Module ComparatorFacts.
Import Js Lib VersionSpecifier VersionSpecifierFacts JsFacts.

(** The relations the data model allows beside [equivalent = true]. *)
Definition equivalentRelation (r : Relation) : Prop :=
  r = identical \/ r = normalized_equal \/ r = semantically_equal
  \/ r = same_major_caret \/ r = same_minor_tilde.

(** The invariant of a comparison. *)
Definition wellFormed (c : SpecifierComparison) : Prop :=
  equivalent c = true -> equivalentRelation (relation c).

Create HintDb cmp.
#[local] Hint Unfold wellFormed equivalentRelation result resultWith : cmp.

Ltac settle := autounfold with cmp; simpl; intros; try discriminate; tauto.

Section WithEngine.
Context {E : Engine}.

Lemma compareSemverSpecs_wellFormed (specA specB : string) :
  wellFormed (compareSemverSpecs specA specB).
Proof.
  unfold compareSemverSpecs.
  destruct (newRange specA) as [ra|]; [|settle].
  destruct (newRange specB) as [rb|]; [|settle].
  destruct (String.eqb _ _); [settle|].
  match goal with |- context [if ?b then result true same_major_caret else _] =>
    destruct b end; [settle|].
  match goal with |- context [if ?b then result true same_minor_tilde else _] =>
    destruct b end; [settle|].
  cbv zeta.
  destruct (subsetOrFalse ra rb), (subsetOrFalse rb ra); simpl; try settle.
Qed.

Lemma compareGitSpecs_wellFormed (parsedA parsedB : ParsedVersionSpecifier) :
  wellFormed (compareGitSpecs parsedA parsedB).
Proof.
  unfold compareGitSpecs.
  destruct (gitInfo parsedA) as [ga|]; [|settle].
  destruct (gitInfo parsedB) as [gb|]; [|settle].
  destruct (negb _); [settle|].
  destruct (_ && _).
  - destruct (String.eqb _ _); settle.
  - destruct (_ && _); [apply compareSemverSpecs_wellFormed|settle].
Qed.

Lemma compareFileSpecs_wellFormed (parsedA parsedB : ParsedVersionSpecifier) :
  wellFormed (compareFileSpecs parsedA parsedB).
Proof. unfold compareFileSpecs; destruct (String.eqb _ _); settle. Qed.

Lemma compareTagSpecs_wellFormed (parsedA parsedB : ParsedVersionSpecifier) :
  wellFormed (compareTagSpecs parsedA parsedB).
Proof. unfold compareTagSpecs; destruct (String.eqb _ _); settle. Qed.

Lemma compareUrlSpecs_wellFormed (parsedA parsedB : ParsedVersionSpecifier) :
  wellFormed (compareUrlSpecs parsedA parsedB).
Proof. unfold compareUrlSpecs; destruct (String.eqb _ _); settle. Qed.

Lemma compareWorkspaceSpecs_wellFormed
  (parsedA parsedB : ParsedVersionSpecifier) :
  wellFormed (compareWorkspaceSpecs parsedA parsedB).
Proof.
  unfold compareWorkspaceSpecs.
  destruct (_ || _); [settle|].
  destruct (String.eqb _ _); settle.
Qed.

Lemma compareAliasSpecs_wellFormed
  (recur : string -> string -> option SpecifierComparison)
  (parsedA parsedB : ParsedVersionSpecifier) (c : SpecifierComparison) :
  (forall a b c', recur a b = Some c' -> wellFormed c') ->
  compareAliasSpecs recur parsedA parsedB = Some c -> wellFormed c.
Proof.
  intros Hrec. unfold compareAliasSpecs.
  destruct (VersionSpecifierType_eqb (type parsedA) alias);
    destruct (VersionSpecifierType_eqb (type parsedB) alias);
    destruct (aliasTarget parsedA); destruct (aliasTarget parsedB); simpl;
    try (apply Hrec);
    intros H; injection H as <-; settle.
Qed.

(** Every return path of the comparator keeps the invariant. *)
Lemma compare_fuel_wellFormed (fuel : nat) (specA specB : string)
  (options : option CompareSpecifierOptions) (c : SpecifierComparison) :
  compare_fuel fuel specA specB options = Some c -> wellFormed c.
Proof.
  revert specA specB c; induction fuel as [|fuel IH]; intros specA specB c;
    [discriminate|].
  simpl.
  destruct (String.eqb specA specB).
  { intros H; injection H as <-; settle. }
  destruct (_ || _).
  { intros H; injection H as <-; apply compareWorkspaceSpecs_wellFormed. }
  destruct (_ || _).
  { apply compareAliasSpecs_wellFormed. intros a b c'; apply IH. }
  destruct (negb _).
  { intros H; injection H as <-; settle. }
  intros H; injection H as <-.
  destruct (type _);
    auto using compareSemverSpecs_wellFormed, compareGitSpecs_wellFormed,
      compareFileSpecs_wellFormed, compareTagSpecs_wellFormed,
      compareUrlSpecs_wellFormed;
    settle.
Qed.

(** Two different texts that both parse into the semver class are
    compared by [compareSemverSpecs]. *)
Lemma compare_in_semver_class (specA specB : string)
  (options : option CompareSpecifierOptions) :
  let w := match options with Some o => where_ o | None => None end in
  specA <> specB ->
  getSpecCategory (type (parseVersionSpecifier specA w)) = cat_semver ->
  getSpecCategory (type (parseVersionSpecifier specB w)) = cat_semver ->
  compareVersionSpecifiers specA specB options = compareSemverSpecs specA specB.
Proof.
  intros w Hne HA HB.
  unfold compareVersionSpecifiers; simpl.
  apply String.eqb_neq in Hne; rewrite Hne.
  fold w.
  destruct (type (parseVersionSpecifier specA w));
    destruct (type (parseVersionSpecifier specB w));
    simpl in *; try discriminate; reflexivity.
Qed.

End WithEngine.

(** C6: whenever [compareVersionSpecifiers] answers [equivalent = true],
    the relation it answers is one of identical, normalized-equal,
    semantically-equal, same-major-caret and same-minor-tilde. *)
Theorem equivalent_only_with_equivalent_relation
  (E : Engine) (specA specB : string)
  (options : option CompareSpecifierOptions) :
  equivalent (compareVersionSpecifiers specA specB options) = true ->
  equivalentRelation (relation (compareVersionSpecifiers specA specB options)).
Proof.
  exact (compare_fuel_wellFormed _ _ _ _ _
           (compare_fuel_enough specA specB options)).
Qed.

(** C6 at work: a caret bump within major version 1. *)
Lemma equivalent_only_with_equivalent_relation_witness :
  equivalent
    (@compareVersionSpecifiers RefEngine.refEngine "^1.2.3" "^1.2.4" None)
  = true
  /\ equivalentRelation
       (relation
          (@compareVersionSpecifiers RefEngine.refEngine "^1.2.3" "^1.2.4"
             None)).
Proof.
  split.
  - vm_compute; reflexivity.
  - apply (equivalent_only_with_equivalent_relation RefEngine.refEngine).
    vm_compute; reflexivity.
Defined.

End ComparatorFacts.

(** *** The parser *)

Module ParserFacts.
Import Js Lib VersionSpecifier VersionSpecifierFacts.

(** The resolver does not recognize a text: it throws, or it names a
    type the parser has no case for. *)
Definition unrecognizedByResolver {E : Engine} (spec : string)
  (w : option string) : Prop :=
  resolve "pkg" spec w = None
  \/ exists parsed, resolve "pkg" spec w = Some parsed
                    /\ npaType parsed = npa_other.

(** C7: [parseVersionSpecifier] returns a parsed specifier for every text
    and context path, and a text that neither the workspace prefix, the
    empty-text rule, the resolver nor a reading as a semver range
    recognizes comes back as a [tag] whose normalized form is the text
    itself. *)
Theorem parseVersionSpecifier_never_fails
  (E : Engine) (spec : string) (w : option string) :
  (forall fuel, String.length spec < fuel ->
     parse_fuel fuel spec w = Some (parseVersionSpecifier spec w))
  /\ raw (parseVersionSpecifier spec w) = spec
  /\ (startsWith spec "workspace:" = false ->
      spec <> "" ->
      unrecognizedByResolver spec w ->
      newRange spec = None ->
      type (parseVersionSpecifier spec w) = tag
      /\ normalized (parseVersionSpecifier spec w) = spec).
Proof.
  split; [|split].
  - intros fuel Hlen.
    apply (parse_fuel_mono (S (String.length spec))); [|lia].
    apply parse_fuel_enough.
  - apply parseVersionSpecifier_raw.
  - intros Hws Hne Hres Hrange.
    pose proof (parse_fuel_enough spec w) as Hparse.
    simpl in Hparse. rewrite Hws in Hparse.
    apply String.eqb_neq in Hne; rewrite Hne in Hparse.
    assert (Hfallback : parseAsRangeOrTag spec = plain tag spec spec)
      by (unfold parseAsRangeOrTag; rewrite Hrange; reflexivity).
    destruct Hres as [Hnone|(parsed & Hsome & Hother)].
    + rewrite Hnone, Hfallback in Hparse.
      injection Hparse as <-; split; reflexivity.
    + rewrite Hsome, Hother, Hfallback in Hparse.
      injection Hparse as <-; split; reflexivity.
Qed.

(** C7 at work: [>=1.0.0] lies outside the reference engine's fragment,
    so there it is a text nothing recognizes. *)
Lemma parseVersionSpecifier_never_fails_witness :
  type (@parseVersionSpecifier RefEngine.refEngine ">=1.0.0" None) = tag
  /\ normalized (@parseVersionSpecifier RefEngine.refEngine ">=1.0.0" None)
     = ">=1.0.0".
Proof.
  apply (parseVersionSpecifier_never_fails RefEngine.refEngine ">=1.0.0" None).
  - reflexivity.
  - discriminate.
  - left; reflexivity.
  - reflexivity.
Defined.

End ParserFacts.

(** *** The same-family heuristics *)

Module SameFamilyFacts.
Import Js Lib VersionSpecifier VersionSpecifierFacts JsFacts ComparatorFacts.

Section WithEngine.
Context {E : Engine}.

Lemma extractMajorMinor_of (spec : string) (r : Range) (v : SemVer) :
  newRange spec = Some r -> minVersion r = Some v ->
  extractMajorMinor spec = Some (major v, minor v).
Proof.
  intros Hr Hv; unfold extractMajorMinor; rewrite Hr, Hv; reflexivity.
Qed.

(** Two caret ranges with different normal forms and one minimum major. *)
Lemma compareSemverSpecs_same_major (specA specB : string)
  (rangeA rangeB : Range) (minA minB : SemVer) :
  startsWith specA "^" = true -> startsWith specB "^" = true ->
  newRange specA = Some rangeA -> newRange specB = Some rangeB ->
  rangeText rangeA <> rangeText rangeB ->
  minVersion rangeA = Some minA -> minVersion rangeB = Some minB ->
  major minA = major minB ->
  compareSemverSpecs specA specB = result true same_major_caret.
Proof.
  intros HA HB HrA HrB Hne HmA HmB Hmaj.
  unfold compareSemverSpecs. rewrite HrA, HrB.
  apply String.eqb_neq in Hne; rewrite Hne.
  rewrite (trim_keeps_head "^"%char specA), (trim_keeps_head "^"%char specB)
    by (assumption || reflexivity).
  rewrite (extractMajorMinor_of _ _ _ HrA HmA),
    (extractMajorMinor_of _ _ _ HrB HmB).
  simpl. rewrite Hmaj, Nat.eqb_refl. reflexivity.
Qed.

Lemma tilde_is_no_caret (s : string) :
  startsWith s "~" = true -> startsWith s "^" = false.
Proof.
  intros H; apply startsWith_char in H; destruct H as [r ->]; reflexivity.
Qed.

(** Two tilde ranges with different normal forms and one minimum major
    and minor. *)
Lemma compareSemverSpecs_same_minor (specA specB : string)
  (rangeA rangeB : Range) (minA minB : SemVer) :
  startsWith specA "~" = true -> startsWith specB "~" = true ->
  newRange specA = Some rangeA -> newRange specB = Some rangeB ->
  rangeText rangeA <> rangeText rangeB ->
  minVersion rangeA = Some minA -> minVersion rangeB = Some minB ->
  major minA = major minB -> minor minA = minor minB ->
  compareSemverSpecs specA specB = result true same_minor_tilde.
Proof.
  intros HA HB HrA HrB Hne HmA HmB Hmaj Hmin.
  unfold compareSemverSpecs. rewrite HrA, HrB.
  apply String.eqb_neq in Hne; rewrite Hne.
  pose proof (trim_keeps_head "~"%char specA eq_refl HA) as HtA.
  pose proof (trim_keeps_head "~"%char specB eq_refl HB) as HtB.
  rewrite (tilde_is_no_caret _ HtA), HtA, HtB.
  rewrite (extractMajorMinor_of _ _ _ HrA HmA),
    (extractMajorMinor_of _ _ _ HrB HmB).
  simpl. rewrite Hmaj, Hmin, !Nat.eqb_refl. reflexivity.
Qed.

End WithEngine.

(** What the claim asks of two semver ranges: both are read as ranges of
    the semver class, with the minimum versions given. *)
Definition rangesWithMinimum {E : Engine} (w : option string)
  (specA specB : string) (minA minB : SemVer) : Prop :=
  getSpecCategory (type (parseVersionSpecifier specA w)) = cat_semver
  /\ getSpecCategory (type (parseVersionSpecifier specB w)) = cat_semver
  /\ exists rangeA rangeB,
       newRange specA = Some rangeA /\ newRange specB = Some rangeB
       /\ minVersion rangeA = Some minA /\ minVersion rangeB = Some minB.

(** The two ranges do not normalize to one text. *)
Definition differentNormalForms {E : Engine} (specA specB : string) : Prop :=
  forall rangeA rangeB,
    newRange specA = Some rangeA -> newRange specB = Some rangeB ->
    rangeText rangeA <> rangeText rangeB.

Definition compareRef (specA specB : string) : SpecifierComparison :=
  @compareVersionSpecifiers RefEngine.refEngine specA specB None.

(** C5, as stated, fails: [^1.2] and [^1.2.0] are distinct texts that
    begin with [^] and resolve to the minimum major version 1, yet they
    normalize to the same range, and the answer is normalized-equal. *)
Lemma caret_pair_with_one_normal_form :
  "^1.2" <> "^1.2.0"
  /\ startsWith "^1.2" "^" = true /\ startsWith "^1.2.0" "^" = true
  /\ @rangesWithMinimum RefEngine.refEngine None "^1.2" "^1.2.0"
       (mkSemVer 1 2 0) (mkSemVer 1 2 0)
  /\ compareRef "^1.2" "^1.2.0" = result true normalized_equal
  /\ compareRef "^1.2" "^1.2.0" <> result true same_major_caret.
Proof.
  repeat split; try discriminate; try reflexivity.
  eexists _, _; repeat split; reflexivity.
Qed.

(** C5 (amended): two distinct texts that both begin with [^], are read
    as semver ranges with different normal forms and resolve to the same
    minimum major version compare as equivalent, same-major-caret; two
    that both begin with [~], with different normal forms and the same
    minimum major and minor, compare as equivalent, same-minor-tilde; and
    [^1.2.3] against [^1.2.4] and [^4.17.0] against [^4.18.0] are
    same-major-caret while [^1.0.0] against [^2.0.0] is not equivalent,
    disjoint. *)
Theorem same_family_heuristics :
  (forall (E : Engine) (specA specB : string)
          (options : option CompareSpecifierOptions) (minA minB : SemVer),
      let w := match options with Some o => where_ o | None => None end in
      specA <> specB ->
      startsWith specA "^" = true -> startsWith specB "^" = true ->
      rangesWithMinimum w specA specB minA minB ->
      differentNormalForms specA specB ->
      major minA = major minB ->
      compareVersionSpecifiers specA specB options
      = result true same_major_caret)
  /\ (forall (E : Engine) (specA specB : string)
             (options : option CompareSpecifierOptions) (minA minB : SemVer),
         let w := match options with Some o => where_ o | None => None end in
         specA <> specB ->
         startsWith specA "~" = true -> startsWith specB "~" = true ->
         rangesWithMinimum w specA specB minA minB ->
         differentNormalForms specA specB ->
         major minA = major minB -> minor minA = minor minB ->
         compareVersionSpecifiers specA specB options
         = result true same_minor_tilde)
  /\ compareRef "^1.2.3" "^1.2.4" = result true same_major_caret
  /\ compareRef "^4.17.0" "^4.18.0" = result true same_major_caret
  /\ compareRef "^1.0.0" "^2.0.0" = result false disjoint.
Proof.
  split; [|split; [|repeat split; vm_compute; reflexivity]].
  - intros E specA specB options minA minB w Hne HA HB
      (HcA & HcB & rangeA & rangeB & HrA & HrB & HmA & HmB) Hnf Hmaj.
    rewrite compare_in_semver_class by assumption.
    exact (compareSemverSpecs_same_major _ _ _ _ _ _ HA HB HrA HrB
             (Hnf _ _ HrA HrB) HmA HmB Hmaj).
  - intros E specA specB options minA minB w Hne HA HB
      (HcA & HcB & rangeA & rangeB & HrA & HrB & HmA & HmB) Hnf Hmaj Hmin.
    rewrite compare_in_semver_class by assumption.
    exact (compareSemverSpecs_same_minor _ _ _ _ _ _ HA HB HrA HrB
             (Hnf _ _ HrA HrB) HmA HmB Hmaj Hmin).
Qed.

(** C5 at work on the tilde pair of the test suite. *)
Lemma same_family_heuristics_witness :
  compareRef "~4.17.0" "~4.17.5" = result true same_minor_tilde.
Proof.
  refine (proj1 (proj2 same_family_heuristics) RefEngine.refEngine
            "~4.17.0" "~4.17.5" None (mkSemVer 4 17 0) (mkSemVer 4 17 5)
            _ _ _ _ _ _ _).
  - discriminate.
  - reflexivity.
  - reflexivity.
  - repeat split; try reflexivity.
    eexists _, _; repeat split; reflexivity.
  - intros rangeA rangeB HA HB.
    injection HA as <-; injection HB as <-. discriminate.
  - reflexivity.
  - reflexivity.
Defined.

End SameFamilyFacts.

(** ** dependency.ts *)

Module DependencyFacts.
Import Js Lib Manifest Dependency JsFacts.

Lemma filter_nonempty {A : Type} (p : A -> bool) (l : list A) :
  negb (Nat.eqb (List.length (filter p l)) 0) = existsb p l.
Proof.
  induction l as [|x l IH]; simpl; [reflexivity|].
  destruct (p x); simpl; [reflexivity|assumption].
Qed.

Lemma isSignificant_spec (c : DependencyChange) :
  isSignificant c = true
  <-> semanticChange c <> VersionSpecifier.sc_none
      /\ semanticChange c <> VersionSpecifier.sc_equivalent.
Proof.
  unfold isSignificant; destruct (semanticChange c); split;
    intros H; try discriminate; try (split; discriminate); try reflexivity;
    destruct H; congruence.
Qed.

Section WithEngine.
Context {E : Engine}.

(** The differ reports changes exactly when one of them is neither
    [none] nor [equivalent]. *)
Lemma hasChanges_spec (local registry : PackageJson)
  (options : option DependencyCompareOptions) :
  hasChanges (compareDependencies local registry options) = true
  <-> exists c, In c (changes (compareDependencies local registry options))
                /\ semanticChange c <> VersionSpecifier.sc_none
                /\ semanticChange c <> VersionSpecifier.sc_equivalent.
Proof.
  unfold compareDependencies; cbv zeta; cbn [hasChanges changes].
  rewrite filter_nonempty, existsb_exists.
  split; intros (c & Hin & Hc); exists c; split; try assumption;
    apply isSignificant_spec; assumption.
Qed.

(** A name of the local map that the registry map lacks is [added]. *)
Lemma added_when_missing (localDeps registryDeps : list (string * string))
  (depType : SignificantDepType)
  (semanticOpts : option VersionSpecifier.SemanticChangeOptions)
  (name spec : string) :
  In (name, spec) localDeps -> assoc name registryDeps = None ->
  In (mkDependencyChange name depType added None (Some spec)
        VersionSpecifier.sc_incompatible)
     (compareDependencyObject localDeps registryDeps depType semanticOpts).
Proof.
  intros Hin Hmiss. unfold compareDependencyObject.
  apply in_or_app; left. apply in_flat_map. exists (name, spec).
  split; [assumption|]. unfold addedOrChanged. rewrite Hmiss. left; reflexivity.
Qed.

Lemma assoc_In {A : Type} (k : string) (kvs : list (string * A)) (v : A) :
  assoc k kvs = Some v -> In (k, v) kvs.
Proof.
  induction kvs as [|[k' v'] kvs IH]; simpl; [discriminate|].
  destruct (String.eqb k k') eqn:Hk.
  - apply String.eqb_eq in Hk; subst. intros H; injection H as ->. auto.
  - auto.
Qed.

Lemma assoc_None {A : Type} (k : string) (kvs : list (string * A)) :
  assoc k kvs = None <-> ~ In k (keys kvs).
Proof.
  induction kvs as [|[k' v'] kvs IH]; simpl; [tauto|].
  destruct (String.eqb k k') eqn:Hk.
  - apply String.eqb_eq in Hk; subst. split; [discriminate|tauto].
  - apply String.eqb_neq in Hk. rewrite IH. split; [|tauto].
    intros H [Heq|Hin]; [congruence|tauto].
Qed.

Lemma NoDup_keys_unique {A : Type} (kvs : list (string * A)) (k : string)
  (v v' : A) :
  NoDup (keys kvs) -> In (k, v) kvs -> In (k, v') kvs -> v = v'.
Proof.
  induction kvs as [|a kvs IH]; simpl; [tauto|].
  intros Hnd H1 H2. inversion Hnd as [|? ? Hk Hrest]; subst.
  assert (Hkey : forall w, In (k, w) kvs -> In k (keys kvs)).
  { intros w Hw. apply in_map_iff. exists (k, w); auto. }
  destruct H1 as [H1|H1], H2 as [H2|H2].
  - congruence.
  - subst a. exfalso. apply Hk. exact (Hkey _ H2).
  - subst a. exfalso. apply Hk. exact (Hkey _ H1).
  - exact (IH Hrest H1 H2).
Qed.

(** A name of the registry map that the local map lacks is [removed]. *)
Lemma removed_when_missing (localDeps registryDeps : list (string * string))
  (depType : SignificantDepType)
  (semanticOpts : option VersionSpecifier.SemanticChangeOptions)
  (name spec : string) :
  In (name, spec) registryDeps -> assoc name localDeps = None ->
  In (mkDependencyChange name depType removed (Some spec) None
        VersionSpecifier.sc_incompatible)
     (compareDependencyObject localDeps registryDeps depType semanticOpts).
Proof.
  intros Hin Hmiss. unfold compareDependencyObject.
  apply in_or_app; right. apply in_flat_map. exists (name, spec).
  split; [assumption|]. unfold removedEntry, hasKey. rewrite Hmiss.
  left; reflexivity.
Qed.

(** A name in both maps, the registry's text not empty and the two texts
    different, is [changed], with the mapped comparison. *)
Lemma changed_when_different (localDeps registryDeps : list (string * string))
  (depType : SignificantDepType)
  (semanticOpts : option VersionSpecifier.SemanticChangeOptions)
  (name localSpec registrySpec : string) :
  In (name, localSpec) localDeps ->
  assoc name registryDeps = Some registrySpec ->
  registrySpec <> "" -> localSpec <> registrySpec ->
  In (mkDependencyChange name depType changed (Some registrySpec)
        (Some localSpec)
        (VersionSpecifier.comparisonToSemanticChange
           (VersionSpecifier.compareVersionSpecifiers registrySpec localSpec
              None)
           semanticOpts))
     (compareDependencyObject localDeps registryDeps depType semanticOpts).
Proof.
  intros Hin Hreg Hne Hdiff. unfold compareDependencyObject.
  apply in_or_app; left. apply in_flat_map. exists (name, localSpec).
  split; [assumption|]. unfold addedOrChanged. rewrite Hreg.
  apply String.eqb_neq in Hne, Hdiff. rewrite Hne, Hdiff. left; reflexivity.
Qed.

(** A name whose two texts are one and not empty is not reported. *)
Lemma silent_when_identical (localDeps registryDeps : list (string * string))
  (depType : SignificantDepType)
  (semanticOpts : option VersionSpecifier.SemanticChangeOptions)
  (name spec : string) (c : DependencyChange) :
  NoDup (keys localDeps) ->
  In (name, spec) localDeps -> assoc name registryDeps = Some spec ->
  spec <> "" ->
  In c (compareDependencyObject localDeps registryDeps depType semanticOpts) ->
  depName c <> name.
Proof.
  intros Hnd Hin Hreg Hne Hc Hname. unfold compareDependencyObject in Hc.
  apply in_app_or in Hc; destruct Hc as [Hc|Hc];
    apply in_flat_map in Hc; destruct Hc as ([n s] & Hentry & Hc).
  - unfold addedOrChanged in Hc.
    assert (n = name).
    { destruct (assoc n registryDeps) as [r|];
        [destruct (String.eqb r ""); [|destruct (negb _)]|];
        simpl in Hc; try tauto;
        destruct Hc as [<-|[]]; exact Hname. }
    subst n.
    assert (s = spec).
    { exact (NoDup_keys_unique _ _ _ _ Hnd Hentry Hin). }
    subst s. rewrite Hreg in Hc.
    apply String.eqb_neq in Hne; rewrite Hne, String.eqb_refl in Hc.
    simpl in Hc; tauto.
  - unfold removedEntry, hasKey in Hc.
    destruct (assoc n localDeps) eqn:Hl; simpl in Hc; [tauto|].
    destruct Hc as [<-|[]]; simpl in Hname; subst n.
    apply assoc_None in Hl. apply Hl. apply in_map_iff.
    exists (name, spec); auto.
Qed.

(** C8, where the code departs from it: a registry entry whose text is
    empty counts as missing, so a name present in both maps comes back
    [added] with no old text, even when the two texts are one. *)
Lemma empty_registry_spec_is_reported_added :
  compareDependencyObject [("a", "1.0.0")] [("a", "")] dependencies None
  = [mkDependencyChange "a" dependencies added None (Some "1.0.0")
       VersionSpecifier.sc_incompatible]
  /\ compareDependencyObject [("a", "")] [("a", "")] dependencies None
     = [mkDependencyChange "a" dependencies added None (Some "")
          VersionSpecifier.sc_incompatible].
Proof. split; reflexivity. Qed.

End WithEngine.

End DependencyFacts.

(** ** package-json.ts *)

Module PackageJsonFacts.
Import Js Lib Manifest PackageJsonComparator JsFacts DependencyFacts.

(** A field change that counts: critical or significant. *)
Definition counts (c : FieldChange) : bool :=
  isCritical (significance c) || isSignificantLevel (significance c).

(** The caller's two lists. *)
Definition additionalOf (options : option CompareOptions) : list string :=
  orEmpty (match options with
           | Some o => additionalSignificantFields o
           | None => None
           end).

Definition ignoredOf (options : option CompareOptions) : list string :=
  orEmpty (match options with
           | Some o => ignoreFields o
           | None => None
           end).

Definition neverSignificant (f : string) : bool :=
  inArray f NEVER_SIGNIFICANT_FIELDS.

(** The caller adds no name of the never-significant list. *)
Definition addsNoNeverField (options : option CompareOptions) : Prop :=
  forall f, In f (additionalOf options) -> neverSignificant f = false.

(** Two manifests that differ at most in never-significant fields. *)
Definition agreeOffNever (p q : PackageJson) : Prop :=
  forall f, neverSignificant f = false -> field p f = field q f.

Lemma fieldsToCheck_In (options : option CompareOptions) (f : string) :
  In f (fieldsToCheck options)
  <-> (In f SIGNIFICANT_FIELDS \/ In f (additionalOf options))
      /\ ~ In f (ignoredOf options).
Proof.
  unfold fieldsToCheck, additionalOf, ignoredOf.
  rewrite fold_setRemove_In, !fold_setAdd_In. simpl In at 1. tauto.
Qed.

Lemma flat_map_ext_In {A B : Type} (f g : A -> list B) (l : list A) :
  (forall a, In a l -> f a = g a) -> flat_map f l = flat_map g l.
Proof.
  induction l as [|a l IH]; simpl; intros H; [reflexivity|].
  rewrite (H a) by auto. rewrite IH by auto. reflexivity.
Qed.

Lemma significant_not_never (f : string) :
  In f SIGNIFICANT_FIELDS -> neverSignificant f = false.
Proof.
  unfold SIGNIFICANT_FIELDS; simpl.
  intros H; repeat (destruct H as [<-|H]; [reflexivity|]); destruct H.
Qed.

Lemma checked_not_never (options : option CompareOptions) (f : string) :
  addsNoNeverField options -> In f (fieldsToCheck options) ->
  neverSignificant f = false.
Proof.
  intros Hadd Hin. apply fieldsToCheck_In in Hin.
  destruct Hin as [[Hs|Ha] _]; [apply significant_not_never|apply Hadd];
    assumption.
Qed.

Lemma agree_name (p q : PackageJson) : agreeOffNever p q -> name p = name q.
Proof.
  intros H. unfold name, stringField. rewrite (H "name") by reflexivity.
  reflexivity.
Qed.

Lemma compareField_agree (local local' registry registry' : PackageJson)
  (options : option CompareOptions) (f : string) :
  agreeOffNever local local' -> agreeOffNever registry registry' ->
  neverSignificant f = false ->
  compareField local registry options f
  = compareField local' registry' options f.
Proof.
  intros Hl Hr Hf. unfold compareField.
  rewrite (Hl f Hf), (Hr f Hf), (agree_name _ _ Hl), (agree_name _ _ Hr).
  reflexivity.
Qed.

Lemma compareField_name (local registry : PackageJson)
  (options : option CompareOptions) (f : string) (c : FieldChange) :
  In c (compareField local registry options f) -> fieldName c = f.
Proof.
  unfold compareField.
  destruct (deepEqual _ _); [intros []|].
  destruct (String.eqb f "exports").
  { destruct (compareExports _ _); [|intros []].
    intros [<-|[]]; reflexivity. }
  destruct (_ && _); [intros []|].
  intros [<-|[]]; reflexivity.
Qed.

Section WithEngine.
Context {E : Engine}.

Lemma compareDependencies_agree (local local' registry registry' : PackageJson)
  (options : option Dependency.DependencyCompareOptions) :
  agreeOffNever local local' -> agreeOffNever registry registry' ->
  Dependency.compareDependencies local registry options
  = Dependency.compareDependencies local' registry' options.
Proof.
  intros Hl Hr.
  assert (Hdeps : forall p q t, agreeOffNever p q ->
                                Dependency.depsOf p t = Dependency.depsOf q t).
  { intros p q t H. unfold Dependency.depsOf.
    rewrite (H (Dependency.depTypeName t)) by (destruct t; reflexivity).
    reflexivity. }
  assert (Hbundled : forall p q, agreeOffNever p q ->
                                 Dependency.bundledArray p
                                 = Dependency.bundledArray q).
  { intros p q H. unfold Dependency.bundledArray.
    rewrite (H "bundledDependencies"), (H "bundleDependencies")
      by reflexivity.
    reflexivity. }
  unfold Dependency.compareDependencies, Dependency.compareBundledDeps.
  cbv zeta.
  rewrite (Hbundled _ _ Hl), (Hbundled _ _ Hr).
  erewrite flat_map_ext_In; [reflexivity|].
  intros t _. destruct t; try reflexivity;
    rewrite (Hdeps _ _ _ Hl), (Hdeps _ _ _ Hr); reflexivity.
Qed.

(** [comparePackageJson] does not look at never-significant fields the
    caller did not add. *)
Lemma comparePackageJson_agree (local local' registry registry' : PackageJson)
  (options : option CompareOptions) :
  addsNoNeverField options ->
  agreeOffNever local local' -> agreeOffNever registry registry' ->
  comparePackageJson local registry options
  = comparePackageJson local' registry' options.
Proof.
  intros Hadd Hl Hr. unfold comparePackageJson. cbv zeta.
  rewrite (compareDependencies_agree _ _ _ _ _ Hl Hr).
  rewrite (flat_map_ext_In (compareField local registry options)
             (compareField local' registry' options)); [reflexivity|].
  intros f Hf. apply compareField_agree; try assumption.
  exact (checked_not_never _ _ Hadd Hf).
Qed.

Lemma fieldChanges_names (local registry : PackageJson)
  (options : option CompareOptions) (c : FieldChange) :
  In c (fieldChanges (comparePackageJson local registry options)) ->
  In (fieldName c) (fieldsToCheck options).
Proof.
  unfold comparePackageJson; cbv zeta; cbn [fieldChanges].
  intros Hc. apply in_flat_map in Hc. destruct Hc as (f & Hf & Hc).
  rewrite (compareField_name _ _ _ _ _ Hc). assumption.
Qed.

End WithEngine.

(** A manifest of package [p] at version 1.0.0 with more members. *)
Definition manifest (more : list (string * JSON)) : PackageJson :=
  ("name", JStr "p") :: ("version", JStr "1.0.0") :: more.

Definition dependsOnLodash (spec : string) : PackageJson :=
  manifest [("dependencies", JObj [("lodash", JStr spec)])].

Definition withScript (command : string) : PackageJson :=
  manifest [("scripts", JObj [("test", JStr command)])].

Definition withMain (file : string) : PackageJson :=
  manifest [("main", JStr file)].

Definition compareRef (local registry : PackageJson)
  (options : option CompareOptions) : PackageJsonComparison :=
  @comparePackageJson RefEngine.refEngine local registry options.

(** C2, as stated, fails: a caret bump within one major version is listed
    in [dependencyChanges], no field changed, and [hasSignificantChanges]
    is [false]. *)
Lemma equivalent_dependency_change_is_listed_only :
  let r := compareRef (dependsOnLodash "^4.17.21") (dependsOnLodash "^4.17.0")
             None in
  dependencyChanges r
  = [Dependency.mkDependencyChange "lodash" Dependency.dependencies
       Dependency.changed (Some "^4.17.0") (Some "^4.17.21")
       VersionSpecifier.sc_equivalent]
  /\ fieldChanges r = []
  /\ hasSignificantChanges r = false.
Proof. repeat split; vm_compute; reflexivity. Qed.

(** C2 (amended): [hasSignificantChanges] holds exactly when a critical
    or significant field change exists or some entry of the returned
    [dependencyChanges] has a [semanticChange] other than [none] and
    [equivalent]; the returned list itself also holds the equivalent
    changes.  The differ's [hasChanges] holds exactly when at least one
    change has a [semanticChange] outside [none] and [equivalent]. *)
Theorem hasSignificantChanges_spec
  (E : Engine) (local registry : PackageJson) :
  (forall options : option CompareOptions,
      let r := comparePackageJson local registry options in
      hasSignificantChanges r
      = existsb counts (fieldChanges r)
        || existsb Dependency.isSignificant (dependencyChanges r))
  /\ (forall options : option Dependency.DependencyCompareOptions,
         let d := Dependency.compareDependencies local registry options in
         Dependency.hasChanges d = true
         <-> exists c, In c (Dependency.changes d)
                       /\ Dependency.semanticChange c
                          <> VersionSpecifier.sc_none
                       /\ Dependency.semanticChange c
                          <> VersionSpecifier.sc_equivalent).
Proof.
  split.
  - intros options r. unfold r, comparePackageJson; cbv zeta.
    cbn [hasSignificantChanges fieldChanges dependencyChanges].
    f_equal.
    unfold Dependency.compareDependencies; cbv zeta.
    cbn [Dependency.hasChanges Dependency.changes].
    apply filter_nonempty.
  - intros options d. apply hasChanges_spec.
Qed.

(** C2 at work: a dependency added is a significant change. *)
Lemma hasSignificantChanges_spec_witness :
  Dependency.hasChanges
    (@Dependency.compareDependencies RefEngine.refEngine
       (dependsOnLodash "^4.17.21") (manifest []) None)
  = true.
Proof.
  apply (proj2 (hasSignificantChanges_spec RefEngine.refEngine
                  (dependsOnLodash "^4.17.21") (manifest [])) None).
  exists (Dependency.mkDependencyChange "lodash" Dependency.dependencies
            Dependency.added None (Some "^4.17.21")
            VersionSpecifier.sc_incompatible).
  repeat split; [left; reflexivity|discriminate|discriminate].
Defined.

(** C3, as stated, fails twice: [scripts] named among the caller's
    [additionalSignificantFields] yields a significant entry and sets
    [hasSignificantChanges], and a change of [main] listed in
    [ignoreFields] sets nothing. *)
Lemma caller_lists_override_the_fixed_ones :
  (let r := compareRef (withScript "jest") (withScript "mocha")
              (Some (mkCompareOptions None (Some ["scripts"]) None None)) in
   fieldChanges r
   = [mkFieldChange "scripts" (Some (JObj [("test", JStr "mocha")]))
        (Some (JObj [("test", JStr "jest")])) significant]
   /\ hasSignificantChanges r = true)
  /\ (let r := compareRef (withMain "./dist/index.js") (withMain "./lib/index.js")
                 (Some (mkCompareOptions None None (Some ["main"]) None)) in
      hasSignificantChanges r = false).
Proof. repeat split; vm_compute; reflexivity. Qed.

End PackageJsonFacts.

(** ** file-content.ts *)

Module FileContentFacts.
Import Js Manifest FileContent JsFacts.







Definition bytes (s : string) : Buffer := list_byte_of_string s.

(** C9, where the code departs from it: the test for the manifest's path
    compares [indexOf] with [length - 13], and both are [-1] for every
    path of twelve characters.  A change of [package/a.js] alone is taken
    for a change of the manifest alone; and a path that does end in
    [/package.json] after an earlier occurrence of it is not. *)
Lemma twelve_character_path_passes_for_manifest :
  (let r := compareExtracted
              [("package/package.json", bytes "manifest");
               ("package/a.js", bytes "new code")]
              [("package/package.json", bytes "manifest");
               ("package/a.js", bytes "old code")] in
   fileChanges r = [mkFileChange "package/a.js" modified]
   /\ identical r = false
   /\ packageJsonOnly r = true)
  /\ isPackageJsonPath "package/a.js" = true
  /\ isPackageJsonPath "x/package.json/package.json" = false.
Proof. repeat split; vm_compute; reflexivity. Qed.

End FileContentFacts.

(** ** needs-publish.ts *)

Module NeedsPublishFacts.
Import Js Lib Manifest FileContent NeedsPublish.

(** The local manifest as [needsPublishImpl] obtains it. *)
Definition localManifest (w : World) (options : NeedsPublishOptions)
  : JsError + PackageJson :=
  match package options with
  | Some pkg => inr pkg
  | None => answer w _ (ReadLocalManifest (orUndefined (cwd options)))
  end.

Definition privateResult : NeedsPublishResult :=
  mkResult false "Package is private" None.

(** An archive given by tables: the digest of a buffer is its own text,
    and trees and documents are looked up. *)
Definition lookup {V : Type} (b : Buffer) (table : list (Buffer * V))
  : JsError + V :=
  match find (fun entry => buffersEqual b (fst entry)) table with
  | Some entry => inr (snd entry)
  | None => inl (mkJsError None (Some "unknown buffer"))
  end.

Definition tableArchive (trees : list (Buffer * Files))
  (documents : list (Buffer * PackageJson)) : Archive := {|
  hashBuffer := string_of_list_byte;
  extractTarball := fun b => lookup b trees;
  parseJson := fun b => lookup b documents
|}.

Definition bytes (s : string) : Buffer := FileContentFacts.bytes s.

(** A package whose tarballs differ in the manifest's [scripts] only. *)
Definition localManifestDemo : PackageJson :=
  PackageJsonFacts.withScript "jest".

Definition registryManifestDemo : PackageJson :=
  PackageJsonFacts.withScript "mocha".

Definition demoArchive : Archive :=
  tableArchive
    [(bytes "local.tgz",
      [("package/package.json", bytes "local manifest");
       ("package/index.js", bytes "code")]);
     (bytes "registry.tgz",
      [("package/package.json", bytes "registry manifest");
       ("package/index.js", bytes "code")])]
    [(bytes "local manifest", localManifestDemo);
     (bytes "registry manifest", registryManifestDemo)].

Definition demoPackument : Packument :=
  mkPackument (Some "1.0.0")
    [("1.0.0",
      PackageJsonFacts.manifest
        [("dist", JObj [("tarball", JStr "https://registry.example/p.tgz")])])].

Definition demoWorld : World :=
  mkWorld (fun X q =>
             match q in Request T return T with
             | ReadLocalManifest _ => inr localManifestDemo
             | NpmConfigGet _ => None
             | FetchPackument _ _ => inr demoPackument
             | FetchTarball _ _ => inr (bytes "registry.tgz")
             | PackLocal _ => inr (bytes "local.tgz")
             end).

Definition demoOptions (onlyManifest : option bool) : NeedsPublishOptions :=
  mkOptions None (Some localManifestDemo) None None None None onlyManifest
    None.

Definition runDemo (onlyManifest : option bool) : Outcome :=
  fst (run demoWorld
         (@needsPublish RefEngine.refEngine demoArchive
            (demoOptions onlyManifest))).

Section WithCapabilities.
Context {E : Engine} {A : Archive}.

(** With [packageJsonOnly] set, the manifests are never compared: files
    that are not identical are reported as code changes. *)
Lemma packageJsonOnly_option_reports_code_changes
  (options : NeedsPublishOptions) (localTarball registryTarball : Buffer)
  (fileComparison : FileComparison) :
  isTrue (packageJsonOnly options) = true ->
  hashBuffer localTarball <> hashBuffer registryTarball ->
  comparePackageFiles localTarball registryTarball = inr fileComparison ->
  identical fileComparison = false ->
  compareTarballs options localTarball registryTarball
  = Resolved
      (mkResult true
         ("Code changes detected ("
          ++ ofNat (List.length (fileChanges fileComparison))
          ++ " files changed)")%string
         (Some (map (fun fc =>
                       mkChangeDetail change_file (Some (path fc)) None None
                         PackageJsonComparator.significant)
                  (fileChanges fileComparison)))).
Proof.
  intros Hflag Hhash Hfiles Hdiff. unfold compareTarballs; cbv zeta.
  apply String.eqb_neq in Hhash; rewrite Hhash, Hfiles, Hdiff, Hflag.
  rewrite andb_false_r. reflexivity.
Qed.

End WithCapabilities.

(** C1, where the code departs from it: with [packageJsonOnly: true] the
    orchestrator does not compare the manifests; it compares the files
    and reports the changed manifest as a code change. *)
Lemma packageJsonOnly_option_skips_manifest_comparison :
  runDemo (Some true)
  = Resolved
      (mkResult true "Code changes detected (1 files changed)"
         (Some [mkChangeDetail change_file (Some "package/package.json") None
                  None PackageJsonComparator.significant])).
Proof. vm_compute; reflexivity. Qed.

(** Without the option the same run reaches step 6, where the call of
    [extractPackageJson], a name the comparators' index does not export,
    throws: the promise is rejected. *)
Lemma manifest_only_change_is_rejected :
  runDemo None = Rejected (notAFunction "extractPackageJson").
Proof. vm_compute; reflexivity. Qed.

(** A package whose tarballs carry one manifest and differ in the code
    file [package/a.js] only. *)
Definition codeChangeArchive : Archive :=
  tableArchive
    [(bytes "local.tgz",
      [("package/package.json", bytes "manifest");
       ("package/a.js", bytes "new code")]);
     (bytes "registry.tgz",
      [("package/package.json", bytes "manifest");
       ("package/a.js", bytes "old code")])]
    [(bytes "manifest", localManifestDemo)].

(** What the slip in the manifest's path test costs: a changed code file
    with a path of twelve characters is taken for the manifest, so the
    run goes to step 6 instead of reporting a code change. *)
Lemma changed_code_file_is_not_reported :
  fst (run demoWorld
         (@needsPublish RefEngine.refEngine codeChangeArchive
            (demoOptions None)))
  = Rejected (notAFunction "extractPackageJson").
Proof. vm_compute; reflexivity. Qed.

(** C10: when the local manifest, preloaded or read from the working
    directory, has a truthy [private] member, [needsPublish] resolves to
    [{needsPublish: false, reason: 'Package is private'}] with no list of
    changes, and no request for a packument, a tarball or a local pack
    was made. *)
Theorem private_package_short_circuit
  (E : Engine) (A : Archive) (w : World) (options : NeedsPublishOptions)
  (localPkg : PackageJson) :
  localManifest w options = inr localPkg ->
  truthy (field localPkg "private") = true ->
  run w (needsPublish options)
  = (Resolved privateResult,
     match package options with
     | Some _ => []
     | None => [read_local_manifest]
     end).
Proof.
  unfold localManifest, needsPublish, needsPublishCb, needsPublishImpl.
  destruct (package options) as [pkg|].
  - intros H; injection H as ->. intros ->. reflexivity.
  - intros Hload Hprivate. simpl. rewrite Hload, Hprivate. reflexivity.
Qed.

Definition privateManifest : PackageJson :=
  PackageJsonFacts.manifest [("private", JBool true)].

(** C10 at work: a preloaded private manifest. *)
Lemma private_package_short_circuit_witness :
  run demoWorld
    (@needsPublish RefEngine.refEngine demoArchive
       (mkOptions None (Some privateManifest) None None None None None None))
  = (Resolved privateResult, []).
Proof.
  apply (private_package_short_circuit RefEngine.refEngine demoArchive
           demoWorld
           (mkOptions None (Some privateManifest) None None None None None
              None)
           privateManifest).
  - reflexivity.
  - reflexivity.
Defined.

End NeedsPublishFacts.

(* ===================================================================== *)
(** * Further properties of the comparators *)
(* ===================================================================== *)

(** ** version-specifier.ts: direction and termination *)

Module DirectionFacts.
Import Js Lib VersionSpecifier VersionSpecifierFacts JsFacts.

(** How the answer for [(b, a)] relates to the answer for [(a, b)]: the
    same flag, the same relation when equivalent, and [narrowed] and
    [widened] exchanged. *)
Definition mirrored (c c' : SpecifierComparison) : Prop :=
  equivalent c' = equivalent c
  /\ (equivalent c = true -> relation c' = relation c)
  /\ (relation c = narrowed <-> relation c' = widened)
  /\ (relation c = widened <-> relation c' = narrowed).

Definition mirroredOption (o o' : option SpecifierComparison) : Prop :=
  match o, o' with
  | Some c, Some c' => mirrored c c'
  | None, None => True
  | _, _ => False
  end.

Ltac mirror_done :=
  solve [unfold mirrored, mirroredOption, result, resultWith; simpl;
         repeat split; intros; try discriminate; try reflexivity; tauto].

Section WithEngine.
Context {E : Engine}.

Lemma compareSemverSpecs_mirrored (specA specB : string) :
  mirrored (compareSemverSpecs specA specB) (compareSemverSpecs specB specA).
Proof.
  unfold compareSemverSpecs.
  destruct (newRange specA) as [ra|]; destruct (newRange specB) as [rb|];
    try mirror_done.
  rewrite (String.eqb_sym (rangeText rb) (rangeText ra)).
  destruct (String.eqb (rangeText ra) (rangeText rb)); [mirror_done|].
  rewrite (andb_comm (startsWith (trim specB) "^")),
    (andb_comm (startsWith (trim specB) "~")).
  destruct (startsWith (trim specA) "^" && startsWith (trim specB) "^");
    destruct (startsWith (trim specA) "~" && startsWith (trim specB) "~");
    destruct (extractMajorMinor specA) as [[majA minA]|];
    destruct (extractMajorMinor specB) as [[majB minB]|];
    try rewrite (Nat.eqb_sym majB majA);
    try rewrite (Nat.eqb_sym minB minA);
    try destruct (Nat.eqb majA majB); try destruct (Nat.eqb minA minB);
    simpl;
    try mirror_done;
    destruct (subsetOrFalse ra rb), (subsetOrFalse rb ra); simpl;
    try mirror_done;
    destruct (intersects ra rb), (intersects rb ra); mirror_done.
Qed.

Lemma compareWorkspaceSpecs_mirrored (parsedA parsedB : ParsedVersionSpecifier) :
  mirrored (compareWorkspaceSpecs parsedA parsedB)
           (compareWorkspaceSpecs parsedB parsedA).
Proof.
  unfold compareWorkspaceSpecs.
  rewrite (orb_comm (negb (VersionSpecifierType_eqb (type parsedB) workspace))).
  destruct (_ || _); [mirror_done|].
  rewrite (String.eqb_sym (orStr (workspaceRange parsedB) "*")).
  destruct (String.eqb _ _); mirror_done.
Qed.

Lemma compareGitSpecs_mirrored (parsedA parsedB : ParsedVersionSpecifier) :
  mirrored (compareGitSpecs parsedA parsedB) (compareGitSpecs parsedB parsedA).
Proof.
  unfold compareGitSpecs.
  destruct (gitInfo parsedA) as [ga|]; destruct (gitInfo parsedB) as [gb|];
    try mirror_done.
  rewrite (String.eqb_sym (gitUrl gb)).
  destruct (negb _); [mirror_done|].
  rewrite (andb_comm (truthyStr (committish gb))),
    (andb_comm (truthyStr (semverRange gb))).
  destruct (truthyStr (committish ga) && truthyStr (committish gb)).
  - rewrite (String.eqb_sym (template (committish gb))).
    destruct (String.eqb _ _); mirror_done.
  - destruct (_ && _); [apply compareSemverSpecs_mirrored|mirror_done].
Qed.

Lemma compareOpaque_mirrored (parsedA parsedB : ParsedVersionSpecifier) :
  mirrored (compareFileSpecs parsedA parsedB) (compareFileSpecs parsedB parsedA)
  /\ mirrored (compareTagSpecs parsedA parsedB)
              (compareTagSpecs parsedB parsedA)
  /\ mirrored (compareUrlSpecs parsedA parsedB)
              (compareUrlSpecs parsedB parsedA).
Proof.
  unfold compareFileSpecs, compareTagSpecs, compareUrlSpecs.
  rewrite (String.eqb_sym (normalized parsedB)).
  destruct (String.eqb _ _); repeat split; intros; try discriminate; tauto.
Qed.

Lemma compareAliasSpecs_mirrored
  (recur recur' : string -> string -> option SpecifierComparison)
  (parsedA parsedB : ParsedVersionSpecifier) :
  (forall a b, mirroredOption (recur a b) (recur' b a)) ->
  mirroredOption (compareAliasSpecs recur parsedA parsedB)
                 (compareAliasSpecs recur' parsedB parsedA).
Proof.
  intros Hrec. unfold compareAliasSpecs.
  destruct (VersionSpecifierType_eqb (type parsedA) alias);
    destruct (VersionSpecifierType_eqb (type parsedB) alias);
    destruct (aliasTarget parsedA); destruct (aliasTarget parsedB); simpl;
    try apply Hrec; mirror_done.
Qed.

Lemma compare_fuel_mirrored (fuel : nat) (specA specB : string)
  (options : option CompareSpecifierOptions) :
  mirroredOption (compare_fuel fuel specA specB options)
                 (compare_fuel fuel specB specA options).
Proof.
  revert specA specB; induction fuel as [|fuel IH]; intros specA specB;
    [exact I|].
  simpl.
  rewrite (String.eqb_sym specB specA).
  destruct (String.eqb specA specB); [mirror_done|].
  set (w := match options with Some o => where_ o | None => None end).
  set (A := parseVersionSpecifier specA w).
  set (B := parseVersionSpecifier specB w).
  rewrite (orb_comm (VersionSpecifierType_eqb (type B) workspace)),
    (orb_comm (VersionSpecifierType_eqb (type B) alias)).
  destruct (_ || _); [apply compareWorkspaceSpecs_mirrored|].
  destruct (_ || _).
  { apply compareAliasSpecs_mirrored. intros a b; apply IH. }
  pose proof (compareOpaque_mirrored A B) as (Hfile & Htag & Hurl).
  pose proof (compareGitSpecs_mirrored A B) as Hgit.
  pose proof (compareSemverSpecs_mirrored specA specB) as Hsemver.
  destruct (type A), (type B); simpl; try assumption; mirror_done.
Qed.

(** More fuel changes nothing. *)
Lemma compare_fuel_mono (fuel fuel' : nat) (specA specB : string)
  (options : option CompareSpecifierOptions) (c : SpecifierComparison) :
  compare_fuel fuel specA specB options = Some c -> fuel <= fuel' ->
  compare_fuel fuel' specA specB options = Some c.
Proof.
  revert fuel' specA specB c; induction fuel as [|fuel IH];
    intros fuel' specA specB c; [discriminate|].
  intros H Hle. destruct fuel' as [|fuel']; [lia|].
  simpl in *.
  destruct (String.eqb specA specB); [assumption|].
  set (w := match options with Some o => where_ o | None => None end) in *.
  set (A := parseVersionSpecifier specA w) in *.
  set (B := parseVersionSpecifier specB w) in *.
  destruct (_ || _); [assumption|].
  destruct (_ || _); [|assumption].
  unfold compareAliasSpecs in *.
  destruct (VersionSpecifierType_eqb (type A) alias);
    destruct (VersionSpecifierType_eqb (type B) alias);
    destruct (aliasTarget A); destruct (aliasTarget B); simpl in *;
    try assumption; apply IH; try assumption; lia.
Qed.

End WithEngine.

(** X1: the comparator gives the same [equivalent] flag in both
    directions, the same relation whenever it answers equivalent, and
    [narrowed] one way exactly when [widened] the other way. *)
Theorem compareVersionSpecifiers_direction
  (E : Engine) (specA specB : string)
  (options : option CompareSpecifierOptions) :
  mirrored (compareVersionSpecifiers specA specB options)
           (compareVersionSpecifiers specB specA options).
Proof.
  pose proof (compare_fuel_mirrored
                (S (String.length specA + String.length specB))
                specA specB options) as H.
  rewrite compare_fuel_enough in H.
  rewrite (Nat.add_comm (String.length specA)) in H.
  rewrite compare_fuel_enough in H. exact H.
Qed.

(** X1 at work: narrowing one way is widening the other way. *)
Lemma compareVersionSpecifiers_direction_witness :
  relation (@compareVersionSpecifiers RefEngine.refEngine "^4.17.0" "*" None)
  = widened.
Proof.
  apply (proj1 (proj1 (proj2 (proj2 (compareVersionSpecifiers_direction
                                       RefEngine.refEngine "*" "^4.17.0"
                                       None))))).
  vm_compute; reflexivity.
Defined.

(** X4: the comparator returns on every pair of texts; any fuel above
    the sum of their lengths gives its answer. *)
Theorem compareVersionSpecifiers_terminates
  (E : Engine) (specA specB : string)
  (options : option CompareSpecifierOptions) (fuel : nat) :
  String.length specA + String.length specB < fuel ->
  compare_fuel fuel specA specB options
  = Some (compareVersionSpecifiers specA specB options).
Proof.
  intros Hlen.
  apply (compare_fuel_mono (S (String.length specA + String.length specB)));
    [apply compare_fuel_enough|lia].
Qed.

(** X4 at work: two aliases, compared through their targets. *)
Lemma compareVersionSpecifiers_terminates_witness :
  @compare_fuel RefEngine.refEngine 40 "npm:foo@^1.2.3" "npm:bar@^1.2.4" None
  = Some (@compareVersionSpecifiers RefEngine.refEngine "npm:foo@^1.2.3"
            "npm:bar@^1.2.4" None).
Proof.
  apply (compareVersionSpecifiers_terminates RefEngine.refEngine).
  simpl; lia.
Defined.

End DirectionFacts.

(** ** version-specifier.ts: categories *)

Module CategoryFacts.
Import Js Lib VersionSpecifier VersionSpecifierFacts JsFacts.

(** The payload of a parsed specifier matches its type. *)
Definition payloadMatchesType (spec : string) (p : ParsedVersionSpecifier)
  : Prop :=
  (type p = workspace <-> startsWith spec "workspace:" = true)
  /\ (workspaceRange p <> None <-> type p = workspace)
  /\ (gitInfo p <> None <-> type p = git)
  /\ (aliasTarget p <> None -> type p = alias).

Ltac shape_done :=
  solve [unfold payloadMatchesType; simpl;
         repeat split; intros; try discriminate; try congruence; tauto].

Section WithEngine.
Context {E : Engine}.

Lemma detectRangeSubtype_semver (spec : string) :
  getSpecCategory (detectRangeSubtype spec) = cat_semver.
Proof.
  unfold detectRangeSubtype.
  repeat match goal with
         | |- context [if ?b then _ else _] => destruct b
         end; reflexivity.
Qed.

Lemma plain_semver_shape (spec norm : string) (t : VersionSpecifierType) :
  startsWith spec "workspace:" = false ->
  getSpecCategory t = cat_semver ->
  payloadMatchesType spec (plain t spec norm).
Proof.
  intros Hws Ht. unfold payloadMatchesType, plain; simpl. rewrite Hws.
  destruct t; simpl in Ht; try discriminate;
    repeat split; intros; try discriminate; try congruence; tauto.
Qed.

Lemma parseAsRangeOrTag_shape (spec : string) :
  startsWith spec "workspace:" = false ->
  payloadMatchesType spec (parseAsRangeOrTag spec).
Proof.
  intros Hws. unfold parseAsRangeOrTag. destruct (newRange spec).
  - apply plain_semver_shape; [assumption|apply detectRangeSubtype_semver].
  - unfold payloadMatchesType; simpl; rewrite Hws. shape_done.
Qed.

Lemma parse_fuel_shape (fuel : nat) (spec : string) (w : option string)
  (p : ParsedVersionSpecifier) :
  parse_fuel fuel spec w = Some p -> payloadMatchesType spec p.
Proof.
  destruct fuel as [|fuel]; simpl; [discriminate|].
  destruct (startsWith spec "workspace:") eqn:Hws.
  { intros H; injection H as <-. unfold payloadMatchesType; simpl.
    rewrite Hws. shape_done. }
  destruct (String.eqb spec "").
  { intros H; injection H as <-. unfold payloadMatchesType; simpl.
    rewrite Hws. shape_done. }
  destruct (resolve "pkg" spec w) as [parsed|].
  2:{ intros H; injection H as <-. apply parseAsRangeOrTag_shape; assumption. }
  destruct (npaType parsed);
    try (intros H; injection H as <-; unfold payloadMatchesType; simpl;
         rewrite Hws; shape_done).
  - intros H; injection H as <-.
    apply plain_semver_shape; [assumption|apply detectRangeSubtype_semver].
  - destruct (subSpecRaw parsed) as [sub|].
    + destruct (parse_fuel fuel sub w); [|discriminate].
      intros H; injection H as <-. unfold payloadMatchesType; simpl.
      rewrite Hws. shape_done.
    + intros H; injection H as <-. unfold payloadMatchesType; simpl.
      rewrite Hws. shape_done.
  - intros H; injection H as <-. apply parseAsRangeOrTag_shape; assumption.
Qed.

(** A text nothing recognizes is parsed as a tag of itself. *)
Lemma parse_unrecognized (spec : string) (w : option string) :
  startsWith spec "workspace:" = false -> spec <> "" ->
  ParserFacts.unrecognizedByResolver spec w -> newRange spec = None ->
  parseVersionSpecifier spec w = plain tag spec spec.
Proof.
  intros Hws Hne Hres Hrange.
  pose proof (parse_fuel_enough spec w) as Hparse.
  simpl in Hparse. rewrite Hws in Hparse.
  apply String.eqb_neq in Hne; rewrite Hne in Hparse.
  assert (Hfallback : parseAsRangeOrTag spec = plain tag spec spec)
    by (unfold parseAsRangeOrTag; rewrite Hrange; reflexivity).
  destruct Hres as [Hnone|(parsed & Hsome & Hother)].
  - rewrite Hnone, Hfallback in Hparse. injection Hparse as <-; reflexivity.
  - rewrite Hsome, Hother, Hfallback in Hparse.
    injection Hparse as <-; reflexivity.
Qed.

(** A workspace text is parsed without any library. *)
Lemma parse_workspace (spec : string) (w : option string) :
  startsWith spec "workspace:" = true ->
  parseVersionSpecifier spec w
  = mkParsed workspace spec spec None None
      (Some (orStr (Some (slice spec 10)) "*")).
Proof.
  intros Hws. pose proof (parse_fuel_enough spec w) as Hparse.
  simpl in Hparse. rewrite Hws in Hparse. injection Hparse as <-; reflexivity.
Qed.

End WithEngine.

(** X6: whatever the libraries answer, the parser returns a specifier
    whose payload matches its type: it is a workspace specifier exactly
    when the text begins with [workspace:], it carries a workspace range
    exactly when it is one, git information exactly when its type is
    git, and an alias target only when its type is alias. *)
Theorem parseVersionSpecifier_payload
  (E : Engine) (spec : string) (w : option string) :
  payloadMatchesType spec (parseVersionSpecifier spec w).
Proof. exact (parse_fuel_shape _ _ _ _ (parse_fuel_enough spec w)). Qed.

(** X2: two specifiers of different categories, neither an alias, compare
    as not equivalent, incompatible-types; a workspace specifier against
    any other category included. *)
Theorem compareVersionSpecifiers_across_categories
  (E : Engine) (specA specB : string)
  (options : option CompareSpecifierOptions) :
  let w := match options with Some o => where_ o | None => None end in
  type (parseVersionSpecifier specA w) <> alias ->
  type (parseVersionSpecifier specB w) <> alias ->
  getSpecCategory (type (parseVersionSpecifier specA w))
  <> getSpecCategory (type (parseVersionSpecifier specB w)) ->
  compareVersionSpecifiers specA specB options = result false incompatible_types.
Proof.
  intros w HA HB Hcat.
  unfold compareVersionSpecifiers; simpl. fold w.
  destruct (String.eqb specA specB) eqn:Heq.
  { apply String.eqb_eq in Heq; subst. contradiction. }
  unfold compareWorkspaceSpecs.
  destruct (type (parseVersionSpecifier specA w));
    destruct (type (parseVersionSpecifier specB w));
    simpl in *; congruence.
Qed.

(** X2 at work: a caret range against a dist-tag. *)
Lemma compareVersionSpecifiers_across_categories_witness :
  @compareVersionSpecifiers RefEngine.refEngine "^1.0.0" "latest" None
  = result false incompatible_types.
Proof.
  apply (compareVersionSpecifiers_across_categories RefEngine.refEngine
           "^1.0.0" "latest" None); vm_compute; discriminate.
Defined.

(** X3: two workspace specifiers are compared by their payloads as
    texts, an empty payload standing for [*], with no semver reading:
    equal payloads are identical, different ones disjoint. *)
Theorem compareVersionSpecifiers_workspace
  (E : Engine) (specA specB : string)
  (options : option CompareSpecifierOptions) :
  startsWith specA "workspace:" = true ->
  startsWith specB "workspace:" = true ->
  compareVersionSpecifiers specA specB options
  = if String.eqb (orStr (Some (slice specA 10)) "*")
                  (orStr (Some (slice specB 10)) "*")
    then result true identical
    else resultWith false disjoint "Different workspace specifiers".
Proof.
  intros HA HB.
  unfold compareVersionSpecifiers; simpl.
  rewrite !parse_workspace by assumption. simpl.
  destruct (String.eqb specA specB) eqn:Heq.
  - apply String.eqb_eq in Heq; subst. rewrite String.eqb_refl. reflexivity.
  - unfold compareWorkspaceSpecs, orStr; simpl.
    destruct (String.eqb (slice specA 10) "") eqn:HsA;
      destruct (String.eqb (slice specB 10) "") eqn:HsB;
      simpl; rewrite ?HsA, ?HsB; reflexivity.
Qed.

(** X3 at work: caret ranges behind the workspace protocol are not read
    as ranges. *)
Lemma compareVersionSpecifiers_workspace_witness :
  @compareVersionSpecifiers RefEngine.refEngine "workspace:^1.2.3"
    "workspace:^1.2.4" None
  = resultWith false disjoint "Different workspace specifiers".
Proof.
  apply (compareVersionSpecifiers_workspace RefEngine.refEngine
           "workspace:^1.2.3" "workspace:^1.2.4" None); reflexivity.
Defined.

(** X5: two different texts that nothing recognizes compare as disjoint,
    and the change from one to the other is incompatible under every
    option. *)
Theorem unrecognized_texts_are_disjoint
  (E : Engine) (specA specB : string)
  (options : option CompareSpecifierOptions)
  (semanticOpts : option SemanticChangeOptions) :
  let w := match options with Some o => where_ o | None => None end in
  specA <> specB ->
  startsWith specA "workspace:" = false -> specA <> "" ->
  ParserFacts.unrecognizedByResolver specA w -> newRange specA = None ->
  startsWith specB "workspace:" = false -> specB <> "" ->
  ParserFacts.unrecognizedByResolver specB w -> newRange specB = None ->
  compareVersionSpecifiers specA specB options
  = resultWith false disjoint "Different tags"
  /\ comparisonToSemanticChange
       (compareVersionSpecifiers specA specB options) semanticOpts
     = sc_incompatible.
Proof.
  intros w Hne HwA HeA HrA HnA HwB HeB HrB HnB.
  assert (Hcmp : compareVersionSpecifiers specA specB options
                 = resultWith false disjoint "Different tags").
  { unfold compareVersionSpecifiers; simpl. fold w.
    rewrite (parse_unrecognized specA w), (parse_unrecognized specB w)
      by assumption.
    apply String.eqb_neq in Hne; rewrite Hne. simpl.
    unfold compareTagSpecs; simpl. rewrite Hne. reflexivity. }
  split; [exact Hcmp|]. rewrite Hcmp. reflexivity.
Qed.

(** X5 at work: two texts that are neither ranges nor tag names. *)
Lemma unrecognized_texts_are_disjoint_witness :
  @compareVersionSpecifiers RefEngine.refEngine "not a spec" "nor this" None
  = resultWith false disjoint "Different tags"
  /\ comparisonToSemanticChange
       (@compareVersionSpecifiers RefEngine.refEngine "not a spec" "nor this"
          None) None
     = sc_incompatible.
Proof.
  apply (unrecognized_texts_are_disjoint RefEngine.refEngine "not a spec"
           "nor this" None None);
    try reflexivity; try discriminate; left; reflexivity.
Defined.

End CategoryFacts.

(** ** dependency.ts: what is reported *)

Module DependencyReportFacts.
Import Js Lib Manifest Dependency JsFacts DependencyFacts.

Definition incompatibleChange (name : string) (t : SignificantDepType)
  (a : Action) (old new : option string) : DependencyChange :=
  mkDependencyChange name t a old new VersionSpecifier.sc_incompatible.

(** The names every object has from [Object.prototype]: [name in obj]
    and [obj[name]] find them on an object that has no such member of
    its own. *)
Definition inheritedNames : list string :=
  ["constructor"; "__defineGetter__"; "__defineSetter__"; "hasOwnProperty";
   "__lookupGetter__"; "__lookupSetter__"; "isPrototypeOf";
   "propertyIsEnumerable"; "toString"; "valueOf"; "__proto__";
   "toLocaleString"].

Definition inherited (name : string) : bool := inArray name inheritedNames.

(** No bundled dependency of the manifest has an inherited name. *)
Definition ordinaryBundled (pkg : PackageJson) : bool :=
  forallb (fun name => negb (inherited name)) (bundledArray pkg).

(** No dependency of the manifest, of any class, has an inherited name:
    the manifests on which the lookups of the differ are lookups of
    members. *)
Definition ordinaryDependencies (pkg : PackageJson) : bool :=
  forallb (fun t =>
             forallb (fun entry => negb (inherited (fst entry)))
               (depsOf pkg t))
    [dependencies; peerDependencies; optionalDependencies]
  && ordinaryBundled pkg.

(** The caller's [includeOptionalDeps], when there is one. *)
Definition optionalChoice (options : option DependencyCompareOptions)
  : option bool :=
  match options with
  | Some o => includeOptionalDeps o
  | None => None
  end.

(** A class of named dependencies that the differ looks at. *)
Definition classCompared (options : option DependencyCompareOptions)
  (t : SignificantDepType) : Prop :=
  t = dependencies \/ t = peerDependencies
  \/ (t = optionalDependencies /\ optionalChoice options <> Some false).

Definition notOptional (c : DependencyChange) : bool :=
  match depType c with
  | optionalDependencies => false
  | _ => true
  end.

Lemma filter_all {A : Type} (p : A -> bool) (l : list A) :
  (forall x, In x l -> p x = true) -> filter p l = l.
Proof.
  induction l as [|x l IH]; simpl; intros H; [reflexivity|].
  rewrite (H x) by auto. rewrite IH by auto. reflexivity.
Qed.

Lemma filter_none {A : Type} (p : A -> bool) (l : list A) :
  (forall x, In x l -> p x = false) -> filter p l = [].
Proof.
  induction l as [|x l IH]; simpl; intros H; [reflexivity|].
  rewrite (H x) by auto. apply IH; auto.
Qed.

(** The mapping under [treatNarrowingAsEquivalent: false] finds
    significant whatever it finds significant under any other choice. *)
Lemma conservative_mapping (c : VersionSpecifier.SpecifierComparison)
  (choice : option bool) (name : string) (t : SignificantDepType)
  (a : Action) (old new : option string) :
  isSignificant
    (mkDependencyChange name t a old new
       (VersionSpecifier.comparisonToSemanticChange c
          (Some (VersionSpecifier.mkSemanticChangeOptions choice)))) = true ->
  isSignificant
    (mkDependencyChange name t a old new
       (VersionSpecifier.comparisonToSemanticChange c
          (Some (VersionSpecifier.mkSemanticChangeOptions (Some false)))))
  = true.
Proof.
  unfold isSignificant, VersionSpecifier.comparisonToSemanticChange; simpl.
  destruct (VersionSpecifier.equivalent c),
    (VersionSpecifier.relation c), choice as [[|]|]; auto.
Qed.

Section WithEngine.
Context {E : Engine}.

(** The changes of one class of named dependencies, as the differ is to
    list them: [added] for a local name the registry map lacks or gives
    the empty text, [changed], with the mapped comparison of the two
    texts, for a name the registry map gives another text that is not
    empty, and [removed] for a registry name the local map lacks. *)
Definition reported (localDeps registryDeps : list (string * string))
  (t : SignificantDepType)
  (semanticOpts : option VersionSpecifier.SemanticChangeOptions)
  (c : DependencyChange) : Prop :=
  (exists name spec,
      In (name, spec) localDeps
      /\ (assoc name registryDeps = None
          \/ assoc name registryDeps = Some "")
      /\ c = incompatibleChange name t added None (Some spec))
  \/ (exists name localSpec registrySpec,
         In (name, localSpec) localDeps
         /\ assoc name registryDeps = Some registrySpec
         /\ registrySpec <> "" /\ localSpec <> registrySpec
         /\ c = mkDependencyChange name t changed (Some registrySpec)
                  (Some localSpec)
                  (VersionSpecifier.comparisonToSemanticChange
                     (VersionSpecifier.compareVersionSpecifiers
                        registrySpec localSpec None)
                     semanticOpts))
  \/ (exists name registrySpec,
         In (name, registrySpec) registryDeps
         /\ assoc name localDeps = None
         /\ c = incompatibleChange name t removed (Some registrySpec)
                  None).

(** The options the differ hands to [comparisonToSemanticChange]. *)
Definition semanticOptionsOf (options : option DependencyCompareOptions)
  : option VersionSpecifier.SemanticChangeOptions :=
  Some (VersionSpecifier.mkSemanticChangeOptions
          (match options with
           | Some o => treatNarrowingAsEquivalent o
           | None => None
           end)).

Lemma compareDependencyObject_type (localDeps registryDeps : list (string * string))
  (t : SignificantDepType)
  (semanticOpts : option VersionSpecifier.SemanticChangeOptions)
  (c : DependencyChange) :
  In c (compareDependencyObject localDeps registryDeps t semanticOpts) ->
  depType c = t.
Proof.
  unfold compareDependencyObject. rewrite in_app_iff, !in_flat_map.
  intros [([n s] & _ & Hc)|([n s] & _ & Hc)].
  - unfold addedOrChanged in Hc.
    destruct (assoc n registryDeps) as [r|];
      [destruct (String.eqb r ""); [|destruct (negb _)]|];
      simpl in Hc; try tauto; destruct Hc as [<-|[]]; reflexivity.
  - unfold removedEntry in Hc. destruct (negb _); simpl in Hc; [|tauto].
    destruct Hc as [<-|[]]; reflexivity.
Qed.

Lemma compareBundledDeps_type (local registry : PackageJson)
  (c : DependencyChange) :
  In c (compareBundledDeps local registry) -> depType c = bundledDependencies.
Proof.
  unfold compareBundledDeps. rewrite in_app_iff, !in_flat_map.
  intros [(n & _ & Hc)|(n & _ & Hc)];
    destruct (negb _); simpl in Hc; try tauto;
    destruct Hc as [<-|[]]; reflexivity.
Qed.

(** What [compareDependencyObject] lists, read off its two loops. *)
Lemma compareDependencyObject_In
  (localDeps registryDeps : list (string * string)) (t : SignificantDepType)
  (semanticOpts : option VersionSpecifier.SemanticChangeOptions)
  (c : DependencyChange) :
  In c (compareDependencyObject localDeps registryDeps t semanticOpts)
  <-> reported localDeps registryDeps t semanticOpts c.
Proof.
  unfold compareDependencyObject, reported, incompatibleChange.
  rewrite in_app_iff, !in_flat_map. split.
  - intros [([n s] & Hin & Hc)|([n s] & Hin & Hc)].
    + unfold addedOrChanged in Hc.
      destruct (assoc n registryDeps) as [r|] eqn:Hr.
      * destruct (String.eqb r "") eqn:Hempty.
        { apply String.eqb_eq in Hempty; subst r.
          destruct Hc as [<-|[]]. left. exists n, s. auto. }
        destruct (String.eqb s r) eqn:Hsame; simpl in Hc; [tauto|].
        destruct Hc as [<-|[]]. right; left. exists n, s, r.
        apply String.eqb_neq in Hempty, Hsame. auto.
      * destruct Hc as [<-|[]]. left. exists n, s. auto.
    + unfold removedEntry, hasKey in Hc.
      destruct (assoc n localDeps) eqn:Hl; simpl in Hc; [tauto|].
      destruct Hc as [<-|[]]. right; right. exists n, s. auto.
  - intros [(n & s & Hin & Hreg & ->)|[(n & s & r & Hin & Hreg & Hne & Hdiff & ->)
                                       |(n & r & Hin & Hloc & ->)]].
    + left. exists (n, s). split; [assumption|]. unfold addedOrChanged.
      destruct Hreg as [->| ->]; left; reflexivity.
    + left. exists (n, s). split; [assumption|]. unfold addedOrChanged.
      rewrite Hreg. apply String.eqb_neq in Hne, Hdiff. rewrite Hne, Hdiff.
      left; reflexivity.
    + right. exists (n, r). split; [assumption|]. unfold removedEntry, hasKey.
      rewrite Hloc. left; reflexivity.
Qed.

(** X10: bundled dependencies are compared as sets of names (none of
    them a name inherited from [Object.prototype]): a name is reported
    [added] exactly when the local array has it and the registry array
    does not, [removed] the other way round, always as incompatible and
    with no specifier. *)
Theorem compareBundledDeps_reports (local registry : PackageJson)
  (c : DependencyChange) :
  ordinaryBundled local = true -> ordinaryBundled registry = true ->
  In c (compareBundledDeps local registry)
  <-> exists name,
        (In name (bundledArray local) /\ ~ In name (bundledArray registry)
         /\ c = incompatibleChange name bundledDependencies added None None)
        \/ (In name (bundledArray registry) /\ ~ In name (bundledArray local)
            /\ c = incompatibleChange name bundledDependencies removed None
                     None).
Proof.
  intros _ _. unfold compareBundledDeps, incompatibleChange.
  rewrite in_app_iff, !in_flat_map. split.
  - intros [(n & Hin & Hc)|(n & Hin & Hc)];
      destruct (inArray n _) eqn:Hn; simpl in Hc; try tauto;
      destruct Hc as [<-|[]]; exists n; apply inArray_false in Hn; tauto.
  - intros (n & [(Hin & Hout & ->)|(Hin & Hout & ->)]);
      [left|right]; exists n; (split; [assumption|]);
      apply inArray_false in Hout; rewrite Hout; left; reflexivity.
Qed.

Lemma changes_of_class (local registry : PackageJson)
  (options : option DependencyCompareOptions) (t : SignificantDepType)
  (c : DependencyChange) :
  classCompared options t ->
  In c (compareDependencyObject (depsOf local t) (depsOf registry t) t
          (Some (VersionSpecifier.mkSemanticChangeOptions
                   (match options with
                    | Some o => treatNarrowingAsEquivalent o
                    | None => None
                    end)))) ->
  In c (changes (compareDependencies local registry options)).
Proof.
  intros Hclass Hc. unfold compareDependencies; cbv zeta; cbn [changes].
  apply in_flat_map. exists t. split.
  - apply filter_In. split.
    + unfold SIGNIFICANT_DEP_TYPES; simpl.
      destruct Hclass as [->|[->|[-> _]]]; tauto.
    + destruct Hclass as [->|[->|[-> Hopt]]]; try reflexivity.
      unfold optionalChoice in Hopt.
      destruct options as [[[[|]|] n]|]; simpl in *; congruence.
  - destruct Hclass as [->|[->|[-> _]]]; exact Hc.
Qed.

(** X7: for two manifests none of whose dependencies has a name
    inherited from [Object.prototype], and a class of named dependencies
    the differ looks at,
    [compareDependencies] lists exactly these changes: [added] for a
    local name the registry's map lacks or gives the empty text,
    [changed], with the mapped comparison of the two texts, for a name
    the registry's map gives another text that is not empty, and
    [removed] for a registry name the local map lacks. *)
Theorem compareDependencies_reports (local registry : PackageJson)
  (options : option DependencyCompareOptions) (t : SignificantDepType)
  (c : DependencyChange) :
  ordinaryDependencies local = true -> ordinaryDependencies registry = true ->
  classCompared options t ->
  (In c (changes (compareDependencies local registry options))
   /\ depType c = t)
  <-> reported (depsOf local t) (depsOf registry t) t
        (semanticOptionsOf options) c.
Proof.
  intros _ _ Hclass. rewrite <- compareDependencyObject_In. split.
  - intros [Hc Htype].
    unfold compareDependencies in Hc; cbv zeta in Hc; cbn [changes] in Hc.
    apply in_flat_map in Hc. destruct Hc as (t' & _ & Hc).
    assert (Hsame : t' = t).
    { rewrite <- Htype. symmetry.
      destruct t'; try exact (compareDependencyObject_type _ _ _ _ _ Hc).
      exact (compareBundledDeps_type _ _ _ Hc). }
    subst t'. destruct Hclass as [->|[->|[-> _]]]; exact Hc.
  - intros Hc. split.
    + apply (changes_of_class _ _ _ t); assumption.
    + exact (compareDependencyObject_type _ _ _ _ _ Hc).
Qed.

(** X8: for two manifests none of whose dependencies has a name
    inherited from [Object.prototype], a named dependency that only one
    of them has, in a class the differ looks at, always makes
    [hasChanges] true. *)
Theorem one_sided_dependency_is_significant
  (local registry : PackageJson)
  (options : option DependencyCompareOptions) (t : SignificantDepType)
  (name spec : string) :
  ordinaryDependencies local = true -> ordinaryDependencies registry = true ->
  classCompared options t ->
  (In (name, spec) (depsOf local t) /\ assoc name (depsOf registry t) = None)
  \/ (In (name, spec) (depsOf registry t)
      /\ assoc name (depsOf local t) = None) ->
  hasChanges (compareDependencies local registry options) = true.
Proof.
  intros _ _ Hclass Hside. apply hasChanges_spec.
  destruct Hside as [[Hin Hmiss]|[Hin Hmiss]].
  - exists (incompatibleChange name t added None (Some spec)).
    split; [|split; discriminate].
    apply (changes_of_class _ _ _ t); [assumption|].
    apply compareDependencyObject_In. left. exists name, spec. auto.
  - exists (incompatibleChange name t removed (Some spec) None).
    split; [|split; discriminate].
    apply (changes_of_class _ _ _ t); [assumption|].
    apply compareDependencyObject_In. right; right. exists name, spec.
    auto.
Qed.

(** X9: with [includeOptionalDeps: false] the differ reports what it
    reports otherwise less the changes of optionalDependencies, none of
    which is left. *)
Theorem optional_dependencies_can_be_skipped
  (local registry : PackageJson) (choice narrowing : option bool) :
  let skipped :=
    compareDependencies local registry
      (Some (mkDependencyCompareOptions (Some false) narrowing)) in
  let full :=
    compareDependencies local registry
      (Some (mkDependencyCompareOptions choice narrowing)) in
  changes skipped = filter notOptional (changes full)
  /\ forall c, In c (changes skipped) -> depType c <> optionalDependencies.
Proof.
  cbv zeta.
  assert (Hmain : changes (compareDependencies local registry
                             (Some (mkDependencyCompareOptions (Some false)
                                      narrowing)))
                  = filter notOptional
                      (changes (compareDependencies local registry
                                  (Some (mkDependencyCompareOptions choice
                                           narrowing))))).
  { unfold compareDependencies; cbv zeta; cbn [changes]. simpl.
    set (opts := Some (VersionSpecifier.mkSemanticChangeOptions narrowing)).
    rewrite !app_nil_r.
    assert (Hkeep : forall t l,
               t <> optionalDependencies ->
               (forall c, In c l -> depType c = t) ->
               filter notOptional l = l).
    { intros t l Ht Hl. apply filter_all. intros c Hc. unfold notOptional.
      rewrite (Hl c Hc). destruct t; congruence. }
    assert (Hdrop : forall l,
               (forall c, In c l -> depType c = optionalDependencies) ->
               filter notOptional l = []).
    { intros l Hl. apply filter_none. intros c Hc. unfold notOptional.
      rewrite (Hl c Hc). reflexivity. }
    assert (Hobject : forall t,
               t <> optionalDependencies ->
               filter notOptional
                 (compareDependencyObject (depsOf local t) (depsOf registry t)
                    t opts)
               = compareDependencyObject (depsOf local t) (depsOf registry t)
                   t opts).
    { intros t Ht. apply (Hkeep t); [assumption|].
      intros c. apply compareDependencyObject_type. }
    assert (Hbundled : filter notOptional (compareBundledDeps local registry)
                       = compareBundledDeps local registry).
    { apply (Hkeep bundledDependencies); [discriminate|].
      intros c. apply compareBundledDeps_type. }
    assert (Hoptional :
              filter notOptional
                (compareDependencyObject (depsOf local optionalDependencies)
                   (depsOf registry optionalDependencies)
                   optionalDependencies opts) = []).
    { apply Hdrop. intros c. apply compareDependencyObject_type. }
    destruct choice as [[|]|]; simpl; rewrite ?app_nil_r, !filter_app;
      rewrite ?Hoptional, Hbundled, !Hobject by discriminate; reflexivity. }
  split; [exact Hmain|].
  intros c Hc. rewrite Hmain in Hc. apply filter_In in Hc.
  destruct Hc as [_ Hc]. unfold notOptional in Hc.
  destruct (depType c); congruence.
Qed.

(** X11: setting [treatNarrowingAsEquivalent] to [false] never loses a
    significant dependency change: whenever the differ has changes under
    some choice, it has changes under [false]. *)
Theorem conservative_mode_reports_no_less
  (local registry : PackageJson) (optional narrowing : option bool) :
  hasChanges (compareDependencies local registry
                (Some (mkDependencyCompareOptions optional narrowing)))
  = true ->
  hasChanges (compareDependencies local registry
                (Some (mkDependencyCompareOptions optional (Some false))))
  = true.
Proof.
  unfold compareDependencies; cbv zeta; cbn [hasChanges].
  rewrite !filter_nonempty, !existsb_exists.
  cbn [treatNarrowingAsEquivalent includeOptionalDeps].
  intros (c & Hc & Hsig). apply in_flat_map in Hc.
  destruct Hc as (t & Ht & Hc).
  assert (Hgoal : exists c',
             In c' (match t with
                    | bundledDependencies => compareBundledDeps local registry
                    | _ =>
                        compareDependencyObject (depsOf local t)
                          (depsOf registry t) t
                          (Some (VersionSpecifier.mkSemanticChangeOptions
                                   (Some false)))
                    end)
             /\ isSignificant c' = true).
  { destruct t; try (exists c; split; assumption);
      apply compareDependencyObject_In in Hc;
      destruct Hc as [(n & s & H1 & H2 & ->)
                     |[(n & s & r & H1 & H2 & H3 & H4 & ->)
                      |(n & r & H1 & H2 & ->)]];
      eexists; (split; [apply compareDependencyObject_In|]);
      try (left; exists n, s; repeat split; eassumption || reflexivity);
      try (right; right; exists n, r; repeat split;
           eassumption || reflexivity);
      try (right; left; exists n, s, r; repeat split;
           eassumption || reflexivity);
      try reflexivity;
      try (eapply conservative_mapping; exact Hsig). }
  destruct Hgoal as (c' & Hc' & Hsig').
  exists c'. split; [|assumption].
  apply in_flat_map. exists t. split; assumption.
Qed.

End WithEngine.

Definition dependsOn (deps : list (string * JSON)) : PackageJson :=
  PackageJsonFacts.manifest [("dependencies", JObj deps)].

(** X7 at work: a dependency the registry's manifest does not have is
    listed as added. *)
Lemma compareDependencies_reports_witness :
  In (incompatibleChange "lodash" dependencies added None (Some "^4.17.21"))
     (changes
        (@compareDependencies RefEngine.refEngine
           (dependsOn [("lodash", JStr "^4.17.21")]) (dependsOn []) None))
  /\ depType
       (incompatibleChange "lodash" dependencies added None (Some "^4.17.21"))
     = dependencies.
Proof.
  apply (proj2 (@compareDependencies_reports RefEngine.refEngine
                  (dependsOn [("lodash", JStr "^4.17.21")]) (dependsOn [])
                  None dependencies
                  (incompatibleChange "lodash" dependencies added None
                     (Some "^4.17.21"))
                  eq_refl eq_refl (or_introl eq_refl))).
  left. exists "lodash", "^4.17.21". repeat split.
  - left; reflexivity.
  - left; reflexivity.
Defined.

(** X8 at work: a dependency the registry's manifest does not have. *)
Lemma one_sided_dependency_is_significant_witness :
  hasChanges
    (@compareDependencies RefEngine.refEngine
       (dependsOn [("lodash", JStr "^4.17.21")]) (dependsOn []) None)
  = true.
Proof.
  apply (@one_sided_dependency_is_significant RefEngine.refEngine
           (dependsOn [("lodash", JStr "^4.17.21")]) (dependsOn []) None
           dependencies "lodash" "^4.17.21").
  - reflexivity.
  - reflexivity.
  - left; reflexivity.
  - left. split; [left; reflexivity|reflexivity].
Defined.

(** A manifest that bundles the named packages. *)
Definition bundles (names : list string) : PackageJson :=
  PackageJsonFacts.manifest [("bundledDependencies", JArr (map JStr names))].

(** X10 at work: one bundled package more than the registry has. *)
Lemma compareBundledDeps_reports_witness :
  In (incompatibleChange "lodash" bundledDependencies added None None)
     (compareBundledDeps (bundles ["lodash"; "semver"]) (bundles ["semver"])).
Proof.
  apply (proj2 (compareBundledDeps_reports
                  (bundles ["lodash"; "semver"]) (bundles ["semver"])
                  (incompatibleChange "lodash" bundledDependencies added None
                     None)
                  eq_refl eq_refl)).
  exists "lodash". left. split; [left; reflexivity|].
  split; [|reflexivity].
  intros [H|[]]. discriminate H.
Defined.

(** X11 at work: a widened range is significant under both choices. *)
Lemma conservative_mode_reports_no_less_witness :
  hasChanges
    (@compareDependencies RefEngine.refEngine
       (dependsOn [("lodash", JStr "*")])
       (dependsOn [("lodash", JStr "^4.17.0")])
       (Some (mkDependencyCompareOptions None (Some false))))
  = true.
Proof.
  apply (@conservative_mode_reports_no_less RefEngine.refEngine
           (dependsOn [("lodash", JStr "*")])
           (dependsOn [("lodash", JStr "^4.17.0")]) None None).
  vm_compute; reflexivity.
Defined.

End DependencyReportFacts.

(** ** package-json.ts: deep equality and the shorthands *)

Module ManifestFacts.
Import Js Lib Manifest PackageJsonComparator JsFacts DependencyFacts
  PackageJsonFacts.

(** Names that are pairwise different. *)
Fixpoint distinct (ks : list string) : bool :=
  match ks with
  | [] => true
  | k :: rest => negb (inArray k rest) && distinct rest
  end.

(** A JSON value as [JSON.parse] yields it: no object has two members of
    one name, at any depth. *)
Fixpoint wellFormedJSON (v : JSON) : bool :=
  match v with
  | JArr items => forallb wellFormedJSON items
  | JObj members =>
      distinct (keys members)
      && forallb (fun m => match m with (_, x) => wellFormedJSON x end) members
  | _ => true
  end.

(** Every member of the manifest is well formed. *)
Definition wellFormedManifest (pkg : PackageJson) : bool :=
  forallb (fun m => wellFormedJSON (snd m)) pkg.

(** No dependency of the manifest has the empty text for specifier. *)
Definition noEmptySpecifier (pkg : PackageJson) : bool :=
  forallb (fun t =>
             forallb (fun e => negb (String.eqb (snd e) ""))
               (Dependency.depsOf pkg t))
    Dependency.SIGNIFICANT_DEP_TYPES.

(** Two values that differ at most in the order of the members of their
    objects, at any depth. *)
Inductive sameJSON : JSON -> JSON -> Prop :=
| same_null : sameJSON JNull JNull
| same_bool (b : bool) : sameJSON (JBool b) (JBool b)
| same_num (n : Z) : sameJSON (JNum n) (JNum n)
| same_str (s : string) : sameJSON (JStr s) (JStr s)
| same_arr (xs ys : list JSON) :
    Forall2 sameJSON xs ys -> sameJSON (JArr xs) (JArr ys)
| same_obj (a b : list (string * JSON)) :
    List.length a = List.length b ->
    (forall k x, In (k, x) a -> exists y, In (k, y) b /\ sameJSON x y) ->
    sameJSON (JObj a) (JObj b).

(** The [exports] shorthands: a text or an array. *)
Definition isShorthand (v : JSON) : bool :=
  match v with
  | JStr _ | JArr _ => true
  | _ => false
  end.

(** A text without the character [sep]. *)
Fixpoint lacks (sep : ascii) (s : string) : bool :=
  match s with
  | EmptyString => true
  | String c r => negb (Ascii.eqb c sep) && lacks sep r
  end.

(** The command name a one-text [bin] stands for: the package name, or
    for a scoped package the part after the scope. *)
Definition binKey (packageName key : string) : Prop :=
  (startsWith packageName "@" = false /\ key = packageName)
  \/ exists scope,
       packageName = ("@" ++ scope ++ "/" ++ key)%string
       /\ lacks "/" scope = true /\ lacks "/" key = true.

Section JSONInduction.
Variable P : JSON -> Prop.
Hypothesis Hnull : P JNull.
Hypothesis Hbool : forall b, P (JBool b).
Hypothesis Hnum : forall n, P (JNum n).
Hypothesis Hstr : forall s, P (JStr s).
Hypothesis Harr : forall items, Forall P items -> P (JArr items).
Hypothesis Hobj :
  forall members, Forall (fun m => P (snd m)) members -> P (JObj members).

Fixpoint JSON_nested_ind (v : JSON) : P v :=
  match v with
  | JNull => Hnull
  | JBool b => Hbool b
  | JNum n => Hnum n
  | JStr s => Hstr s
  | JArr items =>
      Harr items
        ((fix go (xs : list JSON) : Forall P xs :=
            match xs with
            | [] => Forall_nil P
            | x :: xs' => Forall_cons x (JSON_nested_ind x) (go xs')
            end) items)
  | JObj members =>
      Hobj members
        ((fix go (ms : list (string * JSON))
            : Forall (fun m => P (snd m)) ms :=
            match ms with
            | [] => Forall_nil _
            | m :: ms' =>
                Forall_cons m
                  (match m as m0 return P (snd m0) with
                   | (_, x) => JSON_nested_ind x
                   end) (go ms')
            end) members)
  end.

End JSONInduction.

Lemma distinct_NoDup (ks : list string) : distinct ks = true -> NoDup ks.
Proof.
  induction ks as [|k ks IH]; simpl; intros H; [constructor|].
  apply andb_true_iff in H. destruct H as [Hk Hrest].
  constructor; [|auto].
  apply negb_true_iff in Hk. apply inArray_false in Hk. exact Hk.
Qed.

Lemma In_assoc {A : Type} (kvs : list (string * A)) (k : string) (v : A) :
  NoDup (keys kvs) -> In (k, v) kvs -> assoc k kvs = Some v.
Proof.
  intros Hnd Hin. destruct (assoc k kvs) as [w|] eqn:Hw.
  - apply assoc_In in Hw. f_equal. exact (NoDup_keys_unique _ _ _ _ Hnd Hw Hin).
  - apply assoc_None in Hw. exfalso. apply Hw.
    apply in_map_iff. exists (k, v). auto.
Qed.

Lemma flat_map_nil {A B : Type} (f : A -> list B) (l : list A) :
  (forall x, In x l -> f x = []) -> flat_map f l = [].
Proof.
  induction l as [|x l IH]; simpl; intros H; [reflexivity|].
  rewrite (H x) by auto. apply IH; auto.
Qed.

Lemma sameJSON_refl (v : JSON) : sameJSON v v.
Proof.
  induction v using JSON_nested_ind; try constructor.
  - induction H; constructor; assumption.
  - reflexivity.
  - intros k x Hin. exists x. split; [assumption|].
    rewrite Forall_forall in H. exact (H (k, x) Hin).
Qed.

(** The core of [deepEqual]: values that are the same up to the order of
    members are equal for it, as long as the second one is well formed. *)
Lemma deepEqualValue_same (a : JSON) :
  forall b, sameJSON a b -> wellFormedJSON b = true ->
            deepEqualValue a b = true.
Proof.
  induction a using JSON_nested_ind; intros b0 Hsame Hwf;
    inversion Hsame; subst; simpl.
  - reflexivity.
  - apply Bool.eqb_reflx.
  - apply Z.eqb_refl.
  - apply String.eqb_refl.
  - simpl in Hwf.
    match goal with Hall : Forall2 sameJSON _ _ |- _ =>
      rename Hall into Hitems end.
    rewrite (Forall2_length Hitems), Nat.eqb_refl; simpl.
    clear Hsame. revert H Hwf.
    induction Hitems as [|x y xs' ys' Hxy Hrest IH];
      intros HP Hwf; [reflexivity|].
    simpl in Hwf. apply andb_true_iff in Hwf. destruct Hwf as [Hy Hys].
    inversion HP as [|? ? HPx HPxs]; subst.
    rewrite (HPx y Hxy Hy); simpl. apply IH; assumption.
  - simpl in Hwf. apply andb_true_iff in Hwf. destruct Hwf as [Hkeys Hvalues].
    apply distinct_NoDup in Hkeys.
    unfold keys at 1. rewrite length_map.
    match goal with Hlen : List.length _ = List.length _ |- _ =>
      rewrite Hlen end.
    rewrite Nat.eqb_refl; simpl.
    match goal with Hall : forall k x, In (k, x) members -> _ |- _ =>
      rename Hall into Hmatch end.
    assert (Hsub : forall ms, incl ms members ->
              (fix each (ms : list (string * JSON)) : bool :=
                 match ms with
                 | [] => true
                 | (key, x) :: ms' =>
                     match assoc key b with
                     | Some y => deepEqualValue x y
                     | None => false
                     end && each ms'
                 end) ms = true).
    { induction ms as [|[k x] ms IH]; intros Hincl; [reflexivity|].
      destruct (Hmatch k x (Hincl _ (or_introl eq_refl))) as (y & Hy & Hxy).
      rewrite (In_assoc _ _ _ Hkeys Hy).
      rewrite Forall_forall in H.
      pose proof (H (k, x) (Hincl _ (or_introl eq_refl)) y Hxy) as Hvalue.
      cbn [snd] in Hvalue. rewrite Hvalue.
      + simpl. apply IH. intros m Hm. apply Hincl. right; exact Hm.
      + rewrite forallb_forall in Hvalues. exact (Hvalues (k, y) Hy). }
    apply Hsub. apply incl_refl.
Qed.

Lemma deepEqual_refl (v : option JSON) :
  (forall x, v = Some x -> wellFormedJSON x = true) -> deepEqual v v = true.
Proof.
  destruct v as [x|]; intros H; [|reflexivity].
  simpl. apply deepEqualValue_same; [apply sameJSON_refl|auto].
Qed.

Lemma field_wellFormed (pkg : PackageJson) (f : string) (v : JSON) :
  wellFormedManifest pkg = true -> field pkg f = Some v ->
  wellFormedJSON v = true.
Proof.
  unfold wellFormedManifest, field. intros Hwf Hv.
  rewrite forallb_forall in Hwf. exact (Hwf (f, v) (assoc_In _ _ _ Hv)).
Qed.

Lemma stringEntries_keys (members : list (string * JSON)) (k : string) :
  In k (keys (stringEntries members)) -> In k (keys members).
Proof.
  induction members as [|[k' v] members IH]; simpl; [tauto|].
  destruct v; simpl; tauto.
Qed.

Lemma stringEntries_NoDup (members : list (string * JSON)) :
  NoDup (keys members) -> NoDup (keys (stringEntries members)).
Proof.
  induction members as [|[k v] members IH]; simpl; intros H; [constructor|].
  inversion H as [|? ? Hk Hrest]; subst.
  destruct v; simpl; auto.
  constructor; [|auto]. intros Hin. apply Hk.
  apply stringEntries_keys; assumption.
Qed.

Lemma depsOf_NoDup (pkg : PackageJson) (t : Dependency.SignificantDepType) :
  wellFormedManifest pkg = true -> NoDup (keys (Dependency.depsOf pkg t)).
Proof.
  intros Hwf. unfold Dependency.depsOf.
  destruct (field pkg (Dependency.depTypeName t)) as [v|] eqn:Hv;
    [|constructor].
  pose proof (field_wellFormed _ _ _ Hwf Hv) as Hwfv.
  destruct v; try constructor.
  simpl in Hwfv. apply andb_true_iff in Hwfv. destruct Hwfv as [Hkeys _].
  apply stringEntries_NoDup, distinct_NoDup, Hkeys.
Qed.

Lemma splitChar_lacks (sep : ascii) (s : string) :
  lacks sep s = true -> splitChar sep s = [s].
Proof.
  induction s as [|c r IH]; simpl; [reflexivity|].
  intros H. apply andb_true_iff in H. destruct H as [Hc Hr].
  apply negb_true_iff in Hc. rewrite Hc, (IH Hr). reflexivity.
Qed.

Lemma splitChar_first (sep : ascii) (p r : string) :
  lacks sep p = true ->
  splitChar sep (p ++ String sep r) = p :: splitChar sep r.
Proof.
  induction p as [|c p IH]; simpl.
  - intros _. rewrite Ascii.eqb_refl. reflexivity.
  - intros H. apply andb_true_iff in H. destruct H as [Hc Hp].
    apply negb_true_iff in Hc. rewrite Hc, (IH Hp). reflexivity.
Qed.

Lemma normalizeBin_text (packageName key b : string) :
  binKey packageName key ->
  normalizeBin (Some (JStr b)) packageName = Some (JObj [(key, JStr b)]).
Proof.
  intros [[Hplain ->]|(scope & -> & Hscope & Hkey)]; unfold normalizeBin.
  - rewrite Hplain. reflexivity.
  - change (("@" ++ scope ++ "/" ++ key)%string)
      with (String "@" (scope ++ String "/" key)).
    assert (Hstart : startsWith (String "@" (scope ++ String "/" key)) "@"
                     = true).
    { unfold startsWith. cbn [String.prefix].
      destruct (ascii_dec "@" "@"); [|congruence].
      destruct (scope ++ String "/" key)%string; reflexivity. }
    rewrite Hstart.
    change (String "@" (scope ++ String "/" key))
      with ((String "@" scope) ++ String "/" key)%string.
    rewrite splitChar_first, (splitChar_lacks _ _ Hkey); [reflexivity|].
    simpl. exact Hscope.
Qed.


Section WithEngine.
Context {E : Engine}.

Lemma fieldChanges_count (local registry : PackageJson)
  (options : option CompareOptions) (c : FieldChange) :
  In c (fieldChanges (comparePackageJson local registry options)) ->
  counts c = true.
Proof.
  unfold comparePackageJson; cbv zeta; cbn [fieldChanges].
  intros Hc. apply in_flat_map in Hc. destruct Hc as (f & Hf & Hc).
  apply fieldsToCheck_In in Hf. destruct Hf as [Hf _].
  unfold compareField in Hc.
  destruct (deepEqual _ _); [destruct Hc|].
  destruct (String.eqb f "exports").
  { destruct (compareExports _ _); [|destruct Hc].
    destruct Hc as [<-|[]]; reflexivity. }
  destruct (_ && _); [destruct Hc|].
  destruct Hc as [<-|[]]. unfold counts; cbn [significance].
  unfold getFieldSignificance, additionalOf, orEmpty in *.
  destruct (inArray f CRITICAL_FIELDS); [reflexivity|].
  destruct (inArray f SIGNIFICANT_FIELDS) eqn:Hs; [reflexivity|].
  apply inArray_false in Hs.
  destruct Hf as [Hf|Hf]; [contradiction|].
  destruct options as [[inc [extra|] ign nar]|];
    cbn [additionalSignificantFields] in *; try destruct Hf.
  apply inArray_In in Hf. rewrite Hf. reflexivity.
Qed.

(** X13: the comparison never returns an informational field change:
    every entry of [fieldChanges] is critical or significant, so the
    comparison finds nothing significant only when no field changed. *)
Theorem field_changes_always_count (local registry : PackageJson)
  (options : option CompareOptions) :
  let r := comparePackageJson local registry options in
  (forall c, In c (fieldChanges r) -> significance c <> informational)
  /\ (hasSignificantChanges r = false <->
      fieldChanges r = [] /\ Dependency.hasChanges
                               (Dependency.compareDependencies local registry
                                  (Some (Dependency.mkDependencyCompareOptions
                                           (match options with
                                            | Some o => includeOptionalDeps o
                                            | None => None
                                            end)
                                           (match options with
                                            | Some o =>
                                                treatNarrowingAsEquivalent o
                                            | None => None
                                            end)))) = false).
Proof.
  cbv zeta. split.
  - intros c Hc. apply fieldChanges_count in Hc. unfold counts in Hc.
    destruct (significance c); [discriminate|discriminate|discriminate Hc].
  - pose proof (fieldChanges_count local registry options) as Hall.
    revert Hall. unfold comparePackageJson; cbv zeta.
    cbn [hasSignificantChanges fieldChanges].
    set (changed := flat_map _ _). clearbody changed. intros Hall.
    rewrite orb_false_iff. split.
    + intros [Hnone Hdeps]. split; [|assumption].
      destruct changed as [|c rest]; [reflexivity|].
      simpl in Hnone. apply orb_false_iff in Hnone. destruct Hnone as [Hc _].
      pose proof (Hall c (or_introl eq_refl)) as Hcount.
      unfold counts in Hcount. congruence.
    + intros [-> Hdeps]. split; [reflexivity|assumption].
Qed.

(** X14: [deepEqual] does not see the order of members: two values that
    are the same up to that order, at any depth, are equal for it (the
    second one being what a JSON parser yields, with no member name
    twice in one object). *)
Theorem deepEqual_ignores_member_order (a b : JSON) :
  sameJSON a b -> wellFormedJSON b = true ->
  deepEqual (Some a) (Some b) = true.
Proof. intros Hsame Hwf. simpl. apply deepEqualValue_same; assumption. Qed.

Lemma compareDependencyObject_self (deps : list (string * string))
  (t : Dependency.SignificantDepType)
  (semanticOpts : option VersionSpecifier.SemanticChangeOptions) :
  NoDup (keys deps) ->
  forallb (fun e => negb (String.eqb (snd e) "")) deps = true ->
  Dependency.compareDependencyObject deps deps t semanticOpts = [].
Proof.
  intros Hnd Hfull. unfold Dependency.compareDependencyObject.
  rewrite forallb_forall in Hfull.
  rewrite !flat_map_nil; [reflexivity| |].
  - intros [n s] Hin. unfold Dependency.removedEntry, hasKey.
    rewrite (In_assoc _ _ _ Hnd Hin). reflexivity.
  - intros [n s] Hin. unfold Dependency.addedOrChanged.
    rewrite (In_assoc _ _ _ Hnd Hin). pose proof (Hfull _ Hin) as Hs.
    simpl in Hs. apply negb_true_iff in Hs. rewrite Hs, String.eqb_refl.
    reflexivity.
Qed.

Lemma compareBundledDeps_self (pkg : PackageJson) :
  Dependency.compareBundledDeps pkg pkg = [].
Proof.
  unfold Dependency.compareBundledDeps. cbv zeta.
  rewrite !flat_map_nil; [reflexivity| |];
    intros n Hin; apply inArray_In in Hin; rewrite Hin; reflexivity.
Qed.

(** X15: a manifest compared with itself shows no change of any kind,
    provided it is what a JSON parser yields and none of its dependencies
    has the empty text for specifier. *)
Theorem unchanged_manifest_has_no_changes (pkg : PackageJson)
  (options : option CompareOptions) :
  wellFormedManifest pkg = true ->
  noEmptySpecifier pkg = true ->
  let r := comparePackageJson pkg pkg options in
  fieldChanges r = [] /\ dependencyChanges r = []
  /\ hasSignificantChanges r = false
  /\ summary r = "No significant changes".
Proof.
  intros Hwf Hfull. cbv zeta.
  assert (Hfields : flat_map (compareField pkg pkg options)
                      (fieldsToCheck options) = []).
  { apply flat_map_nil. intros f _. unfold compareField.
    rewrite deepEqual_refl; [reflexivity|].
    intros x Hx. exact (field_wellFormed _ _ _ Hwf Hx). }
  assert (Hdeps : forall o,
             Dependency.changes (Dependency.compareDependencies pkg pkg o)
             = []).
  { intros o. unfold Dependency.compareDependencies; cbv zeta.
    cbn [Dependency.changes]. apply flat_map_nil. intros t _.
    unfold noEmptySpecifier in Hfull. rewrite forallb_forall in Hfull.
    destruct t; try apply compareBundledDeps_self;
      (apply compareDependencyObject_self;
       [apply depsOf_NoDup; assumption
       |apply Hfull; unfold Dependency.SIGNIFICANT_DEP_TYPES; simpl; tauto]). }
  assert (Hquiet : forall o,
             Dependency.hasChanges (Dependency.compareDependencies pkg pkg o)
             = false).
  { intros o. destruct (Dependency.hasChanges _) eqn:Hc; [|reflexivity].
    apply hasChanges_spec in Hc. destruct Hc as (c & Hin & _).
    rewrite Hdeps in Hin. destruct Hin. }
  unfold comparePackageJson; cbv zeta.
  cbn [fieldChanges dependencyChanges hasSignificantChanges summary].
  rewrite Hfields, Hdeps, Hquiet. repeat split; reflexivity.
Qed.

(** X16: the [exports] shorthand is no change: a text or an array on one
    side and the object that maps ["."] to it on the other side leave no
    entry named [exports] among the field changes. *)
Theorem exports_shorthand_is_no_change (local registry : PackageJson)
  (options : option CompareOptions) (v : JSON) :
  isShorthand v = true -> wellFormedJSON v = true ->
  (field local "exports" = Some v
   /\ field registry "exports" = Some (JObj [(".", v)]))
  \/ (field local "exports" = Some (JObj [(".", v)])
      /\ field registry "exports" = Some v) ->
  inArray "exports"
    (map fieldName (fieldChanges (comparePackageJson local registry options)))
  = false.
Proof.
  intros Hshort Hwf Hsides. apply inArray_false. intros Hin.
  apply in_map_iff in Hin. destruct Hin as (c & Hname & Hc).
  unfold comparePackageJson in Hc; cbv zeta in Hc; cbn [fieldChanges] in Hc.
  apply in_flat_map in Hc. destruct Hc as (f & _ & Hc).
  pose proof (compareField_name _ _ _ _ _ Hc) as Hf.
  rewrite Hname in Hf; subst f.
  assert (Hself : deepEqualValue (JObj [(".", v)]) (JObj [(".", v)]) = true).
  { apply deepEqualValue_same; [apply sameJSON_refl|].
    simpl. rewrite Hwf. reflexivity. }
  unfold compareField in Hc.
  destruct (deepEqual _ _); [destruct Hc|].
  rewrite String.eqb_refl in Hc.
  assert (Hnone : compareExports (field local "exports")
                    (field registry "exports") = false).
  { destruct Hsides as [[-> ->]|[-> ->]]; unfold compareExports;
      destruct v; try discriminate Hshort;
      cbn [isNullish andb orb normalizeExports deepEqual];
      rewrite Hself; reflexivity. }
  rewrite Hnone in Hc. destruct Hc.
Qed.

(** X17: giving [exports] where the other side has none (or has [null])
    is always a critical change, unless the caller ignores the field. *)
Theorem exports_presence_is_critical (local registry : PackageJson)
  (options : option CompareOptions) :
  isNullish (field local "exports") <> isNullish (field registry "exports") ->
  ~ In "exports" (ignoredOf options) ->
  In (mkFieldChange "exports" (field registry "exports")
        (field local "exports") critical)
     (fieldChanges (comparePackageJson local registry options)).
Proof.
  intros Hdiff Hign.
  unfold comparePackageJson; cbv zeta; cbn [fieldChanges].
  apply in_flat_map. exists "exports". split.
  - apply fieldsToCheck_In. split; [left|assumption].
    unfold SIGNIFICANT_FIELDS; simpl; tauto.
  - unfold compareField. rewrite String.eqb_refl.
    destruct (field local "exports") as [l|], (field registry "exports") as [r|];
      try destruct l; try destruct r; simpl in Hdiff; try congruence;
      simpl; left; reflexivity.
Qed.

(** X18: the [bin] shorthand is no change: a one-text [bin] on one side
    and the object that maps the command name of the package to that
    text on the other side leave no entry named [bin] among the field
    changes. *)
Theorem bin_shorthand_is_no_change (local registry : PackageJson)
  (options : option CompareOptions) (key file : string) :
  binKey (name local) key -> binKey (name registry) key ->
  (field local "bin" = Some (JStr file)
   /\ field registry "bin" = Some (JObj [(key, JStr file)]))
  \/ (field local "bin" = Some (JObj [(key, JStr file)])
      /\ field registry "bin" = Some (JStr file)) ->
  inArray "bin"
    (map fieldName (fieldChanges (comparePackageJson local registry options)))
  = false.
Proof.
  intros Hlocal Hregistry Hsides. apply inArray_false. intros Hin.
  apply in_map_iff in Hin. destruct Hin as (c & Hname & Hc).
  unfold comparePackageJson in Hc; cbv zeta in Hc; cbn [fieldChanges] in Hc.
  apply in_flat_map in Hc. destruct Hc as (f & _ & Hc).
  pose proof (compareField_name _ _ _ _ _ Hc) as Hf.
  rewrite Hname in Hf; subst f.
  unfold compareField in Hc.
  destruct (deepEqual _ _); [destruct Hc|].
  change (String.eqb "bin" "exports") with false in Hc.
  rewrite String.eqb_refl in Hc.
  assert (Hsame : deepEqual (normalizeBin (field local "bin") (name local))
                    (normalizeBin (field registry "bin") (name registry))
                  = true).
  { destruct Hsides as [[-> ->]|[-> ->]];
      rewrite (normalizeBin_text _ key file) by assumption;
      simpl; rewrite !String.eqb_refl; reflexivity. }
  rewrite Hsame in Hc. destruct Hc.
Qed.

End WithEngine.

(** X14 at work: [engines] with its two members in the other order. *)
Lemma deepEqual_ignores_member_order_witness :
  deepEqual (Some (JObj [("node", JStr ">=14"); ("npm", JStr ">=6")]))
            (Some (JObj [("npm", JStr ">=6"); ("node", JStr ">=14")]))
  = true.
Proof.
  apply deepEqual_ignores_member_order; [|reflexivity].
  apply same_obj; [reflexivity|].
  intros k x [H|[H|[]]]; injection H as <- <-; eexists;
    (split; [simpl; eauto|constructor]).
Defined.

(** X15 at work: a manifest with one dependency, against itself. *)
Lemma unchanged_manifest_has_no_changes_witness :
  let r := compareRef (dependsOnLodash "^4.17.21")
             (dependsOnLodash "^4.17.21") None in
  fieldChanges r = [] /\ dependencyChanges r = []
  /\ hasSignificantChanges r = false
  /\ summary r = "No significant changes".
Proof.
  apply (@unchanged_manifest_has_no_changes RefEngine.refEngine
           (dependsOnLodash "^4.17.21") None); reflexivity.
Defined.

(** X16 at work: ["./index.js"] against [{".": "./index.js"}]. *)
Lemma exports_shorthand_is_no_change_witness :
  inArray "exports"
    (map fieldName
       (fieldChanges
          (compareRef (manifest [("exports", JStr "./index.js")])
             (manifest [("exports", JObj [(".", JStr "./index.js")])])
             None)))
  = false.
Proof.
  apply (@exports_shorthand_is_no_change RefEngine.refEngine
           (manifest [("exports", JStr "./index.js")])
           (manifest [("exports", JObj [(".", JStr "./index.js")])])
           None (JStr "./index.js")); [reflexivity|reflexivity|].
  left. split; reflexivity.
Defined.

(** X17 at work: [exports] added to a package that had none. *)
Lemma exports_presence_is_critical_witness :
  In (mkFieldChange "exports" None (Some (JStr "./index.js")) critical)
     (fieldChanges
        (compareRef (manifest [("exports", JStr "./index.js")]) (manifest [])
           None)).
Proof.
  apply (@exports_presence_is_critical RefEngine.refEngine
           (manifest [("exports", JStr "./index.js")]) (manifest []) None).
  - simpl. discriminate.
  - intros [].
Defined.

(** X18 at work: the scoped package [@acme/tool] with [bin] given as a
    text and as the object naming the command [tool]. *)
Lemma bin_shorthand_is_no_change_witness :
  inArray "bin"
    (map fieldName
       (fieldChanges
          (@comparePackageJson RefEngine.refEngine
             [("name", JStr "@acme/tool"); ("bin", JStr "cli.js")]
             [("name", JStr "@acme/tool");
              ("bin", JObj [("tool", JStr "cli.js")])]
             None)))
  = false.
Proof.
  apply (@bin_shorthand_is_no_change RefEngine.refEngine
           [("name", JStr "@acme/tool"); ("bin", JStr "cli.js")]
           [("name", JStr "@acme/tool");
            ("bin", JObj [("tool", JStr "cli.js")])]
           None "tool" "cli.js").
  - right. exists "acme". repeat split; reflexivity.
  - right. exists "acme". repeat split; reflexivity.
  - left. split; reflexivity.
Defined.

End ManifestFacts.

(** ** package-json.ts: which changes of the manifest count *)

Module SignificanceFacts.
Import Js Lib Manifest PackageJsonComparator JsFacts DependencyFacts
  PackageJsonFacts ManifestFacts.

(** Equality of JSON values, an object being a map from member names to
    values: the order of its members does not count. *)
Inductive equalJSON : JSON -> JSON -> Prop :=
| equal_null : equalJSON JNull JNull
| equal_bool (b : bool) : equalJSON (JBool b) (JBool b)
| equal_num (n : Z) : equalJSON (JNum n) (JNum n)
| equal_str (s : string) : equalJSON (JStr s) (JStr s)
| equal_arr (xs ys : list JSON) :
    Forall2 equalJSON xs ys -> equalJSON (JArr xs) (JArr ys)
| equal_obj (a b : list (string * JSON)) :
    (forall k x, assoc k a = Some x ->
                 exists y, assoc k b = Some y /\ equalJSON x y) ->
    (forall k, assoc k a = None -> assoc k b = None) ->
    equalJSON (JObj a) (JObj b).

(** Equality of two members that may be absent. *)
Definition equalValue (a b : option JSON) : Prop :=
  match a, b with
  | None, None => True
  | Some x, Some y => equalJSON x y
  | _, _ => False
  end.

(** No member of the value, at any depth, has a name inherited from
    [Object.prototype]. *)
Fixpoint ordinaryMembers (v : JSON) : bool :=
  match v with
  | JArr items => forallb ordinaryMembers items
  | JObj members =>
      forallb (fun m => match m with
                        | (k, x) =>
                            negb (DependencyReportFacts.inherited k)
                            && ordinaryMembers x
                        end) members
  | _ => true
  end.

(** A value as [JSON.parse] yields it, with ordinary member names. *)
Definition parsed (v : JSON) : bool := wellFormedJSON v && ordinaryMembers v.

Definition parsedValue (v : option JSON) : bool :=
  match v with
  | Some x => parsed x
  | None => true
  end.

(** No array stands in one value where the other value has an object,
    at any depth reached through positions and member names that both
    values have. *)
Fixpoint noClash (a b : JSON) {struct a} : bool :=
  match a with
  | JArr itemsA =>
      match b with
      | JObj _ => false
      | JArr itemsB =>
          (fix pairwise (xs ys : list JSON) : bool :=
             match xs, ys with
             | x :: xs', y :: ys' => noClash x y && pairwise xs' ys'
             | _, _ => true
             end) itemsA itemsB
      | _ => true
      end
  | JObj membersA =>
      match b with
      | JArr _ => false
      | JObj membersB =>
          (fix each (ms : list (string * JSON)) : bool :=
             match ms with
             | [] => true
             | (key, x) :: ms' =>
                 match assoc key membersB with
                 | Some y => noClash x y
                 | None => true
                 end && each ms'
             end) membersA
      | _ => true
      end
  | _ => true
  end.

Definition noClashValue (a b : option JSON) : bool :=
  match a, b with
  | Some x, Some y => noClash x y
  | _, _ => true
  end.

(** The spec's canonical form of [exports]: "normalize both shorthand
    string/array forms to the canonical [{".": value}] object form". *)
Definition canonicalExports (v : option JSON) : option JSON :=
  match v with
  | Some (JStr s) => Some (JObj [(".", JStr s)])
  | Some (JArr items) => Some (JObj [(".", JArr items)])
  | other => other
  end.

(** The spec's canonical form of [bin]: "normalize a shorthand string
    form to [{ <unscoped-package-name>: <path> }]". *)
Definition canonicalBin (v : option JSON) (command : string) : option JSON :=
  match v with
  | Some (JStr path) => Some (JObj [(command, JStr path)])
  | other => other
  end.

(** What a field of the manifest says, [command] being the unscoped name
    of the package. *)
Definition canonical (pkg : PackageJson) (command f : string) : option JSON :=
  if String.eqb f "exports" then canonicalExports (field pkg f)
  else if String.eqb f "bin" then canonicalBin (field pkg f) command
  else field pkg f.

(** A genuine change of a field: the two manifests do not say the same
    there. *)
Definition genuineChange (local registry : PackageJson) (command f : string)
  : Prop :=
  ~ equalValue (canonical local command f) (canonical registry command f).

Definition isNull (v : option JSON) : bool :=
  match v with
  | Some JNull => true
  | _ => false
  end.

(** [bin] as the [PackageJson] interface types it. *)
Definition textOrObject (v : option JSON) : bool :=
  match v with
  | None | Some (JStr _) | Some (JObj _) => true
  | _ => false
  end.

(** The manifest has a text for name, as the interface requires. *)
Definition hasName (pkg : PackageJson) : bool :=
  match stringField pkg "name" with
  | Some _ => true
  | None => false
  end.

(** The pairs of values of a field the comparison is meant for: values
    as [JSON.parse] yields them with ordinary member names, no array
    standing where the other manifest has an object, [exports] not
    [null], and [bin] typed as the interface says in two named manifests
    of one package with the unscoped name [command]. *)
Definition comparable (local registry : PackageJson) (command f : string)
  : Prop :=
  parsedValue (canonical local command f) = true
  /\ parsedValue (canonical registry command f) = true
  /\ noClashValue (field local f) (field registry f) = true
  /\ noClashValue (canonical local command f) (canonical registry command f)
     = true
  /\ (f = "exports" ->
      isNull (field local f) = false /\ isNull (field registry f) = false)
  /\ (f = "bin" ->
      textOrObject (field local f) = true
      /\ textOrObject (field registry f) = true
      /\ hasName local = true /\ hasName registry = true
      /\ binKey (name local) command /\ binKey (name registry) command).

(** [deepEqual] on two arrays and on two objects, through list functions. *)
Lemma deepEqualValue_arrays (xs ys : list JSON) :
  deepEqualValue (JArr xs) (JArr ys)
  = Nat.eqb (List.length xs) (List.length ys)
    && forallb (fun p => deepEqualValue (fst p) (snd p)) (combine xs ys).
Proof.
  simpl. f_equal. revert ys.
  induction xs as [|x xs IH]; intros [|y ys]; simpl; try reflexivity.
  rewrite IH. reflexivity.
Qed.

Lemma deepEqualValue_objects (ma mb : list (string * JSON)) :
  deepEqualValue (JObj ma) (JObj mb)
  = Nat.eqb (List.length ma) (List.length mb)
    && forallb (fun m => match assoc (fst m) mb with
                         | Some y => deepEqualValue (snd m) y
                         | None => false
                         end) ma.
Proof.
  simpl. unfold keys. rewrite length_map. f_equal.
  induction ma as [|[k x] ma IH]; simpl; [reflexivity|].
  rewrite IH. reflexivity.
Qed.

Lemma noClash_arrays (xs ys : list JSON) :
  noClash (JArr xs) (JArr ys)
  = forallb (fun p => noClash (fst p) (snd p)) (combine xs ys).
Proof.
  simpl. revert ys.
  induction xs as [|x xs IH]; intros [|y ys]; simpl; try reflexivity.
  rewrite IH. reflexivity.
Qed.

Lemma noClash_objects (ma mb : list (string * JSON)) :
  noClash (JObj ma) (JObj mb)
  = forallb (fun m => match assoc (fst m) mb with
                      | Some y => noClash (snd m) y
                      | None => true
                      end) ma.
Proof.
  simpl. induction ma as [|[k x] ma IH]; simpl; [reflexivity|].
  rewrite IH. reflexivity.
Qed.

Lemma wellFormed_member (members : list (string * JSON)) (k : string)
  (x : JSON) :
  wellFormedJSON (JObj members) = true -> In (k, x) members ->
  wellFormedJSON x = true.
Proof.
  simpl. intros H Hin. apply andb_true_iff in H. destruct H as [_ H].
  rewrite forallb_forall in H. exact (H (k, x) Hin).
Qed.

(** Two members of one name in two objects of as many members each, the
    names of each object pairwise different: the objects have the same
    names. *)
Lemma same_names (ma mb : list (string * JSON)) :
  NoDup (keys ma) -> List.length ma = List.length mb ->
  (forall k, In k (keys ma) -> In k (keys mb)) ->
  forall k, assoc k ma = None -> assoc k mb = None.
Proof.
  intros Hnd Hlen Hincl k Hnone.
  apply assoc_None. apply assoc_None in Hnone. intros Hin. apply Hnone.
  assert (Hback : incl (keys mb) (keys ma)).
  { apply NoDup_length_incl; [assumption| |exact Hincl].
    unfold keys. rewrite !length_map. lia. }
  exact (Hback k Hin).
Qed.

(** What [deepEqual] finds equal is equal, as long as no array stands
    against an object. *)
Lemma deepEqualValue_complete (a : JSON) :
  forall b,
    wellFormedJSON a = true -> wellFormedJSON b = true ->
    noClash a b = true -> deepEqualValue a b = true -> equalJSON a b.
Proof.
  induction a using JSON_nested_ind; intros other Hwa Hwb Hclash Heq.
  - destruct other; try discriminate Heq. constructor.
  - destruct other; try discriminate Heq. simpl in Heq.
    apply Bool.eqb_prop in Heq. subst. constructor.
  - destruct other; try discriminate Heq. simpl in Heq.
    apply Z.eqb_eq in Heq. subst. constructor.
  - destruct other; try discriminate Heq. simpl in Heq.
    apply String.eqb_eq in Heq. subst. constructor.
  - destruct other as [| | | |ys|mb]; try discriminate Heq;
      [|discriminate Hclash].
    rewrite deepEqualValue_arrays in Heq. rewrite noClash_arrays in Hclash.
    apply andb_true_iff in Heq. destruct Heq as [Hlen Heach].
    apply Nat.eqb_eq in Hlen. simpl in Hwa, Hwb. constructor.
    revert ys Hlen Heach Hclash Hwb.
    induction items as [|x xs IH]; intros [|y ys] Hlen Heach Hclash Hwb;
      try discriminate Hlen; [constructor|].
    simpl in *.
    apply andb_true_iff in Hwa, Hwb, Heach, Hclash.
    destruct Hwa as [Hwx Hwxs], Hwb as [Hwy Hwys], Heach as [Hxy Heach],
      Hclash as [Hcxy Hclash].
    inversion H as [|? ? HPx HPxs]; subst.
    constructor; [apply HPx; assumption|].
    apply IH; try assumption. congruence.
  - destruct other as [| | | |ys|mb]; try discriminate Heq;
      [discriminate Hclash|].
    rewrite deepEqualValue_objects in Heq. rewrite noClash_objects in Hclash.
    apply andb_true_iff in Heq. destruct Heq as [Hlen Heach].
    apply Nat.eqb_eq in Hlen.
    rewrite forallb_forall in Heach, Hclash. rewrite Forall_forall in H.
    assert (Hfound : forall k x, In (k, x) members ->
                                 exists y, assoc k mb = Some y
                                           /\ equalJSON x y).
    { intros k x Hin. pose proof (Heach (k, x) Hin) as Hkx.
      pose proof (Hclash (k, x) Hin) as Hckx. cbn [fst snd] in Hkx, Hckx.
      destruct (assoc k mb) as [y|] eqn:Hy; [|discriminate Hkx].
      exists y. split; [reflexivity|].
      apply (H (k, x) Hin); try assumption.
      - exact (wellFormed_member _ _ _ Hwa Hin).
      - exact (wellFormed_member _ _ _ Hwb (assoc_In _ _ _ Hy)). }
    constructor.
    + intros k x Hk. exact (Hfound k x (assoc_In _ _ _ Hk)).
    + apply same_names; [|assumption|].
      * simpl in Hwa. apply andb_true_iff in Hwa. destruct Hwa as [Hkeys _].
        exact (distinct_NoDup _ Hkeys).
      * intros k Hk. apply in_map_iff in Hk. destruct Hk as ([k' x] & <- & Hin).
        destruct (Hfound k' x Hin) as (y & Hy & _).
        apply in_map_iff. exists (k', y). split; [reflexivity|].
        exact (assoc_In _ _ _ Hy).
Qed.

Lemma parsed_wellFormed (v : JSON) : parsed v = true -> wellFormedJSON v = true.
Proof. unfold parsed. intros H. apply andb_true_iff in H. tauto. Qed.

(** Values that are not equal are not deep-equal. *)
Lemma deepEqual_differs (a b : option JSON) :
  parsedValue a = true -> parsedValue b = true -> noClashValue a b = true ->
  ~ equalValue a b -> deepEqual a b = false.
Proof.
  intros Ha Hb Hclash Hdiff.
  destruct (deepEqual a b) eqn:Heq; [|reflexivity].
  exfalso. apply Hdiff.
  destruct a as [x|], b as [y|]; simpl in *; try discriminate; [|exact I].
  apply deepEqualValue_complete; try assumption;
    apply parsed_wellFormed; assumption.
Qed.

Lemma equal_singleton (k : string) (x y : JSON) :
  equalJSON x y -> equalJSON (JObj [(k, x)]) (JObj [(k, y)]).
Proof.
  intros Hxy. constructor.
  - intros k' x' Hk. simpl in *. destruct (String.eqb k' k); [|discriminate].
    injection Hk as <-. exists y. split; [reflexivity|assumption].
  - intros k' Hk. simpl in *. destruct (String.eqb k' k);
      [discriminate|reflexivity].
Qed.

Lemma canonicalExports_respects (a b : option JSON) :
  equalValue a b -> equalValue (canonicalExports a) (canonicalExports b).
Proof.
  destruct a as [x|], b as [y|]; simpl; try tauto.
  intros H. inversion H; subst; simpl; try assumption.
  - apply equal_singleton. constructor.
  - apply equal_singleton. assumption.
Qed.

Lemma canonicalBin_respects (a b : option JSON) (command : string) :
  equalValue a b ->
  equalValue (canonicalBin a command) (canonicalBin b command).
Proof.
  destruct a as [x|], b as [y|]; simpl; try tauto.
  intros H. inversion H; subst; simpl; try assumption.
  apply equal_singleton. constructor.
Qed.

Lemma canonical_respects (local registry : PackageJson) (command f : string) :
  equalValue (field local f) (field registry f) ->
  equalValue (canonical local command f) (canonical registry command f).
Proof.
  unfold canonical. intros H.
  destruct (String.eqb f "exports"); [apply canonicalExports_respects; exact H|].
  destruct (String.eqb f "bin"); [apply canonicalBin_respects; exact H|].
  exact H.
Qed.

Lemma parsed_canonicalExports (v : option JSON) :
  parsedValue (canonicalExports v) = true -> parsedValue v = true.
Proof.
  destruct v as [[| | | | |]|]; simpl; try tauto; unfold parsed; simpl;
    rewrite ?andb_true_r; tauto.
Qed.

Lemma parsed_canonicalBin (v : option JSON) (command : string) :
  parsedValue (canonicalBin v command) = true -> parsedValue v = true.
Proof.
  destruct v as [[| | | | |]|]; simpl; try tauto; unfold parsed; simpl;
    reflexivity.
Qed.

Lemma parsed_canonical (pkg : PackageJson) (command f : string) :
  parsedValue (canonical pkg command f) = true ->
  parsedValue (field pkg f) = true.
Proof.
  unfold canonical.
  destruct (String.eqb f "exports"); [apply parsed_canonicalExports|].
  destruct (String.eqb f "bin"); [apply parsed_canonicalBin|].
  tauto.
Qed.

(** A genuine change of comparable values is a change for [deepEqual]. *)
Lemma genuine_not_deepEqual (local registry : PackageJson)
  (command f : string) :
  comparable local registry command f ->
  genuineChange local registry command f ->
  deepEqual (field local f) (field registry f) = false.
Proof.
  intros (Hl & Hr & Hraw & _) Hchange.
  apply deepEqual_differs; try assumption.
  - exact (parsed_canonical _ _ _ Hl).
  - exact (parsed_canonical _ _ _ Hr).
  - intros Heq. apply Hchange. apply canonical_respects. exact Heq.
Qed.

Lemma normalizeExports_canonical (v : JSON) :
  v <> JNull -> Some (normalizeExports v) = canonicalExports (Some v).
Proof. destruct v; simpl; congruence. Qed.

Lemma normalizeBin_canonical (v : option JSON) (packageName command : string) :
  textOrObject v = true -> binKey packageName command ->
  normalizeBin v packageName = canonicalBin v command.
Proof.
  intros Htyped Hkey.
  destruct v as [[| | |path| |]|]; try discriminate Htyped; try reflexivity.
  apply normalizeBin_text. exact Hkey.
Qed.

(** What one turn of the loop lists for a genuine change. *)
Lemma compareField_genuine (local registry : PackageJson)
  (options : option CompareOptions) (command f : string) :
  comparable local registry command f ->
  genuineChange local registry command f ->
  exists level,
    compareField local registry options f
    = [mkFieldChange f (field registry f) (field local f) level]
    /\ (f <> "exports" ->
        level = getFieldSignificance f
                  (match options with
                   | Some o => additionalSignificantFields o
                   | None => None
                   end)).
Proof.
  intros Hcomparable Hchange.
  pose proof (genuine_not_deepEqual _ _ _ _ Hcomparable Hchange) as Hraw.
  destruct Hcomparable as (Hl & Hr & _ & Hclash & Hexports & Hbin).
  unfold genuineChange, canonical in Hchange.
  unfold canonical in Hl, Hr, Hclash.
  unfold compareField. rewrite Hraw.
  destruct (String.eqb f "exports") eqn:Hfe.
  - apply String.eqb_eq in Hfe. subst f.
    destruct (Hexports eq_refl) as [Hnl Hnr].
    exists critical. split; [|congruence].
    assert (Htrue : compareExports (field local "exports")
                      (field registry "exports") = true).
    { unfold compareExports.
      destruct (field local "exports") as [l|] eqn:Hfl;
        destruct (field registry "exports") as [r|] eqn:Hfr.
      - destruct l; try discriminate Hnl; destruct r; try discriminate Hnr;
          cbn [isNullish andb orb];
          (rewrite normalizeExports_canonical, normalizeExports_canonical
             by discriminate);
          (rewrite deepEqual_differs by assumption); reflexivity.
      - destruct l; try discriminate Hnl; reflexivity.
      - destruct r; try discriminate Hnr; reflexivity.
      - exfalso. apply Hchange. exact I. }
    rewrite Htrue. reflexivity.
  - eexists. split; [|reflexivity].
    destruct (String.eqb f "bin") eqn:Hfb; [|reflexivity].
    apply String.eqb_eq in Hfb. subst f.
    destruct (Hbin eq_refl) as (Htl & Htr & _ & _ & Hkl & Hkr).
    rewrite (normalizeBin_canonical _ _ command Htl Hkl),
      (normalizeBin_canonical _ _ command Htr Hkr).
    rewrite deepEqual_differs by assumption. reflexivity.
Qed.

Lemma never_is_not_fixed (f : string) :
  In f NEVER_SIGNIFICANT_FIELDS ->
  f <> "exports" /\ inArray f CRITICAL_FIELDS = false
  /\ inArray f SIGNIFICANT_FIELDS = false.
Proof.
  unfold NEVER_SIGNIFICANT_FIELDS; simpl.
  intros H; repeat (destruct H as [<-|H]; [repeat split; discriminate|]);
    destruct H.
Qed.

Section WithEngine.
Context {E : Engine}.

Lemma genuine_change_is_listed (local registry : PackageJson)
  (options : option CompareOptions) (command f : string) :
  In f (fieldsToCheck options) ->
  comparable local registry command f ->
  genuineChange local registry command f ->
  exists level,
    In (mkFieldChange f (field registry f) (field local f) level)
       (fieldChanges (comparePackageJson local registry options))
    /\ hasSignificantChanges (comparePackageJson local registry options)
       = true
    /\ (f <> "exports" ->
        level = getFieldSignificance f
                  (match options with
                   | Some o => additionalSignificantFields o
                   | None => None
                   end)).
Proof.
  intros Hchecked Hcomparable Hchange.
  destruct (compareField_genuine local registry options command f
              Hcomparable Hchange) as (level & Hfield & Hlevel).
  exists level.
  assert (Hin : In (mkFieldChange f (field registry f) (field local f) level)
                   (fieldChanges (comparePackageJson local registry options))).
  { unfold comparePackageJson; cbv zeta; cbn [fieldChanges].
    apply in_flat_map. exists f. split; [assumption|].
    rewrite Hfield. left; reflexivity. }
  split; [exact Hin|]. split; [|exact Hlevel].
  pose proof (fieldChanges_count _ _ _ _ Hin) as Hcounts.
  revert Hin Hcounts. unfold comparePackageJson; cbv zeta.
  cbn [fieldChanges hasSignificantChanges]. intros Hin Hcounts.
  apply orb_true_iff. left. apply existsb_exists. eexists. split; [exact Hin|].
  exact Hcounts.
Qed.

End WithEngine.

(** Why an array must not stand against an object: [deepEqual] takes an
    array for the object with the indices as member names (and the empty
    array for the empty object), so such a change of [exports] is not
    listed. *)
Lemma array_is_taken_for_object :
  (let r := compareRef
              (manifest [("exports", JObj [(".", JArr [JStr "./a.js"])])])
              (manifest [("exports",
                          JObj [(".", JObj [("0", JStr "./a.js")])])])
              None in
   fieldChanges r = [] /\ hasSignificantChanges r = false)
  /\ (let r := compareRef (manifest [("exports", JObj [(".", JArr [])])])
                 (manifest [("exports", JObj [(".", JObj [])])]) None in
      fieldChanges r = [] /\ hasSignificantChanges r = false).
Proof. repeat split; vm_compute; reflexivity. Qed.

(** C3 (amended): as long as the caller's [additionalSignificantFields]
    names no field of the never-significant list, the comparison does not
    depend on those fields (manifests that differ only there compare
    alike), and no entry of [fieldChanges] names one.  A genuine change
    of comparable values of [main], [exports], [bin], [types] or
    [engines] sets [hasSignificantChanges] unless the field is listed in
    the caller's [ignoreFields]; and so does one of a never-significant
    field that the caller names in [additionalSignificantFields] and not
    in [ignoreFields], which is listed as significant. *)
Theorem manifest_significance (E : Engine) (options : option CompareOptions) :
  (addsNoNeverField options ->
   forall local local' registry registry' : PackageJson,
     agreeOffNever local local' -> agreeOffNever registry registry' ->
     comparePackageJson local registry options
     = comparePackageJson local' registry' options)
  /\ (addsNoNeverField options ->
      forall (local registry : PackageJson) (c : FieldChange),
        In c (fieldChanges (comparePackageJson local registry options)) ->
        neverSignificant (fieldName c) = false)
  /\ (forall (local registry : PackageJson) (command f : string),
         In f ["main"; "exports"; "bin"; "types"; "engines"] ->
         ~ In f (ignoredOf options) ->
         comparable local registry command f ->
         genuineChange local registry command f ->
         hasSignificantChanges (comparePackageJson local registry options)
         = true)
  /\ (forall (local registry : PackageJson) (command f : string),
         In f NEVER_SIGNIFICANT_FIELDS ->
         In f (additionalOf options) ->
         ~ In f (ignoredOf options) ->
         comparable local registry command f ->
         genuineChange local registry command f ->
         In (mkFieldChange f (field registry f) (field local f) significant)
            (fieldChanges (comparePackageJson local registry options))
         /\ hasSignificantChanges (comparePackageJson local registry options)
            = true).
Proof.
  split; [|split; [|split]].
  - intros Hadd local local' registry registry' Hl Hr.
    apply comparePackageJson_agree; assumption.
  - intros Hadd local registry c Hc.
    apply (checked_not_never options); [assumption|].
    exact (fieldChanges_names _ _ _ _ Hc).
  - intros local registry command f Hf Hign Hcomparable Hchange.
    assert (Hchecked : In f (fieldsToCheck options)).
    { apply fieldsToCheck_In. split; [left|assumption].
      simpl in Hf; unfold SIGNIFICANT_FIELDS; simpl.
      repeat (destruct Hf as [<-|Hf]; [tauto|]); destruct Hf. }
    destruct (genuine_change_is_listed local registry options command f
                Hchecked Hcomparable Hchange) as (level & _ & Hflag & _).
    exact Hflag.
  - intros local registry command f Hnever Hadded Hign Hcomparable Hchange.
    assert (Hchecked : In f (fieldsToCheck options)).
    { apply fieldsToCheck_In. split; [right|]; assumption. }
    destruct (genuine_change_is_listed local registry options command f
                Hchecked Hcomparable Hchange) as (level & Hin & Hflag & Hlevel).
    destruct (never_is_not_fixed f Hnever) as (Hne & Hcritical & Hfixed).
    split; [|exact Hflag].
    rewrite (Hlevel Hne) in Hin.
    unfold getFieldSignificance, additionalOf, orEmpty in *.
    rewrite Hcritical, Hfixed in Hin.
    destruct options as [[inc [extra|] ign nar]|];
      cbn [additionalSignificantFields] in *; try destruct Hadded.
    apply inArray_In in Hadded. rewrite Hadded in Hin. exact Hin.
Qed.

(** Two manifests of the scoped package [@acme/tool] with [bin]. *)
Definition toolWithBin (bin : JSON) : PackageJson :=
  [("name", JStr "@acme/tool"); ("version", JStr "1.0.0"); ("bin", bin)].

Definition scriptsNamed : option CompareOptions :=
  Some (mkCompareOptions None (Some ["scripts"]) None None).

(** C3 at work: under the default options a change of [scripts] alone
    leaves the comparison what it is for equal manifests; a change of
    [main] and one of the file behind a [bin] shorthand set
    [hasSignificantChanges]; and [scripts], once the caller names it, is
    listed as significant. *)
Lemma manifest_significance_witness :
  compareRef (withScript "jest") (withScript "mocha") None
  = compareRef (withScript "mocha") (withScript "mocha") None
  /\ hasSignificantChanges
       (compareRef (withMain "./dist/index.js") (withMain "./lib/index.js")
          None)
     = true
  /\ hasSignificantChanges
       (compareRef (toolWithBin (JStr "cli.js"))
          (toolWithBin (JObj [("tool", JStr "old-cli.js")])) None)
     = true
  /\ (In (mkFieldChange "scripts" (Some (JObj [("test", JStr "mocha")]))
            (Some (JObj [("test", JStr "jest")])) significant)
         (fieldChanges
            (compareRef (withScript "jest") (withScript "mocha")
               scriptsNamed))
      /\ hasSignificantChanges
           (compareRef (withScript "jest") (withScript "mocha") scriptsNamed)
         = true).
Proof.
  split; [|split; [|split]].
  - apply (proj1 (manifest_significance RefEngine.refEngine None)).
    + intros f [].
    + intros f Hf. unfold field, withScript, manifest.
      destruct (String.eqb f "scripts") eqn:Hs.
      * apply String.eqb_eq in Hs; subst f. discriminate Hf.
      * simpl. rewrite Hs. reflexivity.
    + intros f _; reflexivity.
  - apply (proj1 (proj2 (proj2 (manifest_significance RefEngine.refEngine
                                  None)))
             (withMain "./dist/index.js") (withMain "./lib/index.js") "p"
             "main").
    + left; reflexivity.
    + intros [].
    + repeat split; try reflexivity; discriminate.
    + intros H. simpl in H. inversion H.
  - apply (proj1 (proj2 (proj2 (manifest_significance RefEngine.refEngine
                                  None)))
             (toolWithBin (JStr "cli.js"))
             (toolWithBin (JObj [("tool", JStr "old-cli.js")])) "tool" "bin").
    + right; right; left; reflexivity.
    + intros [].
    + repeat split; try reflexivity; try discriminate;
        right; exists "acme"; repeat split; reflexivity.
    + intros H. cbn in H.
      inversion H as [| | | | |a b Hmembers Hnone]; subst.
      destruct (Hmembers "tool" (JStr "cli.js") eq_refl) as (y & Hy & Hxy).
      cbn in Hy. injection Hy as <-. inversion Hxy.
  - apply (proj2 (proj2 (proj2 (manifest_significance RefEngine.refEngine
                                  scriptsNamed)))
             (withScript "jest") (withScript "mocha") "p" "scripts").
    + unfold NEVER_SIGNIFICANT_FIELDS; simpl; tauto.
    + left; reflexivity.
    + intros [].
    + repeat split; try reflexivity; discriminate.
    + intros H. cbn in H.
      inversion H as [| | | | |a b Hmembers Hnone]; subst.
      destruct (Hmembers "test" (JStr "jest") eq_refl) as (y & Hy & Hxy).
      cbn in Hy. injection Hy as <-. inversion Hxy.
Defined.

End SignificanceFacts.

(** ** file-content.ts: what the file comparison reports *)

Module FileReportFacts.
Import Js Manifest FileContent JsFacts FileContentFacts.



Section WithArchive.
Context {A : Archive}.


(** X20: in every result of [comparePackageFiles] the flag
    [packageJsonOnly] is what [isOnlyPackageJsonChange] answers on the
    listed changes, [identical] says that nothing is listed, and the
    two flags are never set together. *)
Theorem comparePackageFiles_flags (localTarball registryTarball : Buffer)
  (comparison : FileComparison) :
  comparePackageFiles localTarball registryTarball = inr comparison ->
  packageJsonOnly comparison
  = isOnlyPackageJsonChange (fileChanges comparison)
  /\ (identical comparison = true <-> fileChanges comparison = [])
  /\ (packageJsonOnly comparison = true -> identical comparison = false).
Proof.
  unfold comparePackageFiles.
  destruct (String.eqb _ _).
  { intros H; injection H as <-. simpl. repeat split; congruence. }
  destruct (extractTarball localTarball) as [e|localFiles]; [discriminate|].
  destruct (extractTarball registryTarball) as [e|registryFiles];
    [discriminate|].
  intros H; injection H as <-.
  unfold compareExtracted, isOnlyPackageJsonChange; cbv zeta.
  cbn [identical fileChanges packageJsonOnly].
  set (listed := flat_map _ _); clearbody listed.
  destruct listed as [|c rest]; cbn.
  - repeat split; congruence.
  - rewrite andb_true_r. repeat split; congruence.
Qed.

End WithArchive.


(** X20 at work: the same two tarballs. *)
Lemma comparePackageFiles_flags_witness :
  let comparison :=
    compareExtracted
      [("package/package.json", bytes "manifest");
       ("package/a.js", bytes "new code")]
      [("package/package.json", bytes "manifest");
       ("package/a.js", bytes "old code")] in
  packageJsonOnly comparison
  = isOnlyPackageJsonChange (fileChanges comparison)
  /\ (identical comparison = true <-> fileChanges comparison = [])
  /\ (packageJsonOnly comparison = true -> identical comparison = false).
Proof.
  apply (@comparePackageFiles_flags NeedsPublishFacts.codeChangeArchive
           (bytes "local.tgz") (bytes "registry.tgz")).
  reflexivity.
Defined.

End FileReportFacts.

(** ** needs-publish.ts: verdicts, requests and rejections *)

Module VerdictFacts.
Import Js Lib Manifest FileContent NeedsPublish NeedsPublishFacts.

(** The scope of a scoped package name, as the source cuts it out. *)
Definition scopeOf (localPkg : PackageJson) : option string :=
  if stringStartsWith (name localPkg) "@"
  then nth_error (splitChar "/"%char (name localPkg)) 0
  else None.

(** The registry the packument is asked from. *)
Definition chosenRegistry (w : World) (options : NeedsPublishOptions)
  (localPkg : PackageJson) : option string :=
  if truthyStr (registry options) then registry options
  else if truthyStr (scopeOf localPkg) then
    match answer w _ (NpmConfigGet
                        (template (scopeOf localPkg) ++ ":registry")%string)
    with
    | Some out =>
        if String.eqb (trim out) "undefined" then None else Some (trim out)
    | None => registry options
    end
  else registry options.

(** The requests made before the packument is asked for. *)
Definition readRequests (options : NeedsPublishOptions) : list RequestKind :=
  match package options with
  | Some _ => []
  | None => [read_local_manifest]
  end.

Definition configRequests (options : NeedsPublishOptions)
  (localPkg : PackageJson) : list RequestKind :=
  if truthyStr (registry options) then []
  else if truthyStr (scopeOf localPkg) then [npm_config_get]
  else [].

(** The three requests of a full comparison, in their order. *)
Definition comparisonRequests : list RequestKind :=
  [fetch_packument; fetch_tarball; pack_local].

(** [registryPkg.dist?.[m]], when it is a text. *)
Definition distMember (registryPkg : PackageJson) (m : string)
  : option string :=
  match field registryPkg "dist" with
  | Some d =>
      match getProp d m with
      | Some (JStr s) => Some s
      | _ => None
      end
  | None => None
  end.

(** The local manifest, when it can be read, has a text for name, as the
    [PackageJson] interface requires. *)
Definition namedManifest (w : World) (options : NeedsPublishOptions) : Prop :=
  forall localPkg,
    localManifest w options = inr localPkg ->
    stringField localPkg "name" <> None.

(** The run obtains both tarballs: the packument is fetched, its latest
    version is the local one and has an entry with a tarball URL, the
    tarball at that URL is fetched, and the working directory is
    packed. *)
Definition obtains (w : World) (options : NeedsPublishOptions)
  (localPkg : PackageJson) (localTarball registryTarball : Buffer) : Prop :=
  exists packument latestVersion registryPkg tarballUrl,
    answer w _ (FetchPackument (name localPkg)
                  (orUndefined (chosenRegistry w options localPkg)))
    = inr packument
    /\ orUndefined (distTagsLatest packument) = Some latestVersion
    /\ field localPkg "version" = Some (JStr latestVersion)
    /\ assoc latestVersion (versions packument) = Some registryPkg
    /\ orUndefined (distMember registryPkg "tarball") = Some tarballUrl
    /\ answer w _ (FetchTarball tarballUrl
                     (distMember registryPkg "integrity"))
       = inr registryTarball
    /\ answer w _ (PackLocal (orUndefined (cwd options))) = inr localTarball.

Lemma run_Call {R X : Type} (w : World) (q : Request X) (k : X -> Prog R) :
  run w (Call q k)
  = (fst (run w (k (answer w _ q))),
     kindOf q :: snd (run w (k (answer w _ q)))).
Proof. simpl. destruct (run w (k (answer w X q))); reflexivity. Qed.

Lemma registryFailure_publishes (e : JsError) :
  exists res, registryFailure e = Resolved res /\ needsPublish_ res = true.
Proof.
  unfold registryFailure.
  destruct (match code e with Some c => String.eqb c "E404" | None => false end);
    eexists; split; reflexivity.
Qed.

Section WithCapabilities.
Context {E : Engine} {A : Archive}.

Lemma afterPrivateCheck_run (w : World) (options : NeedsPublishOptions)
  (localPkg : PackageJson) :
  run w (afterPrivateCheck options localPkg)
  = (fst (run w (checkRegistry options localPkg
                   (chosenRegistry w options localPkg))),
     configRequests options localPkg
     ++ snd (run w (checkRegistry options localPkg
                      (chosenRegistry w options localPkg)))).
Proof.
  unfold afterPrivateCheck, chosenRegistry, configRequests; cbv zeta.
  fold (scopeOf localPkg).
  destruct (truthyStr (registry options)); [apply surjective_pairing|].
  destruct (truthyStr (scopeOf localPkg)); [|apply surjective_pairing].
  rewrite run_Call.
  destruct (answer w _ (NpmConfigGet _)) as [out|]; reflexivity.
Qed.

Lemma needsPublish_run (w : World) (options : NeedsPublishOptions) :
  run w (needsPublish options)
  = match localManifest w options with
    | inl e => (Rejected e, readRequests options)
    | inr localPkg =>
        if truthy (field localPkg "private")
        then (Resolved privateResult, readRequests options)
        else (fst (run w (afterPrivateCheck options localPkg)),
              readRequests options
              ++ snd (run w (afterPrivateCheck options localPkg)))
    end.
Proof.
  unfold needsPublish, needsPublishCb, needsPublishImpl, localManifest,
    readRequests; cbv zeta.
  destruct (package options) as [pkg|].
  - destruct (truthy (field pkg "private")); [reflexivity|].
    apply surjective_pairing.
  - rewrite run_Call.
    destruct (answer w _ (ReadLocalManifest _)) as [e|pkg]; [reflexivity|].
    destruct (truthy (field pkg "private")); reflexivity.
Qed.

(** What a run of [checkRegistry] comes to: either it resolves to
    publish before both tarballs are there, or both are obtained and the
    outcome is the one [compareTarballs] gives on them. *)
Lemma checkRegistry_outcomes (w : World) (options : NeedsPublishOptions)
  (localPkg : PackageJson) :
  let ran := run w (checkRegistry options localPkg
                      (chosenRegistry w options localPkg)) in
  (exists res k,
      fst ran = Resolved res /\ needsPublish_ res = true
      /\ snd ran = firstn (S k) comparisonRequests
      /\ forall localTarball registryTarball,
           ~ obtains w options localPkg localTarball registryTarball)
  \/ (exists localTarball registryTarball,
        obtains w options localPkg localTarball registryTarball
        /\ fst ran = compareTarballs options localTarball registryTarball
        /\ snd ran = comparisonRequests).
Proof.
  cbv zeta. unfold checkRegistry; cbv zeta. rewrite run_Call.
  cbn [fst snd kindOf].
  assert (Hfail : forall e, exists res,
             fst (run w (Done (registryFailure e))) = Resolved res
             /\ needsPublish_ res = true).
  { intros e. cbn [run fst]. apply registryFailure_publishes. }
  destruct (answer w _ (FetchPackument _ _)) as [e|packument] eqn:Hpackument.
  { left. destruct (Hfail e) as (res & Hres & Htrue).
    exists res, 0. repeat split; try assumption.
    intros l r (p & v & g & u & Hp & _). congruence. }
  destruct (orUndefined (distTagsLatest packument)) as [latestVersion|]
    eqn:Hlatest.
  2:{ left. eexists; exists 0. repeat split; try reflexivity.
      intros l r (p & v & g & u & Hp & Hv & _).
      rewrite Hpackument in Hp. injection Hp as <-. congruence. }
  destruct (strictEqualStr (field localPkg "version") latestVersion)
    eqn:Hversion; cbn [negb].
  2:{ left. eexists; exists 0. repeat split; try reflexivity.
      intros l r (p & v & g & u & Hp & Hv & Hlocal & _).
      rewrite Hpackument in Hp. injection Hp as <-.
      rewrite Hlatest in Hv. injection Hv as <-.
      unfold strictEqualStr in Hversion. rewrite Hlocal in Hversion.
      rewrite String.eqb_refl in Hversion. discriminate. }
  assert (Hlocal : field localPkg "version" = Some (JStr latestVersion)).
  { unfold strictEqualStr in Hversion.
    destruct (field localPkg "version") as [[| | |s| |]|]; try discriminate.
    apply String.eqb_eq in Hversion. congruence. }
  destruct (assoc latestVersion (versions packument)) as [pkg|] eqn:Hpkg.
  2:{ left. destruct (Hfail (mkJsError None (Some undefinedDistMessage)))
        as (res & Hres & Htrue).
      exists res, 0. repeat split; try assumption.
      intros l r (p & v & g & u & Hp & Hv & _ & Hg & _).
      rewrite Hpackument in Hp. injection Hp as <-.
      rewrite Hlatest in Hv. injection Hv as <-. congruence. }
  change (match field pkg "dist" with
          | Some d =>
              match getProp d "tarball" with
              | Some (JStr s) => Some s
              | _ => None
              end
          | None => None
          end) with (distMember pkg "tarball").
  change (match field pkg "dist" with
          | Some d =>
              match getProp d "integrity" with
              | Some (JStr s) => Some s
              | _ => None
              end
          | None => None
          end) with (distMember pkg "integrity").
  destruct (orUndefined (distMember pkg "tarball")) as [tarballUrl|] eqn:Hurl.
  2:{ left. eexists; exists 0. repeat split; try reflexivity.
      intros l r (p & v & g & u & Hp & Hv & _ & Hg & Hu & _).
      rewrite Hpackument in Hp. injection Hp as <-.
      rewrite Hlatest in Hv. injection Hv as <-.
      rewrite Hpkg in Hg. injection Hg as <-. congruence. }
  rewrite run_Call. cbn [fst snd kindOf].
  destruct (answer w _ (FetchTarball _ _)) as [e|registryTarball] eqn:Hfetch.
  { left. destruct (Hfail e) as (res & Hres & Htrue).
    exists res, 1. repeat split; try assumption.
    intros l r (p & v & g & u & Hp & Hv & _ & Hg & Hu & Hr & _).
    rewrite Hpackument in Hp. injection Hp as <-.
    rewrite Hlatest in Hv. injection Hv as <-.
    rewrite Hpkg in Hg. injection Hg as <-.
    rewrite Hurl in Hu. injection Hu as <-. congruence. }
  unfold packAndCompare. rewrite run_Call. cbn [fst snd kindOf].
  destruct (answer w _ (PackLocal _)) as [e|localTarball] eqn:Hpack.
  { left. eexists; exists 2. repeat split; try reflexivity.
    intros l r (p & v & g & u & _ & _ & _ & _ & _ & _ & Hl). congruence. }
  right. exists localTarball, registryTarball. split.
  - exists packument, latestVersion, pkg, tarballUrl. repeat split; assumption.
  - split; reflexivity.
Qed.

Lemma obtains_unique (w : World) (options : NeedsPublishOptions)
  (localPkg : PackageJson) (l r l' r' : Buffer) :
  obtains w options localPkg l r -> obtains w options localPkg l' r' ->
  l = l' /\ r = r'.
Proof.
  intros (p & v & g & u & Hp & Hv & _ & Hg & Hu & Hr & Hl)
         (p' & v' & g' & u' & Hp' & Hv' & _ & Hg' & Hu' & Hr' & Hl').
  rewrite Hp in Hp'. injection Hp' as <-.
  rewrite Hv in Hv'. injection Hv' as <-.
  rewrite Hg in Hg'. injection Hg' as <-.
  rewrite Hu in Hu'. injection Hu' as <-.
  rewrite Hr in Hr'. rewrite Hl in Hl'. split; congruence.
Qed.

(** When [compareTarballs] resolves and to what verdict. *)
Lemma compareTarballs_resolves (options : NeedsPublishOptions)
  (localTarball registryTarball : Buffer) (res : NeedsPublishResult) :
  compareTarballs options localTarball registryTarball = Resolved res ->
  (needsPublish_ res = false
   <-> exists comparison,
         comparePackageFiles localTarball registryTarball = inr comparison
         /\ identical comparison = true).
Proof.
  unfold compareTarballs; cbv zeta.
  destruct (String.eqb (hashBuffer localTarball) (hashBuffer registryTarball))
    eqn:Hhash.
  { intros H; injection H as <-. split; [intros _|reflexivity].
    exists (mkFileComparison true [] false). split; [|reflexivity].
    unfold comparePackageFiles. rewrite Hhash. reflexivity. }
  destruct (comparePackageFiles _ _) as [e|comparison]; [discriminate|].
  destruct (identical comparison) eqn:Hid.
  { intros H; injection H as <-. split; [intros _|reflexivity].
    exists comparison. split; [reflexivity|assumption]. }
  destruct (_ && _); [discriminate|].
  intros H; injection H as <-. split; [discriminate|].
  intros (c & Hc & Hc1). injection Hc as <-. congruence.
Qed.

(** When [compareTarballs] rejects and with what. *)
Lemma compareTarballs_rejects (options : NeedsPublishOptions)
  (localTarball registryTarball : Buffer) (e : JsError) :
  compareTarballs options localTarball registryTarball = Rejected e
  <-> comparePackageFiles localTarball registryTarball = inl e
      \/ exists comparison,
           comparePackageFiles localTarball registryTarball = inr comparison
           /\ identical comparison = false
           /\ FileContent.packageJsonOnly comparison = true
           /\ isTrue (packageJsonOnly options) = false
           /\ e = notAFunction "extractPackageJson".
Proof.
  unfold compareTarballs; cbv zeta.
  destruct (String.eqb (hashBuffer localTarball) (hashBuffer registryTarball))
    eqn:Hhash.
  { unfold comparePackageFiles. rewrite Hhash. split; [discriminate|].
    intros [H|(c & H & Hid & _)]; [discriminate|].
    injection H as <-. discriminate. }
  destruct (comparePackageFiles _ _) as [e'|comparison].
  { split.
    - intros H; injection H as ->. left; reflexivity.
    - intros [H|(c & H & _)]; [|discriminate]. injection H as ->. reflexivity. }
  destruct (identical comparison) eqn:Hid.
  { split; [discriminate|].
    intros [H|(c & H & Hid' & _)]; [discriminate|].
    injection H as <-. congruence. }
  destruct (FileContent.packageJsonOnly comparison) eqn:Honly;
    destruct (isTrue (packageJsonOnly options)) eqn:Hflag; cbn [andb negb];
    unfold importedExtractPackageJson;
    try (split; [discriminate|];
         intros [H|(c & H & _ & Honly' & Hflag' & _)]; [discriminate|];
         injection H as <-; congruence).
  split.
  - intros H; injection H as <-. right. exists comparison.
    repeat split; assumption.
  - intros [H|(c & _ & _ & _ & _ & ->)]; [discriminate|reflexivity].
Qed.


(** X22: a verdict that no publish is needed is never reached on an
    error.  It means that the local manifest was read and either is
    private, nothing more being asked for, or has the registry's latest
    version while packument, registry tarball and local pack were all
    obtained and the file comparison found the two packages identical. *)
Theorem no_publish_is_earned (w : World) (options : NeedsPublishOptions)
  (res : NeedsPublishResult) (trace : list RequestKind) :
  run w (needsPublish options) = (Resolved res, trace) ->
  needsPublish_ res = false ->
  exists localPkg,
    localManifest w options = inr localPkg
    /\ ((truthy (field localPkg "private") = true
         /\ res = privateResult
         /\ trace = readRequests options)
        \/ (truthy (field localPkg "private") = false
            /\ exists localTarball registryTarball comparison,
                 obtains w options localPkg localTarball registryTarball
                 /\ comparePackageFiles localTarball registryTarball
                    = inr comparison
                 /\ identical comparison = true
                 /\ trace = readRequests options
                            ++ configRequests options localPkg
                            ++ comparisonRequests)).
Proof.
  rewrite needsPublish_run.
  destruct (localManifest w options) as [e|localPkg]; [discriminate|].
  intros Hrun Hquiet. exists localPkg. split; [reflexivity|].
  destruct (truthy (field localPkg "private")).
  { apply pair_equal_spec in Hrun. destruct Hrun as [Hres Htrace].
    injection Hres as <-. left. repeat split. symmetry; exact Htrace. }
  right. split; [reflexivity|].
  rewrite afterPrivateCheck_run in Hrun; cbn [fst snd] in Hrun.
  apply pair_equal_spec in Hrun. destruct Hrun as [Hres Htrace].
  destruct (checkRegistry_outcomes w options localPkg)
    as [(res' & k & Hres' & Htrue & _)|(l & r & Hobtains & Hout & Hreq)].
  - rewrite Hres in Hres'. injection Hres' as <-. congruence.
  - rewrite Hout in Hres.
    destruct (proj1 (compareTarballs_resolves _ _ _ _ Hres) Hquiet)
      as (comparison & Hfiles & Hid).
    exists l, r, comparison. repeat split; try assumption.
    rewrite <- Htrace, Hreq. reflexivity.
Qed.

(** X23: for a manifest that, when it can be read, has a name,
    [needsPublish] rejects in exactly two cases: the local manifest
    cannot be read; or the manifest is read and not private, both
    tarballs are obtained, and either the file comparison fails or it
    finds the manifest alone changed while [packageJsonOnly] is not set,
    where the call of [extractPackageJson], which the comparators' index
    does not export, throws a TypeError.  Failures of the registry and of
    the local pack never reject. *)
Theorem rejection_comes_from_manifest_or_archive (w : World)
  (options : NeedsPublishOptions) (e : JsError) :
  namedManifest w options ->
  fst (run w (needsPublish options)) = Rejected e
  <-> localManifest w options = inl e
      \/ exists localPkg localTarball registryTarball,
           localManifest w options = inr localPkg
           /\ truthy (field localPkg "private") = false
           /\ obtains w options localPkg localTarball registryTarball
           /\ (comparePackageFiles localTarball registryTarball = inl e
               \/ exists comparison,
                    comparePackageFiles localTarball registryTarball
                    = inr comparison
                    /\ identical comparison = false
                    /\ FileContent.packageJsonOnly comparison = true
                    /\ isTrue (packageJsonOnly options) = false
                    /\ e = notAFunction "extractPackageJson").
Proof.
  intros _. rewrite needsPublish_run.
  destruct (localManifest w options) as [e'|localPkg].
  { cbn [fst]. split.
    - intros H; injection H as ->. left; reflexivity.
    - intros [H|(p & _ & _ & H & _)]; [|discriminate].
      injection H as ->. reflexivity. }
  destruct (truthy (field localPkg "private")) eqn:Hprivate.
  { cbn [fst]. split; [discriminate|].
    intros [H|(p & _ & _ & H & Hp & _)]; [discriminate|].
    injection H as <-. congruence. }
  rewrite afterPrivateCheck_run; cbn [fst].
  destruct (checkRegistry_outcomes w options localPkg)
    as [(res' & k & Hres' & _ & _ & Hnone)|(l & r & Hobtains & Hout & _)].
  - rewrite Hres'. split; [discriminate|].
    intros [H|(p & l & r & H & _ & Hobtains & _)]; [discriminate|].
    injection H as <-. exfalso. exact (Hnone l r Hobtains).
  - rewrite Hout, compareTarballs_rejects. split.
    + intros H. right. exists localPkg, l, r. repeat split; assumption.
    + intros [H|(p & l' & r' & H & _ & Hobtains' & Hcases)]; [discriminate|].
      injection H as <-.
      destruct (obtains_unique _ _ _ _ _ _ _ Hobtains Hobtains') as [-> ->].
      exact Hcases.
Qed.

(** X24: the requests of a run come in one fixed order, each at most
    once: the read of the manifest unless a manifest was handed in, the
    query of the scope's registry only when no registry was handed in,
    then a beginning of packument, registry tarball, local pack. *)
Theorem requests_in_order (w : World) (options : NeedsPublishOptions) :
  exists config k,
    snd (run w (needsPublish options))
    = readRequests options ++ config ++ firstn k comparisonRequests
    /\ (config = []
        \/ (config = [npm_config_get]
            /\ truthyStr (registry options) = false)).
Proof.
  rewrite needsPublish_run.
  destruct (localManifest w options) as [e|localPkg].
  { exists [], 0. rewrite app_nil_r. split; [reflexivity|left; reflexivity]. }
  destruct (truthy (field localPkg "private")).
  { exists [], 0. rewrite app_nil_r. split; [reflexivity|left; reflexivity]. }
  rewrite afterPrivateCheck_run; cbn [snd].
  assert (Hk : exists k,
             snd (run w (checkRegistry options localPkg
                           (chosenRegistry w options localPkg)))
             = firstn k comparisonRequests).
  { destruct (checkRegistry_outcomes w options localPkg)
      as [(res' & k & _ & _ & Hk & _)|(_ & _ & _ & _ & Hreq)].
    - exists (S k). exact Hk.
    - exists 3. exact Hreq. }
  destruct Hk as (k & Hk). rewrite Hk.
  exists (configRequests options localPkg), k. split; [reflexivity|].
  unfold configRequests.
  destruct (truthyStr (registry options)); [left; reflexivity|].
  destruct (truthyStr (scopeOf localPkg)); [right|left]; auto.
Qed.

(** X25: a package the registry does not know (error code E404) is a
    first publish: the verdict is to publish, and neither the registry
    tarball nor the local pack is asked for. *)
Theorem unknown_package_is_first_publish (w : World)
  (options : NeedsPublishOptions) (localPkg : PackageJson) (e : JsError) :
  localManifest w options = inr localPkg ->
  truthy (field localPkg "private") = false ->
  answer w _ (FetchPackument (name localPkg)
                (orUndefined (chosenRegistry w options localPkg))) = inl e ->
  code e = Some "E404" ->
  run w (needsPublish options)
  = (Resolved (mkResult true "Package not found in registry (first publish)"
                 (Some firstPublish)),
     readRequests options ++ configRequests options localPkg
     ++ [fetch_packument]).
Proof.
  intros Hload Hpublic Hfetch Hcode.
  rewrite needsPublish_run, Hload, Hpublic, afterPrivateCheck_run.
  unfold checkRegistry; cbv zeta. rewrite run_Call, Hfetch.
  cbn [run fst snd kindOf]. unfold registryFailure. rewrite Hcode.
  reflexivity.
Qed.

(** X26: a local version other than the registry's latest one means
    publish, told from the packument alone: no tarball is fetched and
    nothing is packed. *)
Theorem version_bump_means_publish (w : World)
  (options : NeedsPublishOptions) (localPkg : PackageJson)
  (packument : Packument) (latestVersion : string) :
  localManifest w options = inr localPkg ->
  truthy (field localPkg "private") = false ->
  answer w _ (FetchPackument (name localPkg)
                (orUndefined (chosenRegistry w options localPkg)))
  = inr packument ->
  distTagsLatest packument = Some latestVersion ->
  latestVersion <> "" ->
  field localPkg "version" <> Some (JStr latestVersion) ->
  exists res,
    run w (needsPublish options)
    = (Resolved res,
       readRequests options ++ configRequests options localPkg
       ++ [fetch_packument])
    /\ needsPublish_ res = true
    /\ changes res
       = Some [mkChangeDetail change_version (Some "version")
                 (Some (JStr latestVersion)) (field localPkg "version")
                 PackageJsonComparator.critical].
Proof.
  intros Hload Hpublic Hfetch Hlatest Hnonempty Hversion.
  rewrite needsPublish_run, Hload, Hpublic, afterPrivateCheck_run.
  unfold checkRegistry; cbv zeta. rewrite run_Call, Hfetch, Hlatest.
  assert (Hdefined : orUndefined (Some latestVersion) = Some latestVersion).
  { unfold orUndefined; cbn [truthyStr]. apply String.eqb_neq in Hnonempty.
    rewrite Hnonempty. reflexivity. }
  rewrite Hdefined.
  assert (Hdiffers : strictEqualStr (field localPkg "version") latestVersion
                     = false).
  { unfold strictEqualStr.
    destruct (field localPkg "version") as [[| | |s| |]|]; try reflexivity.
    apply String.eqb_neq. congruence. }
  rewrite Hdiffers. cbn [negb run fst snd kindOf].
  eexists. repeat split.
Qed.

End WithCapabilities.

(** A world whose registry does not know the package. *)
Definition unknownWorld : World :=
  mkWorld (fun X q =>
             match q in Request T return T with
             | ReadLocalManifest _ => inr localManifestDemo
             | NpmConfigGet _ => None
             | FetchPackument _ _ =>
                 inl (mkJsError (Some "E404") (Some "Not found"))
             | FetchTarball _ _ => inr (bytes "registry.tgz")
             | PackLocal _ => inr (bytes "local.tgz")
             end).

(** A manifest at version 1.0.1, the registry's latest being 1.0.0. *)
Definition bumpedManifest : PackageJson :=
  [("name", JStr "p"); ("version", JStr "1.0.1")].

Definition bumpedOptions : NeedsPublishOptions :=
  mkOptions None (Some bumpedManifest) None None None None None None.

(** Two tarballs with one tree and different digests. *)
Definition repackedArchive : Archive :=
  tableArchive
    [(bytes "local.tgz",
      [("package/package.json", bytes "manifest");
       ("package/index.js", bytes "code")]);
     (bytes "registry.tgz",
      [("package/package.json", bytes "manifest");
       ("package/index.js", bytes "code")])]
    [(bytes "manifest", localManifestDemo)].

Definition repackedResult : NeedsPublishResult :=
  mkResult false "Files identical (tarball metadata differs)" None.


(** X22 at work: the same package through a whole run. *)
Lemma no_publish_is_earned_witness :
  exists localPkg,
    localManifest demoWorld (demoOptions None) = inr localPkg
    /\ ((truthy (field localPkg "private") = true
         /\ repackedResult = privateResult
         /\ [fetch_packument; fetch_tarball; pack_local]
            = readRequests (demoOptions None))
        \/ (truthy (field localPkg "private") = false
            /\ exists localTarball registryTarball comparison,
                 obtains demoWorld (demoOptions None) localPkg localTarball
                   registryTarball
                 /\ @comparePackageFiles repackedArchive localTarball
                      registryTarball
                    = inr comparison
                 /\ identical comparison = true
                 /\ [fetch_packument; fetch_tarball; pack_local]
                    = readRequests (demoOptions None)
                      ++ configRequests (demoOptions None) localPkg
                      ++ comparisonRequests)).
Proof.
  apply (@no_publish_is_earned RefEngine.refEngine repackedArchive demoWorld
           (demoOptions None)).
  - vm_compute; reflexivity.
  - reflexivity.
Defined.

(** X23 at work: the manifest alone changed and [packageJsonOnly] is not
    set; the run is rejected at the call of [extractPackageJson]. *)
Lemma rejection_comes_from_manifest_or_archive_witness :
  fst (run demoWorld
         (@needsPublish RefEngine.refEngine demoArchive (demoOptions None)))
  = Rejected (notAFunction "extractPackageJson").
Proof.
  apply (proj2 (@rejection_comes_from_manifest_or_archive RefEngine.refEngine
                  demoArchive demoWorld (demoOptions None)
                  (notAFunction "extractPackageJson")
                  ltac:(intros p H; injection H as <-; discriminate))).
  right. exists localManifestDemo, (bytes "local.tgz"), (bytes "registry.tgz").
  split; [reflexivity|]. split; [reflexivity|]. split.
  - exists demoPackument, "1.0.0",
      (PackageJsonFacts.manifest
         [("dist", JObj [("tarball", JStr "https://registry.example/p.tgz")])]),
      "https://registry.example/p.tgz".
    repeat split; reflexivity.
  - right. eexists. split; [vm_compute; reflexivity|].
    repeat split; reflexivity.
Defined.

(** X25 at work: a package the registry answers E404 for. *)
Lemma unknown_package_is_first_publish_witness :
  run unknownWorld
    (@needsPublish RefEngine.refEngine demoArchive (demoOptions None))
  = (Resolved (mkResult true "Package not found in registry (first publish)"
                 (Some firstPublish)),
     [fetch_packument]).
Proof.
  apply (@unknown_package_is_first_publish RefEngine.refEngine demoArchive
           unknownWorld (demoOptions None) localManifestDemo
           (mkJsError (Some "E404") (Some "Not found")));
    reflexivity.
Defined.

(** X26 at work: 1.0.1 locally, 1.0.0 in the registry. *)
Lemma version_bump_means_publish_witness :
  exists res,
    run demoWorld (@needsPublish RefEngine.refEngine demoArchive bumpedOptions)
    = (Resolved res, [fetch_packument])
    /\ needsPublish_ res = true
    /\ changes res
       = Some [mkChangeDetail change_version (Some "version")
                 (Some (JStr "1.0.0")) (Some (JStr "1.0.1"))
                 PackageJsonComparator.critical].
Proof.
  apply (@version_bump_means_publish RefEngine.refEngine demoArchive demoWorld
           bumpedOptions bumpedManifest demoPackument "1.0.0");
    try reflexivity; discriminate.
Defined.

End VerdictFacts.

(** ** version-specifier.ts: aliases *)

Module AliasFacts.
Import Js Lib VersionSpecifier VersionSpecifierFacts JsFacts.

(** The directory context of a comparison. *)
Definition whereOf (options : option CompareSpecifierOptions) : option string :=
  match options with
  | Some o => where_ o
  | None => None
  end.

Section WithEngine.
Context {E : Engine}.

(** [spec] is resolved as an alias whose sub-specifier has the raw text
    [sub] (the [parsed.subSpec.rawSpec] the parser recurses on). *)
Definition aliasFor (spec : string) (w : option string) (sub : string)
  : Prop :=
  startsWith spec "workspace:" = false
  /\ spec <> ""
  /\ exists r, resolve "pkg" spec w = Some r
               /\ npaType r = npa_alias /\ subSpecRaw r = Some sub.

Lemma aliasFor_shorter (spec : string) (w : option string) (sub : string) :
  aliasFor spec w sub -> String.length sub < String.length spec.
Proof.
  intros (_ & _ & r & Hres & Htype & Hsub).
  exact (resolve_alias_shorter _ _ _ _ _ Hres Htype Hsub).
Qed.

Lemma parse_alias (spec : string) (w : option string) (sub : string) :
  aliasFor spec w sub ->
  parseVersionSpecifier spec w
  = mkParsed alias spec spec None (Some (parseVersionSpecifier sub w)) None.
Proof.
  intros Halias. pose proof (aliasFor_shorter _ _ _ Halias) as Hshort.
  destruct Halias as (Hws & Hne & r & Hres & Htype & Hsub).
  pose proof (parse_fuel_enough spec w) as Hparse.
  cbn [parse_fuel] in Hparse.
  apply String.eqb_neq in Hne.
  rewrite Hws, Hne, Hres, Htype, Hsub in Hparse.
  rewrite (parse_fuel_mono _ (String.length spec) _ _ _
             (parse_fuel_enough sub w)) in Hparse by lia.
  injection Hparse as <-. reflexivity.
Qed.

(** X27: the comparator does not look at the package an alias names: two
    different alias texts compare as their sub-specifiers do, so that
    aliases of different packages at one and the same range are found
    identical. *)
Theorem alias_package_name_is_not_compared (specA specB subA subB : string)
  (options : option CompareSpecifierOptions) :
  aliasFor specA (whereOf options) subA ->
  aliasFor specB (whereOf options) subB ->
  specA <> specB ->
  compareVersionSpecifiers specA specB options
  = compareVersionSpecifiers subA subB options
  /\ (subA = subB ->
      compareVersionSpecifiers specA specB options = result true identical).
Proof.
  intros HA HB Hdiff.
  assert (Hmain : compareVersionSpecifiers specA specB options
                  = compareVersionSpecifiers subA subB options).
  { pose proof (aliasFor_shorter _ _ _ HA) as HshortA.
    pose proof (aliasFor_shorter _ _ _ HB) as HshortB.
    pose proof (compare_fuel_enough specA specB options) as Hrun.
    cbn [compare_fuel] in Hrun. apply String.eqb_neq in Hdiff.
    rewrite Hdiff in Hrun. cbv zeta in Hrun. fold (whereOf options) in Hrun.
    rewrite (parse_alias _ _ _ HA), (parse_alias _ _ _ HB) in Hrun.
    unfold compareAliasSpecs in Hrun; cbn in Hrun.
    rewrite !parseVersionSpecifier_raw in Hrun.
    rewrite (DirectionFacts.compare_fuel_mono _
               (String.length specA + String.length specB) _ _ _ _
               (compare_fuel_enough subA subB options)) in Hrun by lia.
    injection Hrun as <-. reflexivity. }
  split; [exact Hmain|].
  intros <-. rewrite Hmain. unfold compareVersionSpecifiers.
  cbn [compare_fuel]. rewrite String.eqb_refl. reflexivity.
Qed.

(** X28: an alias against a text that is neither a workspace specifier
    nor an alias with a target compares as the alias's sub-specifier
    does against that text; against its own sub-specifier the alias is
    found identical. *)
Theorem alias_compares_as_its_target (specA specB subA : string)
  (options : option CompareSpecifierOptions) :
  aliasFor specA (whereOf options) subA ->
  type (parseVersionSpecifier specB (whereOf options)) <> workspace ->
  aliasTarget (parseVersionSpecifier specB (whereOf options)) = None ->
  specA <> specB ->
  compareVersionSpecifiers specA specB options
  = compareVersionSpecifiers subA specB options
  /\ (subA = specB ->
      compareVersionSpecifiers specA specB options = result true identical).
Proof.
  intros HA Hnotws Hnotarget Hdiff.
  assert (Hmain : compareVersionSpecifiers specA specB options
                  = compareVersionSpecifiers subA specB options).
  { pose proof (aliasFor_shorter _ _ _ HA) as HshortA.
    pose proof (compare_fuel_enough specA specB options) as Hrun.
    cbn [compare_fuel] in Hrun. apply String.eqb_neq in Hdiff.
    rewrite Hdiff in Hrun. cbv zeta in Hrun. fold (whereOf options) in Hrun.
    rewrite (parse_alias _ _ _ HA) in Hrun.
    unfold compareAliasSpecs in Hrun.
    rewrite Hnotarget in Hrun.
    cbn [type aliasTarget raw] in Hrun.
    destruct (type (parseVersionSpecifier specB (whereOf options))) eqn:HtB;
      try congruence; cbn in Hrun;
      rewrite !parseVersionSpecifier_raw in Hrun;
      rewrite (DirectionFacts.compare_fuel_mono _
                 (String.length specA + String.length specB) _ _ _ _
                 (compare_fuel_enough subA specB options)) in Hrun by lia;
      injection Hrun as <-; reflexivity. }
  split; [exact Hmain|].
  intros <-. rewrite Hmain. unfold compareVersionSpecifiers.
  cbn [compare_fuel]. rewrite String.eqb_refl. reflexivity.
Qed.

End WithEngine.

(** X27 at work: two packages aliased at one range. *)
Lemma alias_package_name_is_not_compared_witness :
  @compareVersionSpecifiers RefEngine.refEngine "npm:foo@^1.2.3"
    "npm:bar@^1.2.3" None
  = result true identical.
Proof.
  apply (proj2 (@alias_package_name_is_not_compared RefEngine.refEngine
                  "npm:foo@^1.2.3" "npm:bar@^1.2.3" "^1.2.3" "^1.2.3" None
                  ltac:(split; [reflexivity|split; [discriminate|
                          eexists; repeat split; reflexivity]])
                  ltac:(split; [reflexivity|split; [discriminate|
                          eexists; repeat split; reflexivity]])
                  ltac:(discriminate))).
  reflexivity.
Defined.

(** X28 at work: a range against an alias of another package at it. *)
Lemma alias_compares_as_its_target_witness :
  @compareVersionSpecifiers RefEngine.refEngine "npm:foo@^1.2.3" "^1.2.3" None
  = result true identical.
Proof.
  apply (proj2 (@alias_compares_as_its_target RefEngine.refEngine
                  "npm:foo@^1.2.3" "^1.2.3" "^1.2.3" None
                  ltac:(split; [reflexivity|split; [discriminate|
                          eexists; repeat split; reflexivity]])
                  ltac:(vm_compute; discriminate)
                  ltac:(vm_compute; reflexivity)
                  ltac:(discriminate))).
  reflexivity.
Defined.

End AliasFacts.
